(** * alvan-lic: offline, time-limited license keys

    A shallow embedding of [src/generator.ts], [src/validator.ts],
    [src/error.ts], [src/constants.ts], the factories, presets and format
    check of [src/utils.ts] and the prompts of [bin/alvan-cli.js],
    together with the parts of the
    JavaScript / Node.js platform those files call ([Buffer], [Date],
    [parseInt], [crypto.createHmac], [crypto.timingSafeEqual]).

    Conventions of the embedding:
    - a JavaScript string is the list of its UTF-16 code units;
    - a [Buffer] is a list of bytes;
    - the JavaScript numbers that are integral by construction (time values,
      parsed timestamps and their products) have type [number]: the
      integer-valued doubles, [NaN] and the two infinities.  The duration
      argument of the generator, which may be fractional, has type [double]:
      every double.  Arithmetic results are rounded to the nearest double as
      IEEE 754 prescribes.  The one quotient the validator computes
      ([hoursRemaining]) is kept as the exact rational it approximates;
    - a [throw] is an explicit [Throw] completion carrying the thrown value. *)

From Stdlib Require Import List NArith ZArith QArith Qminmax Lia Bool.
From Stdlib Require Import Strings.String Strings.Ascii Strings.Byte.
Import ListNotations.

Set Implicit Arguments.

(* ================================================================== *)
(** * [src/error.ts] *)

Module error.

(** [enum LicenseErrorType] *)
Inductive LicenseErrorType : Set :=
| INVALID_FORMAT
| INVALID_SIGNATURE
| EXPIRED
| INVALID_DATA
| BASE64_ERROR
| TIME_ERROR.

(** [class LicenseError extends Error]: the message and the type tag.  The
    optional [originalError] only decorates the value and is not kept. *)
Record LicenseError : Set := mkLicenseError
  { message : string;
    type : LicenseErrorType }.

Definition invalidFormat (msg : string) : LicenseError :=
  mkLicenseError msg INVALID_FORMAT.

Definition invalidSignature (msg : string) : LicenseError :=
  mkLicenseError msg INVALID_SIGNATURE.

Definition expired (msg : string) : LicenseError :=
  mkLicenseError msg EXPIRED.

Definition invalidData (msg : string) : LicenseError :=
  mkLicenseError ("Invalid license data: " ++ msg) INVALID_DATA.

Definition base64Error (msg : string) : LicenseError :=
  mkLicenseError ("Base64 decoding error: " ++ msg) BASE64_ERROR.

Definition timeError (msg : string) : LicenseError :=
  mkLicenseError ("Time parsing error: " ++ msg) TIME_ERROR.

End error.
Export error.

(* ================================================================== *)
(** * JavaScript values: completions and strings *)

Module JS.

(** What a [throw] can carry in this program: a [LicenseError], a plain
    [Error] (constructors and the generator), or the [RangeError] that
    Node's [crypto.timingSafeEqual] raises on operands of different byte
    length (code [ERR_CRYPTO_TIMING_SAFE_EQUAL_LENGTH]). *)
Inductive Exception : Set :=
| ALicenseError (e : LicenseError)
| AnError (msg : string)
| ARangeError (code : string).

Inductive Completion (A : Type) : Type :=
| Return (a : A)
| Throw (e : Exception).

Arguments Return {A} a.
Arguments Throw {A} e.

Definition bind {A B} (c : Completion A) (k : A -> Completion B) : Completion B :=
  match c with
  | Return a => k a
  | Throw e => Throw e
  end.

(** [try { body } catch (error) { throw handler(error) }] *)
Definition try_catch {A} (body : Completion A) (handler : Exception -> Exception)
  : Completion A :=
  match body with
  | Return a => Return a
  | Throw e => Throw (handler e)
  end.

(** The [LicenseErrorType] of a completion, when it threw a [LicenseError]. *)
Definition thrownType {A} (c : Completion A) : option LicenseErrorType :=
  match c with
  | Throw (ALicenseError e) => Some (type e)
  | _ => None
  end.

(* ------------------------------------------------------------------ *)
(** ** Strings and buffers *)

(** UTF-16 code units. *)
Definition jsstring : Set := list N.

(** A string literal of the source (ASCII). *)
Definition js (s : string) : jsstring :=
  map N_of_ascii (list_ascii_of_string s).

Definition Buffer : Set := list byte.

Definition byte_of_N (n : N) : byte :=
  match Byte.of_N (n mod 256) with
  | Some b => b
  | None => x00
  end.

(** [s.startsWith(p)] *)
Fixpoint startsWith (s p : jsstring) : bool :=
  match p, s with
  | [], _ => true
  | _ :: _, [] => false
  | c :: p', d :: s' => (c =? d)%N && startsWith s' p'
  end.

(** [s.slice(n)] for [0 <= n]. *)
Definition slice_from (s : jsstring) (n : nat) : jsstring := skipn n s.

(** [s.replace(/c/g, d)] for a one-character pattern. *)
Definition replaceAll (c d : N) (s : jsstring) : jsstring :=
  map (fun x => if (x =? c)%N then d else x) s.

(** [s.replace(/c/g, '')] *)
Definition removeAll (c : N) (s : jsstring) : jsstring :=
  filter (fun x => negb (x =? c)%N) s.

(** ECMAScript [WhiteSpace] and [LineTerminator] code units: what
    [String.prototype.trim] and [parseInt] skip. *)
Definition isWhiteSpace (c : N) : bool :=
  ((9 <=? c) && (c <=? 13) || (c =? 32) || (c =? 160) || (c =? 0x1680)
   || (0x2000 <=? c) && (c <=? 0x200A) || (c =? 0x2028) || (c =? 0x2029)
   || (c =? 0x202F) || (c =? 0x205F) || (c =? 0x3000) || (c =? 0xFEFF))%N.

Fixpoint trimStart (s : jsstring) : jsstring :=
  match s with
  | c :: s' => if isWhiteSpace c then trimStart s' else s
  | [] => []
  end.

(** [s.trim()] *)
Definition trim (s : jsstring) : jsstring :=
  rev (trimStart (rev (trimStart s))).

(** [s.split(':')]-style splitting on one code unit: the list of parts. *)
Fixpoint split (sep : N) (s : jsstring) : list jsstring :=
  match s with
  | [] => [[]]
  | c :: s' =>
      if (c =? sep)%N then [] :: split sep s'
      else match split sep s' with
           | p :: ps => (c :: p) :: ps
           | [] => [[c]]
           end
  end.

End JS.
Export JS.

Notation "x <- c ;; k" := (bind c (fun x => k))
  (at level 61, c at next level, right associativity).

(* ================================================================== *)
(** * SHA-256 and HMAC (FIPS 180-4, RFC 2104): [crypto.createHmac('sha256', key)] *)

Module Crypto.
Local Open Scope N_scope.

Definition add32 (a b : N) : N := (a + b) mod 0x100000000.

Definition rotr (n x : N) : N :=
  N.lor (N.shiftr x n) ((N.shiftl x (32 - n)) mod 0x100000000).

Definition Ch (x y z : N) : N :=
  N.lxor (N.land x y) (N.land (N.lxor x 0xFFFFFFFF) z).

Definition Maj (x y z : N) : N :=
  N.lxor (N.lxor (N.land x y) (N.land x z)) (N.land y z).

Definition Sigma0 (x : N) : N := N.lxor (N.lxor (rotr 2 x) (rotr 13 x)) (rotr 22 x).
Definition Sigma1 (x : N) : N := N.lxor (N.lxor (rotr 6 x) (rotr 11 x)) (rotr 25 x).
Definition sigma0 (x : N) : N := N.lxor (N.lxor (rotr 7 x) (rotr 18 x)) (N.shiftr x 3).
Definition sigma1 (x : N) : N := N.lxor (N.lxor (rotr 17 x) (rotr 19 x)) (N.shiftr x 10).

(** The first 64 primes. *)
Definition isPrime (n : nat) : bool :=
  forallb (fun d => negb (Nat.eqb (Nat.modulo n d) 0)) (seq 2 (n - 2)).

Definition primes64 : list N :=
  map N.of_nat (filter isPrime (seq 2 310)).

(** Integer cube root, one bit at a time from the top. *)
Fixpoint cbrt_bits (bits : nat) (n r : N) : N :=
  match bits with
  | O => r
  | S b =>
      let c := r + 2 ^ N.of_nat b in
      cbrt_bits b n (if c * c * c <=? n then c else r)
  end.

(** Round constants: the first 32 bits of the fractional parts of the cube
    roots of the first 64 primes. *)
Definition K256 : list N :=
  Eval vm_compute in
    map (fun p => cbrt_bits 44 (p * 2 ^ 96) 0 mod 2 ^ 32) primes64.

(** Initial hash value: the same for the square roots of the first 8 primes. *)
Definition H256 : list N :=
  Eval vm_compute in
    map (fun p => N.sqrt (p * 2 ^ 64) mod 2 ^ 32) (firstn 8 primes64).

(** Big-endian bytes of a word, and back. *)
Definition be_bytes (width : nat) (x : N) : list N :=
  map (fun i => (N.shiftr x (8 * N.of_nat i)) mod 256) (rev (seq 0 width)).

Definition be_word (bs : list N) : N :=
  fold_left (fun acc b => acc * 256 + b) bs 0.

(** Message padding: a 1 bit, zeros up to 56 mod 64, the bit length on 64 bits. *)
Definition pad (msg : list N) : list N :=
  let len := N.of_nat (List.length msg) in
  let zeros := (64 + 55 - len mod 64) mod 64 in
  msg ++ [0x80] ++ repeat 0 (N.to_nat zeros) ++ be_bytes 8 (8 * len).

Fixpoint words (n : nat) (bs : list N) : list N :=
  match n with
  | O => []
  | S n' => be_word (firstn 4 bs) :: words n' (skipn 4 bs)
  end.

(** The message schedule, newest word first. *)
Fixpoint schedule (n : nat) (w : list N) : list N :=
  match n with
  | O => w
  | S n' =>
      let x := add32 (add32 (sigma1 (nth 1 w 0)) (nth 6 w 0))
                     (add32 (sigma0 (nth 14 w 0)) (nth 15 w 0)) in
      schedule n' (x :: w)
  end.

Definition round (st : list N) (kw : N * N) : list N :=
  match st with
  | [a; b; c; d; e; f; g; h] =>
      let t1 := add32 (add32 (add32 h (Sigma1 e)) (add32 (Ch e f g) (fst kw))) (snd kw) in
      let t2 := add32 (Sigma0 a) (Maj a b c) in
      [add32 t1 t2; a; b; c; add32 d t1; e; f; g]
  | _ => st
  end.

Definition compress (h : list N) (block : list N) : list N :=
  let w := rev (schedule 48 (rev (words 16 block))) in
  let st := fold_left round (combine K256 w) h in
  map (fun p => add32 (fst p) (snd p)) (combine h st).

Fixpoint blocks (n : nat) (h : list N) (bs : list N) : list N :=
  match n with
  | O => h
  | S n' => blocks n' (compress h (firstn 64 bs)) (skipn 64 bs)
  end.

Definition sha256 (msg : Buffer) : Buffer :=
  let p := pad (map Byte.to_N msg) in
  map byte_of_N (flat_map (be_bytes 4) (blocks (List.length p / 64) H256 p)).

Definition xor_pad (c : N) (key : list N) : Buffer :=
  map (fun k => byte_of_N (N.lxor k c)) (key ++ repeat 0 (64 - List.length key)).

(** [createHmac('sha256', key).update(msg).digest()] *)
Definition hmacSha256 (key msg : Buffer) : Buffer :=
  let k := if Nat.ltb 64 (List.length key) then sha256 key else key in
  let k := map Byte.to_N k in
  sha256 (xor_pad 0x5c k ++ sha256 (xor_pad 0x36 k ++ msg)).

Definition hex (bs : Buffer) : string :=
  fold_right (fun b s =>
    let n := Byte.to_N b in
    let d x := ascii_of_N (if x <? 10 then 48 + x else 87 + x) in
    String (d (n / 16)) (String (d (n mod 16)) s)) EmptyString bs.

Definition ascii_bytes (s : string) : Buffer :=
  map byte_of_ascii (list_ascii_of_string s).

End Crypto.


(* ================================================================== *)
(** * JavaScript numbers, dates and the Node.js [Buffer] codecs *)

Module Number.
Local Open Scope Z_scope.

(** Integer-valued doubles, [NaN] and the infinities ([-0] is identified
    with [0]: the program only compares and prints it after rounding). *)
Inductive number : Set :=
| NaN
| Infinity (negative : bool)
| Int (z : Z).

(** Rounding of an exact integer to binary64 (53-bit significand, ties to
    even, overflow to infinity). *)
Definition toDouble (z : Z) : number :=
  let a := Z.abs z in
  if a <? 2 ^ 53 then Int z
  else
    let e := Z.log2 a - 52 in
    let q := a / 2 ^ e in
    let r := a mod 2 ^ e in
    let half := 2 ^ (e - 1) in
    let q' := if r <? half then q
              else if half <? r then q + 1
              else if Z.even q then q else q + 1 in
    let v := q' * 2 ^ e in
    if 2 ^ 1024 <=? v then Infinity (z <? 0) else Int (Z.sgn z * v).

Definition isNaN (x : number) : bool :=
  match x with NaN => true | _ => false end.

Definition mul (x y : number) : number :=
  match x, y with
  | NaN, _ | _, NaN => NaN
  | Int a, Int b => toDouble (a * b)
  | Infinity s, Int b => if b =? 0 then NaN else Infinity (xorb s (b <? 0))
  | Int a, Infinity s => if a =? 0 then NaN else Infinity (xorb s (a <? 0))
  | Infinity s, Infinity t => Infinity (xorb s t)
  end.

Definition add (x y : number) : number :=
  match x, y with
  | NaN, _ | _, NaN => NaN
  | Int a, Int b => toDouble (a + b)
  | Infinity s, Int _ | Int _, Infinity s => Infinity s
  | Infinity s, Infinity t => if Bool.eqb s t then Infinity s else NaN
  end.

Definition opp (x : number) : number :=
  match x with
  | NaN => NaN
  | Infinity s => Infinity (negb s)
  | Int a => Int (- a)
  end.

Definition sub (x y : number) : number := add x (opp y).

(** [x < y] and [x <= y]: false as soon as one side is [NaN]. *)
Definition ltb (x y : number) : bool :=
  match x, y with
  | NaN, _ | _, NaN => false
  | Int a, Int b => a <? b
  | Infinity s, Int _ => s
  | Int _, Infinity t => negb t
  | Infinity s, Infinity t => s && negb t
  end.

Definition leb (x y : number) : bool :=
  match x, y with
  | NaN, _ | _, NaN => false
  | Int a, Int b => a <=? b
  | Infinity s, Int _ => s
  | Int _, Infinity t => negb t
  | Infinity s, Infinity t => s || negb t
  end.

(** [Math.floor(x / d)] for a positive integer [d].  On a time value (at
    most 8.64e15 in magnitude) the double quotient lies within 2^-11 of
    the exact one, which is either an integer or at least 1/1000 away from
    one, so flooring the double is flooring the exact quotient. *)
Definition floorDiv (x : number) (d : Z) : number :=
  match x with
  | Int a => Int (a / d)
  | other => other
  end.

(** Decimal digits, most significant first. *)
Fixpoint digits_fuel (fuel : nat) (n : N) (acc : jsstring) : jsstring :=
  match fuel with
  | O => acc
  | S fuel' =>
      let acc' := (48 + n mod 10)%N :: acc in
      if (n / 10 =? 0)%N then acc' else digits_fuel fuel' (n / 10)%N acc'
  end.

Definition digits (n : N) : jsstring :=
  digits_fuel (S (N.to_nat (N.log2 n))) n [].

(** [Number::toString] as a template literal applies it.  Integers below
    1e21 in magnitude print in plain decimal; the generator only prints
    seconds derived from time values, far below that. *)
Definition ToString (x : number) : jsstring :=
  match x with
  | NaN => js "NaN"
  | Infinity false => js "Infinity"
  | Infinity true => js "-Infinity"
  | Int z => if z <? 0 then js "-" ++ digits (Z.to_N (- z)) else digits (Z.to_N z)
  end.

Definition isDigit (c : N) : bool := ((48 <=? c) && (c <=? 57))%N.

Fixpoint takeDigits (s : jsstring) : list N :=
  match s with
  | c :: s' => if isDigit c then (c - 48)%N :: takeDigits s' else []
  | [] => []
  end.

Definition digitsValue (ds : list N) : Z :=
  fold_left (fun acc d => acc * 10 + Z.of_N d) ds 0.

(** [parseInt(s, 10)]: skip leading white space, read an optional sign, then
    the longest run of decimal digits; [NaN] when that run is empty.
    Whatever follows the digits is ignored. *)
Definition parseInt (s : jsstring) : number :=
  let s1 := trimStart s in
  let '(sign, s2) :=
    match s1 with
    | c :: r => if (c =? 45)%N then (-1, r)
                else if (c =? 43)%N then (1, r) else (1, s1)
    | [] => (1, s1)
    end in
  match takeDigits s2 with
  | [] => NaN
  | ds => toDouble (sign * digitsValue ds)
  end.

(** The result of the one true division in the program: the exact rational
    that the double approximates, or a non-finite value. *)
Inductive quotient : Set :=
| Quot (q : Q)
| QuotNaN
| QuotInfinity (negative : bool).

Definition div (x : number) (d : positive) : quotient :=
  match x with
  | Int z => Quot (z # d)
  | NaN => QuotNaN
  | Infinity s => QuotInfinity s
  end.

(** [Math.max(0, x)] *)
Definition max0 (x : quotient) : quotient :=
  match x with
  | Quot q => Quot (Qmax 0 q)
  | QuotNaN => QuotNaN
  | QuotInfinity s => if s then Quot 0 else QuotInfinity false
  end.

(** [Date]: a time value in milliseconds, [NaN] for an Invalid Date. *)
Record Date : Set := mkDate { getTime : number }.

Definition maxTime : Z := 8640000000000000.

Definition TimeClip (x : number) : number :=
  match x with
  | Int z => if Z.abs z <=? maxTime then Int z else NaN
  | _ => NaN
  end.

(** [new Date(x)] *)
Definition newDate (x : number) : Date := mkDate (TimeClip x).

End Number.
Export Number.

(** The duration argument is the one [number] of the program that may have a
    fractional part.  It is modelled on all doubles, [m * 2^e], with every
    product and sum rounded to the nearest double (ties to even, gradual
    underflow, overflow to infinity); [-0] is identified with [0].  A date
    built from such a value is back among the integral ones: [TimeClip]
    truncates. *)
Module Double.
Local Open Scope Z_scope.

Inductive double : Set :=
| DNaN
| DInfinity (negative : bool)
| DFin (m e : Z).

(** Nearest integer to [a / 2^s] for [a >= 0] and [s > 0], ties to even. *)
Definition roundHalfEven (a s : Z) : Z :=
  let q := a / 2 ^ s in
  let r := a mod 2 ^ s in
  let half := 2 ^ (s - 1) in
  if r <? half then q
  else if half <? r then q + 1
  else if Z.even q then q else q + 1.

(** The double nearest to [m * 2^e].  [last] is the weight of the last bit
    of a 53-bit significand for a value of that size, never below the
    weight 2^-1074 of the smallest subnormal. *)
Definition round (m e : Z) : double :=
  let a := Z.abs m in
  let last := Z.max (Z.log2 a + e - 52) (-1074) in
  if last <=? e then
    if (0 <? a) && (1024 <=? Z.log2 a + e) then DInfinity (m <? 0) else DFin m e
  else
    let n := roundHalfEven a (last - e) in
    if (0 <? n) && (1024 <=? Z.log2 n + last) then DInfinity (m <? 0)
    else DFin (Z.sgn m * n) last.

Definition ofNumber (x : number) : double :=
  match x with
  | NaN => DNaN
  | Infinity s => DInfinity s
  | Int z => DFin z 0
  end.

Definition mul (x y : double) : double :=
  match x, y with
  | DNaN, _ | _, DNaN => DNaN
  | DFin a i, DFin b j => round (a * b) (i + j)
  | DInfinity s, DFin b _ => if b =? 0 then DNaN else DInfinity (xorb s (b <? 0))
  | DFin a _, DInfinity s => if a =? 0 then DNaN else DInfinity (xorb s (a <? 0))
  | DInfinity s, DInfinity t => DInfinity (xorb s t)
  end.

Definition add (x y : double) : double :=
  match x, y with
  | DNaN, _ | _, DNaN => DNaN
  | DFin a i, DFin b j =>
      let e := Z.min i j in
      round (a * 2 ^ (i - e) + b * 2 ^ (j - e)) e
  | DInfinity s, DFin _ _ | DFin _ _, DInfinity s => DInfinity s
  | DInfinity s, DInfinity t => if Bool.eqb s t then DInfinity s else DNaN
  end.

(** [x <= y] *)
Definition leb (x y : double) : bool :=
  match x, y with
  | DNaN, _ | _, DNaN => false
  | DFin a i, DFin b j =>
      let e := Z.min i j in
      a * 2 ^ (i - e) <=? b * 2 ^ (j - e)
  | DInfinity s, DFin _ _ => s
  | DFin _ _, DInfinity t => negb t
  | DInfinity s, DInfinity t => s || negb t
  end.

(** [TimeClip]: [NaN] beyond 8.64e15 ms, else the integral part. *)
Definition TimeClip (x : double) : number :=
  match x with
  | DFin m e =>
      if 0 <=? e
      then if Z.abs m * 2 ^ e <=? maxTime then Int (m * 2 ^ e) else NaN
      else if Z.abs m <=? maxTime * 2 ^ (- e)
           then Int (Z.quot m (2 ^ (- e))) else NaN
  | _ => NaN
  end.

(** [new Date(x)] *)
Definition newDate (x : double) : Date := mkDate (TimeClip x).

End Double.
Import Double(double, DNaN, DInfinity, DFin).

Module NodeBuffer.
Local Open Scope N_scope.

(** ** UTF-8 *)

Definition utf8_bytes (c : N) : Buffer :=
  map byte_of_N
    (if c <? 0x80 then [c]
     else if c <? 0x800 then [0xC0 + c / 64; 0x80 + c mod 64]
     else if c <? 0x10000 then
       [0xE0 + c / 4096; 0x80 + (c / 64) mod 64; 0x80 + c mod 64]
     else [0xF0 + c / 262144; 0x80 + (c / 4096) mod 64;
           0x80 + (c / 64) mod 64; 0x80 + c mod 64]).

Definition isHighSurrogate (c : N) : bool := (0xD800 <=? c) && (c <=? 0xDBFF).
Definition isLowSurrogate (c : N) : bool := (0xDC00 <=? c) && (c <=? 0xDFFF).

(** [Buffer.from(s, 'utf8')]: surrogate pairs are combined, a lone surrogate
    becomes U+FFFD. *)
Fixpoint utf8_encode (s : jsstring) : Buffer :=
  match s with
  | [] => []
  | c :: s' =>
      if isHighSurrogate c then
        match s' with
        | d :: s'' =>
            if isLowSurrogate d
            then utf8_bytes (0x10000 + (c - 0xD800) * 1024 + (d - 0xDC00))
                 ++ utf8_encode s''
            else utf8_bytes 0xFFFD ++ utf8_encode s'
        | [] => utf8_bytes 0xFFFD
        end
      else if isLowSurrogate c then utf8_bytes 0xFFFD ++ utf8_encode s'
      else utf8_bytes c ++ utf8_encode s'
  end.

Definition utf16_units (cp : N) : jsstring :=
  if cp <? 0x10000 then [cp]
  else [0xD800 + (cp - 0x10000) / 1024; 0xDC00 + (cp - 0x10000) mod 1024].

(** A sequence in progress: code point so far, continuation bytes still
    needed, and the bounds the next byte must respect. *)
Definition utf8_pending : Set := (N * nat * N * N)%type.

Definition utf8_lead (b : N) : jsstring * option utf8_pending :=
  if b <? 0x80 then ([b], None)
  else if (0xC2 <=? b) && (b <=? 0xDF) then ([], Some (b mod 32, 1%nat, 0x80, 0xBF))
  else if (0xE0 <=? b) && (b <=? 0xEF) then
    ([], Some (b mod 16, 2%nat,
               if b =? 0xE0 then 0xA0 else 0x80,
               if b =? 0xED then 0x9F else 0xBF))
  else if (0xF0 <=? b) && (b <=? 0xF4) then
    ([], Some (b mod 8, 3%nat,
               if b =? 0xF0 then 0x90 else 0x80,
               if b =? 0xF4 then 0x8F else 0xBF))
  else ([0xFFFD], None).

Fixpoint utf8_decode (st : option utf8_pending) (bs : Buffer) : jsstring :=
  match bs with
  | [] => match st with None => [] | Some _ => [0xFFFD] end
  | b :: bs' =>
      let n := Byte.to_N b in
      match st with
      | Some (cp, needed, lo, hi) =>
          if (lo <=? n) && (n <=? hi) then
            let cp' := cp * 64 + n mod 64 in
            match needed with
            | 1%nat => utf16_units cp' ++ utf8_decode None bs'
            | _ => utf8_decode (Some (cp', pred needed, 0x80, 0xBF)) bs'
            end
          else
            0xFFFD :: (fst (utf8_lead n) ++ utf8_decode (snd (utf8_lead n)) bs')
      | None => fst (utf8_lead n) ++ utf8_decode (snd (utf8_lead n)) bs'
      end
  end.

(** [buffer.toString('utf8')]: ill-formed input decodes to U+FFFD. *)
Definition toString_utf8 (b : Buffer) : jsstring := utf8_decode None b.

(** ** Base64 *)

Definition base64_char (v : N) : N :=
  if v <? 26 then 65 + v
  else if v <? 52 then 71 + v
  else if v <? 62 then v - 4
  else if v =? 62 then 43
  else 47.

(** Six-bit groups of a byte sequence; an incomplete last group is filled
    with zero bits. *)
Fixpoint sextets_of_bytes (bs : Buffer) : list N :=
  match bs with
  | a :: b :: c :: rest =>
      let '(a, b, c) := (Byte.to_N a, Byte.to_N b, Byte.to_N c) in
      a / 4 :: (a mod 4) * 16 + b / 16 :: (b mod 16) * 4 + c / 64 :: c mod 64
        :: sextets_of_bytes rest
  | [a; b] =>
      let '(a, b) := (Byte.to_N a, Byte.to_N b) in
      [a / 4; (a mod 4) * 16 + b / 16; (b mod 16) * 4]
  | [a] => let a := Byte.to_N a in [a / 4; (a mod 4) * 16]
  | [] => []
  end.

(** [buffer.toString('base64')]: standard alphabet, padded with [=]. *)
Definition toString_base64 (b : Buffer) : jsstring :=
  map base64_char (sextets_of_bytes b)
  ++ repeat 61 ((3 - List.length b mod 3) mod 3)%nat.

(** Node's decoding table: both the standard and the URL-safe alphabet. *)
Definition unbase64 (c : N) : option N :=
  if (65 <=? c) && (c <=? 90) then Some (c - 65)
  else if (97 <=? c) && (c <=? 122) then Some (c - 71)
  else if (48 <=? c) && (c <=? 57) then Some (c + 4)
  else if (c =? 43) || (c =? 45) then Some 62
  else if (c =? 47) || (c =? 95) then Some 63
  else None.

(** Node's decoder reads each code unit through an 8-bit cast, skips every
    character outside the alphabet and stops at the first [=]. *)
Fixpoint base64_sextets (s : jsstring) : list N :=
  match s with
  | [] => []
  | c :: s' =>
      let c8 := c mod 256 in
      match unbase64 c8 with
      | Some v => v :: base64_sextets s'
      | None => if c8 =? 61 then [] else base64_sextets s'
      end
  end.

(** A final group of two or three characters yields one or two bytes; a
    single left-over character yields none. *)
Fixpoint bytes_of_sextets (l : list N) : Buffer :=
  match l with
  | a :: b :: c :: d :: l' =>
      byte_of_N (a * 4 + b / 16) :: byte_of_N ((b mod 16) * 16 + c / 4)
        :: byte_of_N ((c mod 4) * 64 + d) :: bytes_of_sextets l'
  | [a; b; c] =>
      [byte_of_N (a * 4 + b / 16); byte_of_N ((b mod 16) * 16 + c / 4)]
  | [a; b] => [byte_of_N (a * 4 + b / 16)]
  | _ => []
  end.

(** [Buffer.from(s, 'base64')]: total, it never throws. *)
Definition from_base64 (s : jsstring) : Buffer :=
  bytes_of_sextets (base64_sextets s).

(** ** Searching and comparing *)

Fixpoint buffer_eqb (a b : Buffer) : bool :=
  match a, b with
  | [], [] => true
  | x :: a', y :: b' => Byte.eqb x y && buffer_eqb a' b'
  | _, _ => false
  end.

Fixpoint isPrefix (needle data : Buffer) : bool :=
  match needle, data with
  | [], _ => true
  | _ :: _, [] => false
  | x :: n', y :: d' => Byte.eqb x y && isPrefix n' d'
  end.

(** [data.indexOf(needle)]: first position where [needle] occurs, else -1. *)
Fixpoint indexOf (data needle : Buffer) : Z :=
  if isPrefix needle data then 0%Z
  else match data with
       | [] => (-1)%Z
       | _ :: data' =>
           let i := indexOf data' needle in
           if (i =? -1)%Z then (-1)%Z else (i + 1)%Z
       end.

(** [data.slice(from, to)] and [data.slice(from)] for indices in range. *)
Definition slice (data : Buffer) (from to : Z) : Buffer :=
  firstn (Z.to_nat to - Z.to_nat from) (skipn (Z.to_nat from) data).

Definition sliceFrom (data : Buffer) (from : Z) : Buffer :=
  skipn (Z.to_nat from) data.

(** [crypto.timingSafeEqual(a, b)]: throws a [RangeError] unless both
    operands have the same byte length. *)
Definition timingSafeEqual (a b : Buffer) : Completion bool :=
  if Nat.eqb (List.length a) (List.length b) then Return (buffer_eqb a b)
  else Throw (ARangeError "ERR_CRYPTO_TIMING_SAFE_EQUAL_LENGTH").

End NodeBuffer.
Export NodeBuffer.

(* ================================================================== *)
(** * [src/constants.ts] *)

Module constants.

Definition LICENSE_PREFIX : string := "alvan-".
Definition VERSION : string := "1.0.0".
Definition DEFAULT_SECRET_KEY : string := "alvan-default-secret-key-2024".

End constants.
Export constants.

Definition isEmpty (s : jsstring) : bool :=
  match s with [] => true | _ :: _ => false end.

Definition quote : string := String (ascii_of_nat 34) EmptyString.

(* ================================================================== *)
(** * [src/generator.ts] *)

Module LicenseGenerator.
Section WithHmac.

(** [createHmac('sha256', key).update(message).digest()], on bytes. *)
Variable hmac : Buffer -> Buffer -> Buffer.

Record t : Set := mk { secretKey : jsstring }.

(** [constructor(secretKey)] *)
Definition constructor (secretKey : jsstring) : Completion t :=
  if isEmpty secretKey || Nat.eqb (List.length (trim secretKey)) 0
  then Throw (AnError "Secret key cannot be empty")
  else Return (mk secretKey).

(** [toBase64Url(buffer)] *)
Definition toBase64Url (buffer : Buffer) : jsstring :=
  removeAll 61 (replaceAll 47 95 (replaceAll 43 45 (toString_base64 buffer))).

(** [generateKeyWithTimestamp(hours, issuedAt)] *)
Definition generateKeyWithTimestamp (this : t) (hours : double) (issuedAt : Date)
  : Completion jsstring :=
  if Double.leb hours (DFin 0 0)
  then Throw (AnError "Hours must be greater than 0")
  else if isNaN (getTime issuedAt)
  then Throw (AnError "Invalid issued timestamp")
  else
    let expiresAt :=
      Double.newDate
        (Double.add (Double.ofNumber (getTime issuedAt))
           (Double.mul (Double.mul (Double.mul hours (DFin 60 0)) (DFin 60 0))
              (DFin 1000 0))) in
    let issuedTimestamp := floorDiv (getTime issuedAt) 1000 in
    let expiresTimestamp := floorDiv (getTime expiresAt) 1000 in
    let payload := ToString issuedTimestamp ++ js ":" ++ ToString expiresTimestamp in
    let signature := hmac (utf8_encode (secretKey this)) (utf8_encode payload) in
    let payloadBuffer := utf8_encode payload in
    let separatorBuffer := utf8_encode (js ".") in
    let data := payloadBuffer ++ separatorBuffer ++ signature in
    let encoded := toBase64Url data in
    Return (js LICENSE_PREFIX ++ encoded).

(** [generateKey(hours)]; [now] is the clock reading [new Date()]. *)
Definition generateKey (this : t) (hours : double) (now : Date) : Completion jsstring :=
  generateKeyWithTimestamp this hours now.

End WithHmac.
End LicenseGenerator.

(* ================================================================== *)
(** * [src/validator.ts] *)

Module LicenseValidator.

(** [interface LicenseInfo] *)
Record LicenseInfo : Set := mkLicenseInfo
  { isValid : bool;
    issuedAt : Date;
    expiresAt : Date;
    hoursRemaining : quotient }.

Section WithHmac.

Variable hmac : Buffer -> Buffer -> Buffer.

Record t : Set := mk { secretKey : jsstring }.

(** [constructor(secretKey)] *)
Definition constructor (secretKey : jsstring) : Completion t :=
  if isEmpty secretKey || Nat.eqb (List.length (trim secretKey)) 0
  then Throw (AnError "Secret key cannot be empty")
  else Return (mk secretKey).

(** [fromBase64Url(str)] *)
Definition fromBase64Url (str : jsstring) : Completion Buffer :=
  let paddingNeeded := (4 - List.length str mod 4)%nat in
  let padded :=
    if negb (Nat.eqb paddingNeeded 4) then str ++ repeat 61%N paddingNeeded
    else str in
  let base64 := replaceAll 95 47 (replaceAll 45 43 padded) in
  try_catch (Return (from_base64 base64))
            (fun _ => AnError "Invalid base64url string").

(** The [try] block that reads the two timestamps of the payload. *)
Definition parseTimestamps (parts : list jsstring) : Completion (number * number) :=
  try_catch
    (let issuedPart := nth 0 parts [] in
     let expiresPart := nth 1 parts [] in
     if isEmpty issuedPart || isEmpty expiresPart
     then Throw (ALicenseError (invalidData "Missing timestamp data"))
     else
       let issuedTimestamp := parseInt issuedPart in
       let expiresTimestamp := parseInt expiresPart in
       if isNaN issuedTimestamp || isNaN expiresTimestamp
       then Throw (ALicenseError (timeError "Invalid timestamp format"))
       else Return (issuedTimestamp, expiresTimestamp))
    (fun _ => ALicenseError (timeError "Failed to parse timestamps")).

(** [validateKeyAtTime(licenseKey, currentTime)] *)
Definition validateKeyAtTime (this : t) (licenseKey : jsstring) (currentTime : Date)
  : Completion LicenseInfo :=
  if isEmpty licenseKey
  then Throw (ALicenseError (invalidFormat "License key must be a non-empty string"))
  else if negb (startsWith licenseKey (js LICENSE_PREFIX))
  then Throw (ALicenseError (invalidFormat
         ("License key must start with " ++ quote ++ LICENSE_PREFIX ++ quote)))
  else
    let encoded := slice_from licenseKey (List.length (js LICENSE_PREFIX)) in
    data <- try_catch (fromBase64Url encoded)
              (fun _ => ALicenseError (base64Error "Failed to decode license key")) ;;
    let separatorIndex := indexOf data (utf8_encode (js ".")) in
    if (separatorIndex =? -1)%Z
    then Throw (ALicenseError (invalidFormat "Missing separator in license data"))
    else
      let payload := slice data 0 separatorIndex in
      let providedSignature := sliceFrom data (separatorIndex + 1) in
      let expectedSignature := hmac (utf8_encode (secretKey this)) payload in
      same <- timingSafeEqual providedSignature expectedSignature ;;
      if negb same
      then Throw (ALicenseError (invalidSignature "License signature verification failed"))
      else
        let payloadStr := toString_utf8 payload in
        let parts := split 58 payloadStr in
        if negb (Nat.eqb (List.length parts) 2)
        then Throw (ALicenseError (invalidFormat "Invalid payload format"))
        else
          ts <- parseTimestamps parts ;;
          let '(issuedTimestamp, expiresTimestamp) := ts in
          if Number.leb issuedTimestamp (Int 0) || Number.leb expiresTimestamp (Int 0)
          then Throw (ALicenseError (invalidData "Timestamps must be positive"))
          else if Number.leb expiresTimestamp issuedTimestamp
          then Throw (ALicenseError
                 (invalidData "Expiration time must be after issued time"))
          else
            let issuedAt := newDate (Number.mul issuedTimestamp (Int 1000)) in
            let expiresAt := newDate (Number.mul expiresTimestamp (Int 1000)) in
            if isNaN (getTime issuedAt) || isNaN (getTime expiresAt)
            then Throw (ALicenseError (timeError "Invalid timestamp values"))
            else
              let isValid := Number.ltb (getTime currentTime) (getTime expiresAt) in
              let hoursRemaining :=
                if isValid
                then max0 (Number.div
                             (Number.sub (getTime expiresAt) (getTime currentTime))
                             (1000 * 60 * 60))
                else Quot 0 in
              if negb isValid
              then Throw (ALicenseError (expired "License has expired"))
              else Return (mkLicenseInfo isValid issuedAt expiresAt hoursRemaining).

(** The three stages of [validateKeyAtTime], cut out of its body to be
    reasoned about one at a time ([validateKeyAtTime_stages] below shows
    that running them in sequence is [validateKeyAtTime]). *)

(** Format, decode, structure and signature gates: the verified payload. *)
Definition verifySignature (this : t) (licenseKey : jsstring) : Completion Buffer :=
  if isEmpty licenseKey
  then Throw (ALicenseError (invalidFormat "License key must be a non-empty string"))
  else if negb (startsWith licenseKey (js LICENSE_PREFIX))
  then Throw (ALicenseError (invalidFormat
         ("License key must start with " ++ quote ++ LICENSE_PREFIX ++ quote)))
  else
    let encoded := slice_from licenseKey (List.length (js LICENSE_PREFIX)) in
    data <- try_catch (fromBase64Url encoded)
              (fun _ => ALicenseError (base64Error "Failed to decode license key")) ;;
    let separatorIndex := indexOf data (utf8_encode (js ".")) in
    if (separatorIndex =? -1)%Z
    then Throw (ALicenseError (invalidFormat "Missing separator in license data"))
    else
      let payload := slice data 0 separatorIndex in
      let providedSignature := sliceFrom data (separatorIndex + 1) in
      let expectedSignature := hmac (utf8_encode (secretKey this)) payload in
      same <- timingSafeEqual providedSignature expectedSignature ;;
      if negb same
      then Throw (ALicenseError (invalidSignature "License signature verification failed"))
      else Return payload.

(** Payload parse gate: the two dates of a verified payload. *)
Definition parsePayload (payload : Buffer) : Completion (Date * Date) :=
  let payloadStr := toString_utf8 payload in
  let parts := split 58 payloadStr in
  if negb (Nat.eqb (List.length parts) 2)
  then Throw (ALicenseError (invalidFormat "Invalid payload format"))
  else
    ts <- parseTimestamps parts ;;
    let '(issuedTimestamp, expiresTimestamp) := ts in
    if Number.leb issuedTimestamp (Int 0) || Number.leb expiresTimestamp (Int 0)
    then Throw (ALicenseError (invalidData "Timestamps must be positive"))
    else if Number.leb expiresTimestamp issuedTimestamp
    then Throw (ALicenseError
           (invalidData "Expiration time must be after issued time"))
    else
      let issuedAt := newDate (Number.mul issuedTimestamp (Int 1000)) in
      let expiresAt := newDate (Number.mul expiresTimestamp (Int 1000)) in
      if isNaN (getTime issuedAt) || isNaN (getTime expiresAt)
      then Throw (ALicenseError (timeError "Invalid timestamp values"))
      else Return (issuedAt, expiresAt).

(** Temporal gate. *)
Definition checkExpiry (dates : Date * Date) (currentTime : Date)
  : Completion LicenseInfo :=
  let '(issuedAt, expiresAt) := dates in
  let isValid := Number.ltb (getTime currentTime) (getTime expiresAt) in
  let hoursRemaining :=
    if isValid
    then max0 (Number.div
                 (Number.sub (getTime expiresAt) (getTime currentTime))
                 (1000 * 60 * 60))
    else Quot 0 in
  if negb isValid
  then Throw (ALicenseError (expired "License has expired"))
  else Return (mkLicenseInfo isValid issuedAt expiresAt hoursRemaining).

(** [validateKey(licenseKey)]; [now] is the clock reading [new Date()]. *)
Definition validateKey (this : t) (licenseKey : jsstring) (now : Date)
  : Completion LicenseInfo :=
  validateKeyAtTime this licenseKey now.

End WithHmac.
End LicenseValidator.
Import LicenseValidator(LicenseInfo, isValid, issuedAt, expiresAt, hoursRemaining).

(** The program as shipped: both classes over Node's HMAC-SHA256. *)
Definition hmacSha256 : Buffer -> Buffer -> Buffer := Crypto.hmacSha256.


(** A token assembled the way the generator assembles its own, around an
    arbitrary payload. *)
Definition signedToken (hmac : Buffer -> Buffer -> Buffer)
    (secret : jsstring) (payload : Buffer) : jsstring :=
  js LICENSE_PREFIX
  ++ LicenseGenerator.toBase64Url
       (payload ++ utf8_encode (js ".") ++ hmac (utf8_encode secret) payload).

(** The character [toBase64Url] emits for a six-bit value, and the
    character the validator hands to the decoder for it. *)
Definition urlChar (v : N) : N :=
  (fun x => if x =? 47 then 95 else x)%N
    ((fun x => if x =? 43 then 45 else x)%N (base64_char v)).

Definition stdChar (c : N) : N :=
  (fun x => if x =? 95 then 47 else x)%N ((fun x => if x =? 45 then 43 else x)%N c).

Definition charCheck (v : N) : bool :=
  negb (urlChar v =? 61)%N && negb (base64_char v =? 61)%N
  && (urlChar v <? 128)%N
  && match unbase64 (stdChar (urlChar v) mod 256) with
     | Some w => (w =? v)%N
     | None => false
     end.

(* ================================================================== *)
(** * [src/constants.ts], continued, and [src/utils.ts] *)

(** [LICENSE_DURATIONS] *)
Module LICENSE_DURATIONS.

Definition ONE_HOUR : double := DFin 1 0.
Definition ONE_DAY : double := DFin 24 0.
Definition ONE_WEEK : double := DFin 168 0.
Definition ONE_MONTH : double := DFin 720 0.
Definition ONE_YEAR : double := DFin 8760 0.

End LICENSE_DURATIONS.

Module utils.

(** [secretKey || DEFAULT_SECRET_KEY] for an optional string argument:
    [undefined] and the empty string are falsy. *)
Definition orDefault (secretKey : option jsstring) : jsstring :=
  match secretKey with
  | Some (c :: s) => c :: s
  | _ => js DEFAULT_SECRET_KEY
  end.

(** [createLicenseGenerator(secretKey?)] *)
Definition createLicenseGenerator (secretKey : option jsstring)
  : Completion LicenseGenerator.t :=
  LicenseGenerator.constructor (orDefault secretKey).

(** [createLicenseValidator(secretKey?)] *)
Definition createLicenseValidator (secretKey : option jsstring)
  : Completion LicenseValidator.t :=
  LicenseValidator.constructor (orDefault secretKey).

(** The character class [[A-Za-z0-9_-]]. *)
Definition isBase64UrlChar (c : N) : bool :=
  ((65 <=? c) && (c <=? 90) || (97 <=? c) && (c <=? 122)
   || (48 <=? c) && (c <=? 57) || (c =? 95) || (c =? 45))%N.

(** [/^[A-Za-z0-9_-]+$/.test(s)] *)
Definition base64urlPattern_test (s : jsstring) : bool :=
  negb (isEmpty s) && forallb isBase64UrlChar s.

(** [hasValidLicenseFormat(licenseKey)] *)
Definition hasValidLicenseFormat (licenseKey : jsstring) : bool :=
  if isEmpty licenseKey then false
  else if negb (startsWith licenseKey (js "alvan-")) then false
  else
    let encoded := slice_from licenseKey 6 in
    if Nat.ltb (List.length encoded) 10 then false
    else base64urlPattern_test encoded.

Section WithHmac.

Variable hmac : Buffer -> Buffer -> Buffer.

(** [class QuickLicense] *)
Record QuickLicense : Set := mkQuickLicense { generator : LicenseGenerator.t }.

Definition QuickLicense_constructor (secretKey : jsstring) : Completion QuickLicense :=
  g <- LicenseGenerator.constructor secretKey ;;
  Return (mkQuickLicense g).

(** The five presets; [now] is the clock reading of [generateKey]. *)
Definition oneHour (this : QuickLicense) (now : Date) : Completion jsstring :=
  LicenseGenerator.generateKey hmac (generator this) LICENSE_DURATIONS.ONE_HOUR now.

Definition oneDay (this : QuickLicense) (now : Date) : Completion jsstring :=
  LicenseGenerator.generateKey hmac (generator this) LICENSE_DURATIONS.ONE_DAY now.

Definition oneWeek (this : QuickLicense) (now : Date) : Completion jsstring :=
  LicenseGenerator.generateKey hmac (generator this) LICENSE_DURATIONS.ONE_WEEK now.

Definition oneMonth (this : QuickLicense) (now : Date) : Completion jsstring :=
  LicenseGenerator.generateKey hmac (generator this) LICENSE_DURATIONS.ONE_MONTH now.

Definition oneYear (this : QuickLicense) (now : Date) : Completion jsstring :=
  LicenseGenerator.generateKey hmac (generator this) LICENSE_DURATIONS.ONE_YEAR now.

(** [createQuickLicense(secretKey)] *)
Definition createQuickLicense (secretKey : jsstring) : Completion QuickLicense :=
  QuickLicense_constructor secretKey.

(** [durations.map(duration => generator.generateKey(duration))]: the
    calls run in order, each reads the clock once ([clock i] is the i-th
    reading), and the first one that throws ends the whole map. *)
Fixpoint mapGenerateKey (g : LicenseGenerator.t) (durations : list double)
    (clock : nat -> Date) (tick : nat) : Completion (list jsstring) :=
  match durations with
  | [] => Return []
  | duration :: rest =>
      key <- LicenseGenerator.generateKey hmac g duration (clock tick) ;;
      keys <- mapGenerateKey g rest clock (S tick) ;;
      Return (key :: keys)
  end.

(** [generateMultipleLicenses(secretKey, durations)] *)
Definition generateMultipleLicenses (secretKey : jsstring) (durations : list double)
    (clock : nat -> Date) : Completion (list jsstring) :=
  g <- LicenseGenerator.constructor secretKey ;;
  mapGenerateKey g durations clock 0.

End WithHmac.
End utils.

(* ================================================================== *)
(** * [bin/alvan-cli.js]: the prompts of the interactive mode *)

Module cli.

(** [s === t] on strings. *)
Definition strictEq (s t : jsstring) : bool :=
  if list_eq_dec N.eq_dec s t then true else false.

(** The lines typed at the prompts: [askQuestion] resolves with the next
    one, so a function reads the line at its position and hands the
    position on.  What the functions print is left out. *)
Definition Input : Set := nat -> jsstring.

(** [getSecretKeyInteractive(rl)] *)
Definition getSecretKeyInteractive (input : Input) (pos : nat) : jsstring * nat :=
  let choice := input pos in
  if strictEq (trim choice) (js "1") then (js DEFAULT_SECRET_KEY, S pos)
  else if strictEq (trim choice) (js "2") then
    let secret := input (S pos) in
    if isEmpty (trim secret) then (js DEFAULT_SECRET_KEY, S (S pos))
    else if Nat.ltb (List.length secret) 8 then (trim secret, S (S pos))
    else (trim secret, S (S pos))
  else (js DEFAULT_SECRET_KEY, S pos).

(** [getHoursInputInteractive(rl)]: [fuel] bounds the turns of its
    [while (true)] loop; [None] when the loop is still asking. *)
Fixpoint getHoursInputInteractive (fuel : nat) (input : Input) (pos : nat)
  : option (number * nat) :=
  match fuel with
  | O => None
  | S fuel' =>
      let choice := input pos in
      if strictEq (trim choice) (js "1") then Some (Int 1, S pos)
      else if strictEq (trim choice) (js "2") then Some (Int 24, S pos)
      else if strictEq (trim choice) (js "3") then Some (Int 168, S pos)
      else if strictEq (trim choice) (js "4") then Some (Int 720, S pos)
      else if strictEq (trim choice) (js "5") then Some (Int 8760, S pos)
      else if strictEq (trim choice) (js "6") then
        let customInput := input (S pos) in
        let hours := parseInt (trim customInput) in
        if isNaN hours || Number.leb hours (Int 0)
        then getHoursInputInteractive fuel' input (S (S pos))
        else Some (hours, S (S pos))
      else getHoursInputInteractive fuel' input (S pos)
  end.

Section WithHmac.

Variable hmac : Buffer -> Buffer -> Buffer.

(** The [try] block of [generateKeyInteractive(rl)] up to the license it
    prints: the secret and the duration come from the two prompts above. *)
Definition generateKeyInteractive (fuel : nat) (input : Input) (pos : nat)
    (now : Date) : option (Completion jsstring) :=
  let '(secretKey, pos1) := getSecretKeyInteractive input pos in
  match getHoursInputInteractive fuel input pos1 with
  | None => None
  | Some (hours, _) =>
      Some (generator <- LicenseGenerator.constructor secretKey ;;
            LicenseGenerator.generateKey hmac generator (Double.ofNumber hours) now)
  end.

End WithHmac.
End cli.

(** The payload text [generateKeyWithTimestamp] builds (its lines from
    "Calculate expiration time" to the template literal), for an issuance
    date it accepted. *)
Definition generatedPayload (hours : double) (issuedAt : Date) : jsstring :=
  let expiresAt :=
    Double.newDate
      (Double.add (Double.ofNumber (getTime issuedAt))
         (Double.mul (Double.mul (Double.mul hours (DFin 60 0)) (DFin 60 0))
            (DFin 1000 0))) in
  ToString (floorDiv (getTime issuedAt) 1000) ++ js ":"
  ++ ToString (floorDiv (getTime expiresAt) 1000).

(** Printed numbers hold ASCII letters, digits and the minus sign only:
    no dot and no colon. *)
Definition plain (s : jsstring) : Prop :=
  Forall (fun c => c < 128 /\ c <> 46 /\ c <> 58)%N s.

(** Strings of ASCII characters, and decimal numerals. *)
Definition ascii_only (s : jsstring) : Prop := Forall (fun c => c < 128)%N s.

Definition numeral (s : jsstring) : Prop := Forall (fun c => 48 <= c <= 57)%N s.

(** The payload text the generator writes for two non-negative numbers of
    seconds. *)
Definition payloadText (issued expires : Z) : jsstring :=
  digits (Z.to_N issued) ++ js ":" ++ digits (Z.to_N expires).

(** Split a conjunction into its parts, and nothing else. *)
Ltac splits := repeat match goal with |- _ /\ _ => split end.

(** Linear arithmetic with division and remainder by constants. *)
Ltac lia_div := zify; Z.to_euclidean_division_equations; lia.

(* ================================================================== *)
(** * Properties of the platform model *)

(** Known answers for the hash (FIPS 180-4 examples) and the MAC. *)

Example sha256_abc :
  Crypto.hex (Crypto.sha256 (Crypto.ascii_bytes "abc"))
  = "ba7816bf8f01cfea414140de5dae2223b00361a396177a9cb410ff61f20015ad"%string.
Proof. vm_compute. reflexivity. Qed.

Example sha256_empty :
  Crypto.hex (Crypto.sha256 [])
  = "e3b0c44298fc1c149afbf4c8996fb92427ae41e4649b934ca495991b7852b855"%string.
Proof. vm_compute. reflexivity. Qed.

Example sha256_two_blocks :
  Crypto.hex (Crypto.sha256 (Crypto.ascii_bytes
     "abcdbcdecdefdefgefghfghighijhijkijkljklmklmnlmnomnopnopq"))
  = "248d6a61d20638b8e5c026930c3e6039a33ce45964ff2167f6ecedd419db06c1"%string.
Proof. vm_compute. reflexivity. Qed.

(** RFC 4231, test cases 2 and 6 (a key longer than one block). *)
Example hmac_rfc4231_2 :
  Crypto.hex (Crypto.hmacSha256 (Crypto.ascii_bytes "Jefe")
                (Crypto.ascii_bytes "what do ya want for nothing?"))
  = "5bdcc146bf60754e6a042426089575c75a003f089d2739839dec58b964ec3843"%string.
Proof. vm_compute. reflexivity. Qed.

Example hmac_rfc4231_6 :
  Crypto.hex (Crypto.hmacSha256 (repeat "170"%byte 131)
                (Crypto.ascii_bytes
                   "Test Using Larger Than Block-Size Key - Hash Key First"))
  = "60e431591ee0b67f0d8a26aacbf5b77f8e0bc6213728c5140546040f0ee37f54"%string.
Proof. vm_compute. reflexivity. Qed.

(** Rounding: 2^53 + 1 is a tie and goes to the even neighbour; 0.1 * 3 is
    0.30000000000000004; the smallest subnormal halves to zero. *)
Example toDouble_tie : toDouble (2 ^ 53 + 1) = Int (2 ^ 53).
Proof. vm_compute. reflexivity. Qed.

Example double_tenth_times_three :
  Double.mul (DFin 3602879701896397 (-55)) (DFin 3 0)
  = DFin 5404319552844596 (-54).
Proof. vm_compute. reflexivity. Qed.

Example double_underflow :
  Double.mul (DFin 1 (-1074)) (DFin 1 (-1)) = DFin 0 (-1074).
Proof. vm_compute. reflexivity. Qed.

(** [Buffer.from(s, 'base64')] on well-formed, truncated and dirty input. *)
Example from_base64_samples :
  from_base64 (js "QUJD") = Crypto.ascii_bytes "ABC"
  /\ from_base64 (js "QUJDRA==") = Crypto.ascii_bytes "ABCD"
  /\ from_base64 (js "QUJDR") = Crypto.ascii_bytes "ABC"
  /\ from_base64 (js "Q U!JD") = Crypto.ascii_bytes "ABC"
  /\ from_base64 (js "QQ==QUJD") = Crypto.ascii_bytes "A".
Proof. splits; vm_compute; reflexivity. Qed.


Section BytesAndBase64.
Local Open Scope N_scope.

Lemma to_N_lt (b : byte) : Byte.to_N b < 256.
Proof. pose proof (Byte.to_N_bounded b). lia. Qed.

Lemma byte_of_to_N (b : byte) : byte_of_N (Byte.to_N b) = b.
Proof.
  unfold byte_of_N. rewrite N.mod_small by apply to_N_lt.
  now rewrite Byte.of_to_N.
Qed.

Lemma to_N_byte_of_N (n : N) : n < 256 -> Byte.to_N (byte_of_N n) = n.
Proof.
  intros Hn. unfold byte_of_N. rewrite N.mod_small by assumption.
  destruct (Byte.of_N n) as [b|] eqn:E.
  - now apply Byte.to_of_N.
  - apply Byte.of_N_None_iff in E. lia.
Qed.

(** Induction three bytes at a time, as the base64 encoder consumes them. *)
Lemma list_ind3 (A : Type) (P : list A -> Prop) :
  P [] -> (forall a, P [a]) -> (forall a b, P [a; b]) ->
  (forall a b c l, P l -> P (a :: b :: c :: l)) ->
  forall l, P l.
Proof.
  intros H0 H1 H2 H3.
  assert (H : forall l, P l /\ (forall a, P (a :: l)) /\ (forall a b, P (a :: b :: l))).
  { induction l as [|x l (IH0 & IH1 & IH2)].
    - repeat split; auto.
    - repeat split; intros; auto. }
  intros l. apply H.
Qed.

Lemma group_of_three (a b c : N) :
  a < 256 -> b < 256 -> c < 256 ->
  (a / 4) * 4 + ((a mod 4) * 16 + b / 16) / 16 = a /\
  (((a mod 4) * 16 + b / 16) mod 16) * 16 + ((b mod 16) * 4 + c / 64) / 4 = b /\
  (((b mod 16) * 4 + c / 64) mod 4) * 64 + c mod 64 = c.
Proof. intros; repeat split; lia_div. Qed.

Lemma sextets_round_trip (bs : Buffer) :
  bytes_of_sextets (sextets_of_bytes bs) = bs.
Proof.
  induction bs as [|a|a b|a b c l IH] using list_ind3;
    cbn [bytes_of_sextets sextets_of_bytes].
  - reflexivity.
  - f_equal. rewrite <- (byte_of_to_N a) at 3. f_equal. lia_div.
  - pose proof (to_N_lt a). pose proof (to_N_lt b).
    rewrite <- (byte_of_to_N a) at 4. rewrite <- (byte_of_to_N b) at 4.
    repeat f_equal; lia_div.
  - destruct (group_of_three (to_N_lt a) (to_N_lt b) (to_N_lt c)) as (Ha & Hb & Hc).
    rewrite Ha, Hb, Hc, IH, !byte_of_to_N. reflexivity.
Qed.

Lemma sextets_bound (bs : Buffer) :
  Forall (fun v => v < 64) (sextets_of_bytes bs).
Proof.
  induction bs as [|a|a b|a b c l IH] using list_ind3;
    cbn [sextets_of_bytes].
  - constructor.
  - pose proof (to_N_lt a). repeat constructor; lia_div.
  - pose proof (to_N_lt a). pose proof (to_N_lt b). repeat constructor; lia_div.
  - pose proof (to_N_lt a). pose proof (to_N_lt b). pose proof (to_N_lt c).
    repeat (constructor; [lia_div|]). exact IH.
Qed.

Lemma charCheck_all (v : N) : v < 64 -> charCheck v = true.
Proof.
  intros Hv.
  assert (H : forallb charCheck (map N.of_nat (seq 0 64)) = true)
    by (vm_compute; reflexivity).
  rewrite forallb_forall in H. apply H.
  rewrite <- (N2Nat.id v). apply in_map, in_seq. lia.
Qed.

Lemma urlChar_spec (v : N) :
  v < 64 ->
  urlChar v <> 61 /\ base64_char v <> 61 /\ urlChar v < 128 /\
  unbase64 (stdChar (urlChar v) mod 256) = Some v.
Proof.
  intros Hv. pose proof (charCheck_all Hv) as H. unfold charCheck in H.
  apply andb_prop in H as [H H4]. apply andb_prop in H as [H H3].
  apply andb_prop in H as [H1 H2].
  rewrite negb_true_iff, N.eqb_neq in H1, H2. rewrite N.ltb_lt in H3.
  repeat split; auto.
  destruct (unbase64 _) as [w|]; [|discriminate].
  apply N.eqb_eq in H4. now subst.
Qed.

Lemma toBase64Url_chars (bs : Buffer) :
  LicenseGenerator.toBase64Url bs = map urlChar (sextets_of_bytes bs).
Proof.
  unfold LicenseGenerator.toBase64Url, toString_base64, replaceAll, removeAll.
  rewrite !map_app, !map_map, filter_app.
  replace (filter _ (map _ (repeat 61 _))) with (@nil N).
  - rewrite app_nil_r.
    pose proof (sextets_bound bs) as Hb.
    induction Hb as [|v l Hv _ IH]; [reflexivity|].
    cbn [map filter]. fold (urlChar v).
    destruct (urlChar_spec Hv) as (Hne & _).
    apply N.eqb_neq in Hne. rewrite Hne. cbn [negb]. now rewrite IH.
  - induction (_ mod 3)%nat as [|k IH]; [reflexivity|].
    cbn [repeat map filter]. exact IH.
Qed.

Lemma base64_sextets_padding (s : jsstring) (k : nat) :
  base64_sextets (s ++ repeat 61 k) = base64_sextets s.
Proof.
  induction s as [|c s IH]; cbn [app base64_sextets].
  - destruct k; reflexivity.
  - rewrite IH. reflexivity.
Qed.

Lemma base64_sextets_urlChars (sx : list N) :
  Forall (fun v => v < 64) sx ->
  base64_sextets (map stdChar (map urlChar sx)) = sx.
Proof.
  induction 1 as [|v l Hv _ IH]; [reflexivity|].
  cbn [map base64_sextets].
  destruct (urlChar_spec Hv) as (_ & _ & _ & ->). now rewrite IH.
Qed.

(** Decoding what [toBase64Url] produced gives the bytes back. *)
Lemma fromBase64Url_toBase64Url (data : Buffer) :
  LicenseValidator.fromBase64Url (LicenseGenerator.toBase64Url data) = Return data.
Proof.
  unfold LicenseValidator.fromBase64Url, try_catch, from_base64.
  assert (E : forall s, replaceAll 95 47 (replaceAll 45 43 s) = map stdChar s).
  { intros s. unfold replaceAll. now rewrite map_map. }
  rewrite E, toBase64Url_chars.
  assert (S : forall k, base64_sextets
                          (map stdChar (map urlChar (sextets_of_bytes data)
                                        ++ repeat 61 k))
                        = sextets_of_bytes data).
  { intros k. rewrite map_app.
    replace (map stdChar (repeat 61 k)) with (repeat 61 k).
    - rewrite base64_sextets_padding.
      apply base64_sextets_urlChars, sextets_bound.
    - induction k as [|k IH]; [reflexivity|]. cbn [repeat map]. now rewrite <- IH. }
  destruct (negb _).
  - now rewrite S, sextets_round_trip.
  - rewrite <- (app_nil_r (map urlChar _)). change (@nil N) with (repeat 61 0).
    now rewrite S, sextets_round_trip.
Qed.

(** [Buffer.from(_, 'base64')] never throws, so neither does [fromBase64Url]. *)
Lemma fromBase64Url_total (str : jsstring) :
  exists data, LicenseValidator.fromBase64Url str = Return data.
Proof. unfold LicenseValidator.fromBase64Url, try_catch. eauto. Qed.

End BytesAndBase64.


(* ================================================================== *)
(** * Text: ASCII payloads, decimal numerals, [parseInt] *)

Section Text.
Local Open Scope N_scope.

Lemma utf8_encode_ascii (s : jsstring) :
  ascii_only s -> utf8_encode s = map byte_of_N s.
Proof.
  induction 1 as [|c s Hc _ IH]; [reflexivity|].
  cbn [utf8_encode map].
  assert (H1 : isHighSurrogate c = false).
  { unfold isHighSurrogate. apply andb_false_intro1, N.leb_gt. lia. }
  assert (H2 : isLowSurrogate c = false).
  { unfold isLowSurrogate. apply andb_false_intro1, N.leb_gt. lia. }
  rewrite H1, H2, IH. unfold utf8_bytes.
  apply N.ltb_lt in Hc. now rewrite Hc.
Qed.

Lemma toString_utf8_ascii (s : jsstring) :
  ascii_only s -> toString_utf8 (map byte_of_N s) = s.
Proof.
  unfold toString_utf8.
  induction 1 as [|c s Hc _ IH]; [reflexivity|].
  cbn [map utf8_decode].
  rewrite to_N_byte_of_N by lia.
  unfold utf8_lead. apply N.ltb_lt in Hc. rewrite Hc. cbn [fst snd app].
  now rewrite IH.
Qed.

Lemma ascii_only_app (s t : jsstring) :
  ascii_only s -> ascii_only t -> ascii_only (s ++ t).
Proof. unfold ascii_only. intros. apply Forall_app. auto. Qed.

Lemma buffer_eqb_refl (a : Buffer) : buffer_eqb a a = true.
Proof.
  induction a as [|x a IH]; [reflexivity|].
  cbn [buffer_eqb]. now rewrite (Byte.byte_dec_lb eq_refl), IH.
Qed.

Lemma buffer_eqb_eq (a b : Buffer) : buffer_eqb a b = true -> a = b.
Proof.
  revert b. induction a as [|x a IH]; intros [|y b] H; try discriminate; auto.
  cbn [buffer_eqb] in H. apply andb_prop in H as [H1 H2].
  apply Byte.byte_dec_bl in H1. f_equal; auto.
Qed.

Lemma timingSafeEqual_refl (a : Buffer) : timingSafeEqual a a = Return true.
Proof.
  unfold timingSafeEqual. now rewrite Nat.eqb_refl, buffer_eqb_refl.
Qed.

(** The separator is found right after a payload that holds no dot. *)
Lemma indexOf_separator (payload rest : Buffer) :
  ~ In "."%byte payload ->
  indexOf (payload ++ "."%byte :: rest) ["."%byte] = Z.of_nat (List.length payload).
Proof.
  induction payload as [|b p IH]; intros Hn.
  - reflexivity.
  - cbn [app indexOf isPrefix List.length].
    destruct (Byte.eqb "." b) eqn:E.
    + apply Byte.byte_dec_bl in E. subst b. exfalso. apply Hn. now left.
    + cbn [andb]. rewrite IH by (intros H; apply Hn; now right).
      destruct (Z.eqb_spec (Z.of_nat (List.length p)) (-1)); lia.
Qed.

Lemma split_no_separator (sep : N) (s : jsstring) :
  ~ In sep s -> split sep s = [s].
Proof.
  induction s as [|c s IH]; intros Hn; [reflexivity|].
  cbn [split]. destruct (N.eqb_spec c sep) as [->|_].
  - exfalso. apply Hn. now left.
  - rewrite IH; [reflexivity|]. intros H. apply Hn. now right.
Qed.

Lemma split_two (sep : N) (a b : jsstring) :
  ~ In sep a -> ~ In sep b -> split sep (a ++ sep :: b) = [a; b].
Proof.
  intros Ha Hb. induction a as [|c a IH].
  - cbn [app split]. rewrite N.eqb_refl. now rewrite split_no_separator.
  - cbn [app split]. destruct (N.eqb_spec c sep) as [->|_].
    + exfalso. apply Ha. now left.
    + rewrite IH; [reflexivity|]. intros H. apply Ha. now right.
Qed.

Lemma digits_fuel_numeral (f : nat) (n : N) (acc : jsstring) :
  numeral acc -> numeral (digits_fuel f n acc).
Proof.
  revert n acc. induction f as [|f IH]; intros n acc Hacc; [exact Hacc|].
  cbn [digits_fuel].
  assert (numeral ((48 + n mod 10) :: acc)).
  { constructor; [|exact Hacc]. lia_div. }
  destruct (_ =? 0); auto.
Qed.

Lemma digits_numeral (n : N) : numeral (digits n).
Proof. apply digits_fuel_numeral. constructor. Qed.

Lemma digits_fuel_nonempty (f : nat) (n : N) (acc : jsstring) :
  acc <> [] -> digits_fuel f n acc <> [].
Proof.
  revert n acc. induction f as [|f IH]; intros n acc Hacc; [exact Hacc|].
  cbn [digits_fuel]. destruct (_ =? 0); [discriminate|].
  apply IH. discriminate.
Qed.

Lemma digits_nonempty (n : N) : digits n <> [].
Proof.
  unfold digits. cbn [digits_fuel]. destruct (_ =? 0); [discriminate|].
  apply digits_fuel_nonempty. discriminate.
Qed.

Lemma numeral_ascii (s : jsstring) : numeral s -> ascii_only s.
Proof. apply Forall_impl. intros c Hc. cbv beta in Hc. lia. Qed.

Lemma numeral_not_in (s : jsstring) (c : N) :
  numeral s -> c < 48 \/ 57 < c -> ~ In c s.
Proof.
  intros Hs Hc Hin. unfold numeral in Hs. rewrite Forall_forall in Hs.
  specialize (Hs c Hin). lia.
Qed.

Lemma takeDigits_numeral (s : jsstring) :
  numeral s -> takeDigits s = map (fun c => c - 48) s.
Proof.
  induction 1 as [|c s Hc _ IH]; [reflexivity|].
  cbn [takeDigits map]. unfold isDigit.
  destruct (N.leb_spec 48 c); [|lia]. destruct (N.leb_spec c 57); [|lia].
  cbn [andb]. now rewrite IH.
Qed.

Lemma digitsValue_fuel (f : nat) (n : N) (acc : jsstring) :
  n < 2 ^ N.of_nat f ->
  fold_left (fun a d => (a * 10 + Z.of_N d)%Z)
            (map (fun c => c - 48) (digits_fuel f n acc)) 0%Z
  = fold_left (fun a d => (a * 10 + Z.of_N d)%Z)
              (map (fun c => c - 48) acc) (Z.of_N n).
Proof.
  revert n acc. induction f as [|f IH]; intros n acc Hn.
  - cbn [digits_fuel]. change (2 ^ N.of_nat 0) with 1 in Hn.
    replace n with 0 by lia. reflexivity.
  - cbn [digits_fuel].
    rewrite Nat2N.inj_succ, N.pow_succ_r' in Hn.
    destruct (N.eqb_spec (n / 10) 0) as [E|E].
    + cbn [map fold_left]. f_equal. lia_div.
    + rewrite IH by lia_div. cbn [map fold_left]. f_equal. lia_div.
Qed.

Lemma digitsValue_digits (n : N) :
  digitsValue (map (fun c => c - 48) (digits n)) = Z.of_N n.
Proof.
  unfold digitsValue, digits. rewrite digitsValue_fuel; [reflexivity|].
  destruct (N.eq_dec n 0) as [->|Hn]; [reflexivity|].
  rewrite Nat2N.inj_succ, N2Nat.id.
  apply N.log2_spec. lia.
Qed.

Lemma digit_not_space (c : N) : 48 <= c <= 57 -> isWhiteSpace c = false.
Proof.
  intros Hc. unfold isWhiteSpace.
  repeat match goal with
         | |- context [?a <=? ?b] => destruct (N.leb_spec a b); try lia
         | |- context [?a =? ?b] => destruct (N.eqb_spec a b); try lia
         end; reflexivity.
Qed.

End Text.

(* ================================================================== *)
(** * The validator, stage by stage *)

Section Stages.
Variable hmac : Buffer -> Buffer -> Buffer.

Import LicenseValidator.

Lemma validateKeyAtTime_stages this licenseKey currentTime :
  validateKeyAtTime hmac this licenseKey currentTime
  = (payload <- verifySignature hmac this licenseKey ;;
     dates <- parsePayload payload ;;
     checkExpiry dates currentTime).
Proof.
  unfold validateKeyAtTime, verifySignature, parsePayload, checkExpiry.
  destruct (isEmpty licenseKey); [reflexivity|].
  destruct (negb (startsWith _ _)); [reflexivity|].
  cbv zeta.
  destruct (try_catch (fromBase64Url _) _) as [data|e]; [|reflexivity].
  cbn [bind].
  destruct (_ =? -1)%Z; [reflexivity|].
  destruct (timingSafeEqual _ _) as [same|e]; [|reflexivity].
  cbn [bind].
  destruct (negb same); [reflexivity|].
  cbn [bind].
  destruct (negb (Nat.eqb _ 2)); [reflexivity|].
  destruct (parseTimestamps _) as [[i e]|e]; [|reflexivity].
  cbn [bind].
  destruct (_ || _); [reflexivity|].
  destruct (Number.leb e i); [reflexivity|].
  destruct (_ || _); reflexivity.
Qed.

(** What the signature stage can throw. *)
Lemma verifySignature_throws this licenseKey e :
  verifySignature hmac this licenseKey = Throw e ->
  (exists msg, e = ALicenseError (mkLicenseError msg INVALID_FORMAT))
  \/ e = ALicenseError (invalidSignature "License signature verification failed")
  \/ e = ARangeError "ERR_CRYPTO_TIMING_SAFE_EQUAL_LENGTH".
Proof.
  unfold verifySignature.
  destruct (isEmpty licenseKey); [intros [= <-]; left; eexists; reflexivity|].
  destruct (negb (startsWith _ _)); [intros [= <-]; left; eexists; reflexivity|].
  cbv zeta.
  destruct (fromBase64Url_total
              (slice_from licenseKey (List.length (js LICENSE_PREFIX)))) as [data ->].
  cbn [try_catch bind].
  destruct (_ =? -1)%Z; [intros [= <-]; left; eexists; reflexivity|].
  unfold timingSafeEqual.
  destruct (Nat.eqb _ _); cbn [bind]; [|intros [= <-]; auto].
  destruct (negb _); [intros [= <-]; auto|discriminate].
Qed.

(** What the signature stage guarantees when it lets a payload through:
    the decoded bytes hold a separator, and the bytes after the first one
    are the HMAC of the bytes before it. *)
Lemma verifySignature_returns this licenseKey payload :
  verifySignature hmac this licenseKey = Return payload ->
  exists data separatorIndex,
    fromBase64Url (slice_from licenseKey (List.length (js LICENSE_PREFIX)))
    = Return data /\
    indexOf data (utf8_encode (js ".")) = separatorIndex /\
    separatorIndex <> (-1)%Z /\
    payload = slice data 0 separatorIndex /\
    sliceFrom data (separatorIndex + 1)
    = hmac (utf8_encode (secretKey this)) payload.
Proof.
  unfold verifySignature.
  destruct (isEmpty licenseKey); [discriminate|].
  destruct (negb (startsWith _ _)); [discriminate|].
  cbv zeta.
  destruct (fromBase64Url_total
              (slice_from licenseKey (List.length (js LICENSE_PREFIX)))) as [data ->].
  cbn [try_catch bind].
  destruct (Z.eqb_spec (indexOf data (utf8_encode (js "."))) (-1)) as [|Hsep];
    [discriminate|].
  unfold timingSafeEqual.
  destruct (Nat.eqb _ _); cbn [bind]; [|discriminate].
  destruct (buffer_eqb _ _) eqn:Heq; cbn [negb]; [|discriminate].
  intros [= <-]. exists data, (indexOf data (utf8_encode (js "."))).
  repeat split; auto. now apply buffer_eqb_eq.
Qed.

(** What the parse stage can throw. *)
Lemma parsePayload_throws payload e :
  parsePayload payload = Throw e ->
  exists msg ty, e = ALicenseError (mkLicenseError msg ty) /\
                 (ty = INVALID_FORMAT \/ ty = TIME_ERROR \/ ty = INVALID_DATA).
Proof.
  unfold parsePayload.
  destruct (negb _); [intros [= <-]; do 2 eexists; split; [reflexivity|auto]|].
  unfold parseTimestamps.
  destruct (isEmpty _ || isEmpty _); cbn [try_catch bind];
    [intros [= <-]; do 2 eexists; split; [reflexivity|auto]|].
  destruct (isNaN _ || isNaN _); cbn [try_catch bind];
    [intros [= <-]; do 2 eexists; split; [reflexivity|auto]|].
  destruct (_ || _); [intros [= <-]; do 2 eexists; split; [reflexivity|auto]|].
  destruct (Number.leb _ _); [intros [= <-]; do 2 eexists; split; [reflexivity|auto]|].
  destruct (_ || _); [intros [= <-]; do 2 eexists; split; [reflexivity|auto]|].
  discriminate.
Qed.

(** What the temporal gate can throw. *)
Lemma checkExpiry_throws dates currentTime e :
  checkExpiry dates currentTime = Throw e ->
  e = ALicenseError (expired "License has expired").
Proof.
  unfold checkExpiry. destruct dates as [i x].
  destruct (negb _); [now intros [= <-]|discriminate].
Qed.

(** Every outcome of [validateKeyAtTime], by the stage that produced it. *)
Lemma validateKeyAtTime_cases this licenseKey currentTime :
  (exists e, verifySignature hmac this licenseKey = Throw e /\
             validateKeyAtTime hmac this licenseKey currentTime = Throw e)
  \/ (exists payload e,
         verifySignature hmac this licenseKey = Return payload /\
         parsePayload payload = Throw e /\
         validateKeyAtTime hmac this licenseKey currentTime = Throw e)
  \/ (exists payload dates,
         verifySignature hmac this licenseKey = Return payload /\
         parsePayload payload = Return dates /\
         validateKeyAtTime hmac this licenseKey currentTime
         = checkExpiry dates currentTime).
Proof.
  rewrite validateKeyAtTime_stages.
  destruct (verifySignature hmac this licenseKey) as [payload|e]; cbn [bind].
  - right. destruct (parsePayload payload) as [dates|e] eqn:E; cbn [bind].
    + right. eauto.
    + left. eauto.
  - left. eauto.
Qed.

End Stages.

Section Numbers.
Local Open Scope Z_scope.

Lemma toDouble_exact (z : Z) : Z.abs z < 2 ^ 53 -> toDouble z = Int z.
Proof.
  intros Hz. unfold toDouble. apply Z.ltb_lt in Hz. now rewrite Hz.
Qed.

Lemma maxTime_exact (z : Z) : Z.abs z <= maxTime -> toDouble z = Int z.
Proof.
  intros Hz. apply toDouble_exact. unfold maxTime in Hz.
  change (2 ^ 53) with 9007199254740992. lia.
Qed.

(** Beyond 53 bits the rounded value keeps the sign, stays at or above
    2^53 in magnitude and at most doubles; it overflows to an infinity only
    from 2^1023 on. *)
Lemma toDouble_large (z : Z) :
  2 ^ 53 <= Z.abs z ->
  (toDouble z = Infinity (z <? 0) /\ 2 ^ 1023 <= Z.abs z)
  \/ (exists v, toDouble z = Int (Z.sgn z * v) /\ 2 ^ 53 <= v <= 2 * Z.abs z).
Proof.
  intros Hz. unfold toDouble.
  destruct (Z.ltb_spec (Z.abs z) (2 ^ 53)) as [Hlt|_]; [lia|].
  set (a := Z.abs z) in *.
  assert (Ha : 0 < a) by (assert (0 < 2 ^ 53) by (apply Z.pow_pos_nonneg; lia); lia).
  assert (Hl : 53 <= Z.log2 a) by (apply Z.log2_le_pow2; lia).
  destruct (Z.log2_spec a Ha) as [Hlo Hhi].
  set (e := Z.log2 a - 52) in *.
  assert (He : 1 <= e) by lia.
  assert (E2 : 2 ^ Z.log2 a = 2 ^ 52 * 2 ^ e).
  { replace (Z.log2 a) with (52 + e) by lia. apply Z.pow_add_r; lia. }
  assert (Hpe : 2 <= 2 ^ e).
  { change 2 with (2 ^ 1) at 1. apply Z.pow_le_mono_r; lia. }
  assert (H52 : 0 < 2 ^ 52) by (apply Z.pow_pos_nonneg; lia).
  assert (Hq : 2 ^ 52 <= a / 2 ^ e).
  { apply Z.div_le_lower_bound; [lia|]. rewrite Z.mul_comm. lia. }
  assert (Hdm := Z.div_mod a (2 ^ e) ltac:(lia)).
  assert (Hmod := Z.mod_pos_bound a (2 ^ e) ltac:(lia)).
  cbv zeta.
  set (q' := if a mod 2 ^ e <? 2 ^ (e - 1) then a / 2 ^ e
             else if 2 ^ (e - 1) <? a mod 2 ^ e then a / 2 ^ e + 1
             else if Z.even (a / 2 ^ e) then a / 2 ^ e else a / 2 ^ e + 1).
  assert (Hq' : a / 2 ^ e <= q' <= a / 2 ^ e + 1).
  { subst q'. repeat destruct (_ <? _); try destruct (Z.even _); lia. }
  assert (Hv : 2 ^ 53 <= q' * 2 ^ e <= 2 * a).
  { replace (2 ^ 53) with (2 ^ 52 * 2) by reflexivity.
    assert (2 ^ e <= a) by nia.
    split; nia. }
  destruct (Z.leb_spec (2 ^ 1024) (q' * 2 ^ e)) as [Hinf|Hfin].
  - left. split; [reflexivity|].
    replace (2 ^ 1024) with (2 * 2 ^ 1023) in Hinf by reflexivity. lia.
  - right. exists (q' * 2 ^ e). split; [reflexivity|exact Hv].
Qed.

(** A result below 2^53 in magnitude was not rounded. *)
Lemma toDouble_small_result (z d : Z) :
  toDouble z = Int d -> Z.abs d < 2 ^ 53 -> d = z.
Proof.
  intros E Hd. destruct (Z.lt_ge_cases (Z.abs z) (2 ^ 53)) as [Hs|Hb].
  - rewrite toDouble_exact in E by exact Hs. now injection E.
  - destruct (toDouble_large z Hb) as [[E' _]|(v & E' & Hv)];
      rewrite E' in E; [discriminate|].
    injection E as <-.
    assert (0 < 2 ^ 53) by (apply Z.pow_pos_nonneg; lia).
    destruct (Z.sgn_spec z) as [[? ->]|[[? ->]|[? ->]]]; lia.
Qed.

(** Rounding keeps a positive number positive. *)
Lemma toDouble_pos (z : Z) :
  0 < z -> toDouble z = Infinity false \/ exists d, toDouble z = Int d /\ 0 < d.
Proof.
  intros Hz. destruct (Z.lt_ge_cases (Z.abs z) (2 ^ 53)) as [Hs|Hb].
  - right. exists z. split; [now apply toDouble_exact|exact Hz].
  - destruct (toDouble_large z Hb) as [[E _]|(v & E & Hv)].
    + left. rewrite E. destruct (Z.ltb_spec z 0); [lia|reflexivity].
    + right. exists v. rewrite E, Z.sgn_pos by exact Hz.
      assert (0 < 2 ^ 53) by (apply Z.pow_pos_nonneg; lia).
      split; [f_equal; lia|lia].
Qed.

(** [parseInt] reads a decimal numeral back. *)
Lemma parseInt_digits (n : N) : parseInt (digits n) = toDouble (Z.of_N n).
Proof.
  unfold parseInt.
  pose proof (digits_numeral n) as Hnum.
  pose proof (@digits_nonempty n) as Hne.
  pose proof (digitsValue_digits n) as Hval.
  destruct (digits n) as [|c s]; [congruence|].
  inversion Hnum as [|? ? Hc Hs]; subst.
  cbn [trimStart]. rewrite (digit_not_space Hc).
  destruct (N.eqb_spec c 45); [lia|]. destruct (N.eqb_spec c 43); [lia|].
  rewrite (takeDigits_numeral Hnum).
  cbn [map] in *. rewrite Hval. f_equal. lia.
Qed.

Lemma ToString_nonneg (z : Z) : 0 <= z -> ToString (Int z) = digits (Z.to_N z).
Proof.
  intros Hz. unfold ToString. destruct (Z.ltb_spec z 0); [lia|reflexivity].
Qed.

End Numbers.

(* ================================================================== *)
(** * Canonical payloads and signed tokens *)

Section Tokens.
Variable hmac : Buffer -> Buffer -> Buffer.
Local Open Scope Z_scope.

Import LicenseValidator.

Lemma payloadText_ascii (i e : Z) : ascii_only (payloadText i e).
Proof.
  unfold payloadText. repeat apply ascii_only_app.
  - apply numeral_ascii, digits_numeral.
  - repeat constructor.
  - apply numeral_ascii, digits_numeral.
Qed.

Lemma payload_has_no_dot (s : jsstring) :
  ascii_only s -> ~ In 46%N s -> ~ In "."%byte (map byte_of_N s).
Proof.
  intros Ha Hn Hin. apply in_map_iff in Hin as (c & Hc & Hin).
  apply Hn. unfold ascii_only in Ha. rewrite Forall_forall in Ha.
  specialize (Ha c Hin). cbv beta in Ha.
  assert (E : Byte.to_N (byte_of_N c) = 46%N) by (rewrite Hc; reflexivity).
  rewrite to_N_byte_of_N in E by lia. now subst.
Qed.

Lemma payloadText_no_dot (i e : Z) : ~ In 46%N (payloadText i e).
Proof.
  unfold payloadText. intros H.
  apply in_app_or in H as [H|H]; [|apply in_app_or in H as [H|H]].
  - revert H. apply numeral_not_in; [apply digits_numeral|lia].
  - cbn in H. destruct H as [H|[]]. discriminate.
  - revert H. apply numeral_not_in; [apply digits_numeral|lia].
Qed.

Lemma startsWith_app (p s : jsstring) : startsWith (p ++ s) p = true.
Proof.
  induction p as [|c p IH]; [now destruct s|].
  cbn [app startsWith]. now rewrite N.eqb_refl, IH.
Qed.

Lemma skipn_separator (l r : Buffer) (x : byte) :
  skipn (S (List.length l)) (l ++ x :: r) = r.
Proof. induction l as [|y l IH]; [reflexivity|apply IH]. Qed.

(** Signature stage on a token signed with the validator's own secret. *)
Lemma verifySignature_signedToken (this : t) (payload : Buffer) :
  ~ In "."%byte payload ->
  verifySignature hmac this (signedToken hmac (secretKey this) payload)
  = Return payload.
Proof.
  intros Hdot. unfold verifySignature, signedToken.
  rewrite startsWith_app. unfold slice_from. rewrite skipn_app, skipn_all, Nat.sub_diag.
  cbn [negb skipn app].
  change (isEmpty (js LICENSE_PREFIX ++ _)) with false. cbv iota.
  rewrite fromBase64Url_toBase64Url. cbn [try_catch bind].
  change (utf8_encode (js ".")) with ["."%byte].
  cbn [app]. rewrite indexOf_separator by exact Hdot.
  destruct (Z.eqb_spec (Z.of_nat (List.length payload)) (-1)); [lia|].
  unfold slice, sliceFrom.
  replace (Z.to_nat (Z.of_nat (List.length payload) + 1))
    with (S (List.length payload)) by lia.
  rewrite Nat2Z.id. change (Z.to_nat 0) with 0%nat.
  rewrite Nat.sub_0_r. change (skipn 0 ?l) with l.
  rewrite firstn_app, firstn_all, Nat.sub_diag. cbn [firstn]. rewrite app_nil_r.
  rewrite skipn_separator, timingSafeEqual_refl. reflexivity.
Qed.

(** Parse stage on a canonical payload. *)
Lemma parsePayload_canonical (i e : Z) :
  0 < i -> i < e -> e * 1000 <= maxTime ->
  parsePayload (utf8_encode (payloadText i e))
  = Return (mkDate (Int (i * 1000)), mkDate (Int (e * 1000))).
Proof.
  intros Hi Hie He. unfold parsePayload.
  rewrite utf8_encode_ascii, toString_utf8_ascii by apply payloadText_ascii.
  unfold payloadText. change (js ":") with [58%N]. cbn [app].
  rewrite split_two
    by (apply numeral_not_in; [apply digits_numeral|lia]).
  cbn [List.length Nat.eqb negb].
  unfold parseTimestamps. cbn [nth].
  destruct (digits (Z.to_N i)) as [|ci si] eqn:Ei;
    [exfalso; now apply (@digits_nonempty (Z.to_N i))|].
  destruct (digits (Z.to_N e)) as [|ce se] eqn:Ee;
    [exfalso; now apply (@digits_nonempty (Z.to_N e))|].
  cbn [isEmpty orb]. rewrite <- Ei, <- Ee, !parseInt_digits, !Z2N.id by lia.
  unfold maxTime in He.
  rewrite !toDouble_exact by (change (2 ^ 53) with 9007199254740992; lia).
  cbn [isNaN orb try_catch bind Number.leb].
  destruct (Z.leb_spec i 0); [lia|]. destruct (Z.leb_spec e 0); [lia|].
  destruct (Z.leb_spec e i); [lia|]. cbn [orb].
  unfold newDate, Number.mul.
  rewrite !toDouble_exact by (change (2 ^ 53) with 9007199254740992; lia).
  unfold TimeClip, maxTime.
  destruct (Z.leb_spec (Z.abs (i * 1000)) 8640000000000000); [|lia].
  destruct (Z.leb_spec (Z.abs (e * 1000)) 8640000000000000); [|lia].
  reflexivity.
Qed.

End Tokens.

(* ================================================================== *)
(** * Issuing and verifying *)

Section RoundTrip.
Variable hmac : Buffer -> Buffer -> Buffer.
Local Open Scope Z_scope.

Lemma generator_secret (secret : jsstring) (g : LicenseGenerator.t) :
  LicenseGenerator.constructor secret = Return g ->
  LicenseGenerator.secretKey g = secret.
Proof.
  unfold LicenseGenerator.constructor. destruct (_ || _); [discriminate|].
  now intros [= <-].
Qed.

Lemma validator_secret (secret : jsstring) (v : LicenseValidator.t) :
  LicenseValidator.constructor secret = Return v ->
  LicenseValidator.secretKey v = secret.
Proof.
  unfold LicenseValidator.constructor. destruct (_ || _); [discriminate|].
  now intros [= <-].
Qed.

Lemma newDate_valid (t : Z) : Z.abs t <= maxTime -> newDate (Int t) = mkDate (Int t).
Proof.
  intros Ht. unfold newDate, TimeClip.
  destruct (Z.leb_spec (Z.abs t) maxTime); [reflexivity|lia].
Qed.

(** A value that fits the significand is not rounded. *)
Lemma round_exact (m e : Z) :
  Z.abs m < 2 ^ 53 -> -1074 <= e <= 0 -> Double.round m e = DFin m e.
Proof.
  intros Hm He. unfold Double.round.
  assert (Hl : Z.log2 (Z.abs m) < 53).
  { destruct (Z.eq_dec (Z.abs m) 0) as [->|Hz]; [reflexivity|].
    apply Z.log2_lt_pow2; lia. }
  destruct (Z.leb_spec (Z.max (Z.log2 (Z.abs m) + e - 52) (-1074)) e); [|lia].
  destruct (Z.leb_spec 1024 (Z.log2 (Z.abs m) + e)); [lia|].
  now rewrite andb_false_r.
Qed.

(** Milliseconds in [h] hours, as the generator computes them. *)
Lemma hours_in_ms (h : Z) :
  0 < h -> h * 3600000 <= maxTime ->
  Double.mul (Double.mul (Double.mul (DFin h 0) (DFin 60 0)) (DFin 60 0))
             (DFin 1000 0)
  = DFin (h * 3600000) 0.
Proof.
  intros Hh Hm. unfold Double.mul, maxTime in *. cbn [Z.add].
  rewrite (@round_exact (h * 60))
    by (change (2 ^ 53) with 9007199254740992; lia).
  rewrite (@round_exact (h * 60 * 60))
    by (change (2 ^ 53) with 9007199254740992; lia).
  rewrite (@round_exact (h * 60 * 60 * 1000))
    by (change (2 ^ 53) with 9007199254740992; lia).
  f_equal. lia.
Qed.

(** The date the generator computes for a whole number of hours. *)
Lemma expiry_whole_hours (h t : Z) :
  0 < h -> 0 <= t -> t + h * 3600000 <= maxTime ->
  Double.TimeClip
    (Double.add (DFin t 0)
       (Double.mul (Double.mul (Double.mul (DFin h 0) (DFin 60 0)) (DFin 60 0))
          (DFin 1000 0)))
  = Int (t + h * 3600000).
Proof.
  intros Hh Ht Hm. rewrite hours_in_ms by lia.
  unfold Double.add. change (Z.min 0 0) with 0. change (0 - 0) with 0.
  change (2 ^ 0) with 1. rewrite !Z.mul_1_r.
  unfold maxTime in *.
  rewrite round_exact by (change (2 ^ 53) with 9007199254740992; lia).
  unfold Double.TimeClip, maxTime. cbn [Z.leb Z.compare].
  change (2 ^ 0) with 1. rewrite !Z.mul_1_r.
  destruct (Z.leb_spec (Z.abs (t + h * 3600000)) 8640000000000000); [reflexivity|lia].
Qed.

(** A clipped time value is a time value. *)
Lemma TimeClip_bound (x : double) (E : Z) :
  Double.TimeClip x = Int E -> Z.abs E <= maxTime.
Proof.
  destruct x as [| |m e]; try discriminate. unfold Double.TimeClip.
  destruct (Z.leb_spec 0 e) as [He|He].
  - destruct (Z.leb_spec (Z.abs m * 2 ^ e) maxTime) as [Hb|]; [|discriminate].
    intros [= <-]. rewrite Z.abs_mul, (Z.abs_eq (2 ^ e)); [exact Hb|].
    apply Z.pow_nonneg. lia.
  - destruct (Z.leb_spec (Z.abs m) (maxTime * 2 ^ (- e))) as [Hb|]; [|discriminate].
    intros [= <-].
    assert (Hp : 0 < 2 ^ (- e)) by (apply Z.pow_pos_nonneg; lia).
    revert Hb Hp. generalize (2 ^ (- e)). intros d Hb Hp.
    rewrite <- Z.quot_abs by lia. rewrite (Z.abs_eq d) by lia.
    rewrite Z.quot_div_nonneg by (try apply Z.abs_nonneg; lia).
    apply Z.div_le_upper_bound; [lia|]. rewrite Z.mul_comm. exact Hb.
Qed.

(** What the generator returns, in terms of the expiry date it computes,
    when the issuance time and that date both lie in 1970 or later. *)
Lemma generateKeyWithTimestamp_canonical (g : LicenseGenerator.t)
    (hours : double) (t E : Z) :
  Double.leb hours (DFin 0 0) = false ->
  0 <= t -> Z.abs t <= maxTime ->
  Double.TimeClip
    (Double.add (DFin t 0)
       (Double.mul (Double.mul (Double.mul hours (DFin 60 0)) (DFin 60 0))
          (DFin 1000 0)))
  = Int E ->
  0 <= E ->
  LicenseGenerator.generateKeyWithTimestamp hmac g hours (newDate (Int t))
  = Return (signedToken hmac (LicenseGenerator.secretKey g)
              (utf8_encode (payloadText (t / 1000) (E / 1000)))).
Proof.
  intros Hh Ht Hm Hexp HE.
  unfold LicenseGenerator.generateKeyWithTimestamp.
  rewrite newDate_valid by lia. rewrite Hh. cbn [getTime isNaN Double.ofNumber].
  unfold Double.newDate. rewrite Hexp. cbn [getTime floorDiv].
  rewrite !ToString_nonneg by (apply Z.div_pos; lia).
  reflexivity.
Qed.

Lemma Qmax_0_pos (n : Z) (d : positive) : 0 < n -> Qmax 0 (n # d) = n # d.
Proof.
  intros Hn. unfold Qmax, GenericMinMax.gmax, Qcompare. cbn [Qnum Qden].
  destruct (Z.compare_spec (0 * Z.pos d) (n * 1)); try lia; reflexivity.
Qed.

(** Temporal gate before the expiry instant. *)
Lemma checkExpiry_before (issued expiry now : Z) :
  now < expiry -> Z.abs (expiry - now) < 2 ^ 53 ->
  LicenseValidator.checkExpiry (mkDate (Int issued), mkDate (Int expiry))
                               (mkDate (Int now))
  = Return (LicenseValidator.mkLicenseInfo true (mkDate (Int issued))
              (mkDate (Int expiry)) (Quot ((expiry - now) # 3600000))).
Proof.
  intros Hlt Hsmall. unfold LicenseValidator.checkExpiry.
  cbn [getTime Number.ltb]. destruct (Z.ltb_spec now expiry); [|lia].
  cbn [negb]. unfold Number.sub, Number.opp, Number.add.
  rewrite toDouble_exact by (replace (expiry + - now) with (expiry - now) by lia; lia).
  cbn [Number.div max0].
  replace (expiry + - now) with (expiry - now) by lia.
  rewrite Qmax_0_pos by lia. reflexivity.
Qed.

(** Temporal gate before the expiry instant, for any pair of instants. *)
Lemma checkExpiry_returns (issued expiry now : Z) :
  now < expiry ->
  LicenseValidator.checkExpiry (mkDate (Int issued), mkDate (Int expiry))
                               (mkDate (Int now))
  = Return (LicenseValidator.mkLicenseInfo true (mkDate (Int issued))
              (mkDate (Int expiry))
              (max0 (Number.div (Number.sub (Int expiry) (Int now))
                                (1000 * 60 * 60)))).
Proof.
  intros Hlt. unfold LicenseValidator.checkExpiry.
  cbn [getTime Number.ltb]. destruct (Z.ltb_spec now expiry); [|lia].
  reflexivity.
Qed.

(** The time left between two dates, as a double: positive and finite. *)
Lemma remaining_positive (expiry now : Z) (k : positive) :
  now < expiry -> Z.abs expiry <= maxTime -> Z.abs now <= maxTime ->
  exists d, Number.sub (Int expiry) (Int now) = Int d /\ 0 < d /\
            max0 (Number.div (Int d) k) = Quot (d # k).
Proof.
  intros Hlt He Hn. unfold Number.sub, Number.opp, Number.add.
  assert (Hpos : 0 < expiry + - now) by lia.
  destruct (toDouble_pos Hpos) as [E|(d & E & Hd)].
  - exfalso.
    destruct (Z.lt_ge_cases (Z.abs (expiry + - now)) (2 ^ 53)) as [Hs|Hb].
    + rewrite toDouble_exact in E by exact Hs. discriminate.
    + destruct (toDouble_large _ Hb) as [[_ Hbig]|(v & E' & _)].
      * unfold maxTime in *.
        assert (2 ^ 55 <= 2 ^ 1023) by (apply Z.pow_le_mono_r; lia).
        change (2 ^ 55) with 36028797018963968 in *. lia.
      * rewrite E' in E. discriminate.
  - exists d. repeat split; auto. cbn [Number.div max0].
    now rewrite Qmax_0_pos.
Qed.

(** Temporal gate from the expiry instant on. *)
Lemma checkExpiry_after (dates : Date * Date) (expiry now : Z) :
  getTime (snd dates) = Int expiry -> expiry <= now ->
  LicenseValidator.checkExpiry dates (mkDate (Int now))
  = Throw (ALicenseError (expired "License has expired")).
Proof.
  intros He Hle. unfold LicenseValidator.checkExpiry. destruct dates as [i e].
  cbn [snd] in He. rewrite He. cbn [getTime Number.ltb].
  destruct (Z.ltb_spec now expiry); [lia|]. reflexivity.
Qed.

End RoundTrip.

(* ================================================================== *)
(** * The properties stated by the specification *)

Section Specification.
Local Open Scope Z_scope.

Import LicenseValidator.

(** C1, as stated, fails on two designed guards of the validator.  A key
    issued for one hour at the epoch itself (a valid [Date]) carries the
    issued-at second 0 and is rejected at that same instant: timestamps
    must be positive.  A key issued on 2024-01-01T12:00:00Z for 2^-13 hours
    (0.44 s) expires within the second it was issued in, both floored
    timestamps are equal, and it is rejected at that same instant:
    expiration must be after issuance. *)
Lemma C1_round_trip_fails :
  (LicenseGenerator.constructor (js "k") = Return (LicenseGenerator.mk (js "k")) /\
   LicenseValidator.constructor (js "k") = Return (LicenseValidator.mk (js "k")))
  /\
  (LicenseGenerator.generateKeyWithTimestamp hmacSha256
     (LicenseGenerator.mk (js "k")) (DFin 1 0) (newDate (Int 0))
   = Return (js "alvan-MDozNjAwLkNQrAMNXv11-7uLut1nBcVaEAo4U227k6VYAxW0xWgm") /\
   validateKeyAtTime hmacSha256 (LicenseValidator.mk (js "k"))
     (js "alvan-MDozNjAwLkNQrAMNXv11-7uLut1nBcVaEAo4U227k6VYAxW0xWgm")
     (newDate (Int 0))
   = Throw (ALicenseError (invalidData "Timestamps must be positive")))
  /\
  (Double.leb (DFin 1 (-13)) (DFin 0 0) = false /\
   LicenseGenerator.generateKeyWithTimestamp hmacSha256
     (LicenseGenerator.mk (js "k")) (DFin 1 (-13)) (newDate (Int 1704110400000))
   = Return (signedToken hmacSha256 (js "k")
               (Crypto.ascii_bytes "1704110400:1704110400")) /\
   validateKeyAtTime hmacSha256 (LicenseValidator.mk (js "k"))
     (signedToken hmacSha256 (js "k") (Crypto.ascii_bytes "1704110400:1704110400"))
     (newDate (Int 1704110400000))
   = Throw (ALicenseError
              (invalidData "Expiration time must be after issued time"))).
Proof. splits; vm_compute; reflexivity. Qed.

(** C1, amended: for every secret both constructors accept, every duration
    [hours > 0] and every issuance time [t] (milliseconds) from the first
    second of 1970 on, if the expiry date [E] the generator computes is a
    representable date that falls in a later second than [t], then the key
    generated at [t] validates at [t] under the same secret; the result has
    [isValid = true], carries both instants floored to whole seconds, and
    its [hoursRemaining] is the time from [t] to the floored expiry.  For a
    whole number [h] of hours whose expiry is representable, [E] is [t]
    plus [h] hours, and [hoursRemaining] is at most [h] and misses it by
    less than one second. *)
Theorem C1_round_trip (hmac : Buffer -> Buffer -> Buffer) (secret : jsstring)
    (g : LicenseGenerator.t) (v : LicenseValidator.t) :
  LicenseGenerator.constructor secret = Return g ->
  LicenseValidator.constructor secret = Return v ->
  (forall (hours : double) (t E : Z),
      Double.leb hours (DFin 0 0) = false ->
      1000 <= t -> t <= maxTime ->
      Double.TimeClip
        (Double.add (DFin t 0)
           (Double.mul (Double.mul (Double.mul hours (DFin 60 0)) (DFin 60 0))
              (DFin 1000 0)))
      = Int E ->
      t / 1000 < E / 1000 ->
      exists key,
        LicenseGenerator.generateKeyWithTimestamp hmac g hours (newDate (Int t))
        = Return key /\
        validateKeyAtTime hmac v key (newDate (Int t))
        = Return (mkLicenseInfo true (newDate (Int (t / 1000 * 1000)))
                    (newDate (Int (E / 1000 * 1000)))
                    (Quot ((E / 1000 * 1000 - t) # 3600000))))
  /\
  (forall h t : Z,
      0 < h -> 1000 <= t -> t + h * 3600000 <= maxTime ->
      exists key,
        LicenseGenerator.generateKeyWithTimestamp hmac g (DFin h 0) (newDate (Int t))
        = Return key /\
        let expiry := (t + h * 3600000) / 1000 * 1000 in
        validateKeyAtTime hmac v key (newDate (Int t))
        = Return (mkLicenseInfo true (newDate (Int (t / 1000 * 1000)))
                    (newDate (Int expiry)) (Quot ((expiry - t) # 3600000))) /\
        (inject_Z h - (1 # 3600) < (expiry - t) # 3600000 <= inject_Z h)%Q).
Proof.
  intros Hg Hv.
  apply generator_secret in Hg. apply validator_secret in Hv.
  assert (General :
    forall (hours : double) (t E : Z),
      Double.leb hours (DFin 0 0) = false ->
      1000 <= t -> t <= maxTime ->
      Double.TimeClip
        (Double.add (DFin t 0)
           (Double.mul (Double.mul (Double.mul hours (DFin 60 0)) (DFin 60 0))
              (DFin 1000 0)))
      = Int E ->
      t / 1000 < E / 1000 ->
      exists key,
        LicenseGenerator.generateKeyWithTimestamp hmac g hours (newDate (Int t))
        = Return key /\
        validateKeyAtTime hmac v key (newDate (Int t))
        = Return (mkLicenseInfo true (newDate (Int (t / 1000 * 1000)))
                    (newDate (Int (E / 1000 * 1000)))
                    (Quot ((E / 1000 * 1000 - t) # 3600000)))).
  { intros hours t E Hh Ht Hm Hexp Hlater.
    pose proof (TimeClip_bound _ Hexp) as HE. unfold maxTime in *.
    assert (Hi : 0 < t / 1000) by (apply Z.div_str_pos; lia).
    assert (HE0 : 0 <= E) by lia_div.
    eexists. split;
      [apply (@generateKeyWithTimestamp_canonical hmac g hours t E);
       auto; unfold maxTime; lia|].
    rewrite validateKeyAtTime_stages, Hg, <- Hv.
    rewrite verifySignature_signedToken.
    - cbn [bind]. rewrite parsePayload_canonical by (unfold maxTime; lia_div).
      cbn [bind]. rewrite !newDate_valid by (unfold maxTime; lia_div).
      apply checkExpiry_before; [lia_div|].
      change (2 ^ 53) with 9007199254740992. lia_div.
    - rewrite utf8_encode_ascii by apply payloadText_ascii.
      apply payload_has_no_dot;
        [apply payloadText_ascii|apply payloadText_no_dot]. }
  split; [exact General|].
  intros h t Hh Ht Hm. cbv zeta.
  destruct (General (DFin h 0) t (t + h * 3600000)) as (key & Hgen & Hval).
  - unfold Double.leb. change (Z.min 0 0) with 0. change (0 - 0) with 0.
    change (2 ^ 0) with 1. apply Z.leb_gt. lia.
  - exact Ht.
  - unfold maxTime in *. lia.
  - apply expiry_whole_hours; lia.
  - lia_div.
  - exists key. split; [exact Hgen|]. split; [exact Hval|].
    unfold maxTime in Hm.
    unfold Qlt, Qle, Qminus, Qplus, Qopp, inject_Z. cbn [Qnum Qden].
    split; lia_div.
Qed.

Lemma C1_round_trip_witness :
  (exists key,
      LicenseGenerator.generateKeyWithTimestamp hmacSha256
        (LicenseGenerator.mk (js "integration-test-secret")) (DFin 3 (-1))
        (newDate (Int 1704110400500))
      = Return key /\
      validateKeyAtTime hmacSha256
        (LicenseValidator.mk (js "integration-test-secret")) key
        (newDate (Int 1704110400500))
      = Return (mkLicenseInfo true (newDate (Int (1704110400500 / 1000 * 1000)))
                  (newDate (Int (1704115800500 / 1000 * 1000)))
                  (Quot ((1704115800500 / 1000 * 1000 - 1704110400500) # 3600000))))
  /\
  (exists key,
      LicenseGenerator.generateKeyWithTimestamp hmacSha256
        (LicenseGenerator.mk (js "integration-test-secret")) (DFin 24 0)
        (newDate (Int 1704110400000))
      = Return key /\
      validateKeyAtTime hmacSha256
        (LicenseValidator.mk (js "integration-test-secret")) key
        (newDate (Int 1704110400000))
      = Return (mkLicenseInfo true (newDate (Int 1704110400000))
                  (newDate (Int 1704196800000)) (Quot (86400000 # 3600000))) /\
      (inject_Z 24 - (1 # 3600) < 86400000 # 3600000 <= inject_Z 24)%Q).
Proof.
  pose proof (@C1_round_trip hmacSha256 (js "integration-test-secret")
                (LicenseGenerator.mk (js "integration-test-secret"))
                (LicenseValidator.mk (js "integration-test-secret"))
                eq_refl eq_refl) as [General Whole].
  split.
  - apply (General (DFin 3 (-1)) 1704110400500 1704115800500).
    + reflexivity.
    + lia.
    + unfold maxTime. lia.
    + vm_compute. reflexivity.
    + vm_compute. reflexivity.
  - apply (Whole 24 1704110400000).
    + lia.
    + lia.
    + unfold maxTime. lia.
Defined.

(** Dates that leave the parse gate are valid, positive and ordered. *)
Lemma parsePayload_dates (payload : Buffer) (issued expires : Date) :
  parsePayload payload = Return (issued, expires) ->
  exists i e, issued = mkDate (Int i) /\ expires = mkDate (Int e) /\
              0 < i < e /\ e <= maxTime.
Proof.
  unfold parsePayload.
  destruct (negb _); [discriminate|].
  destruct (parseTimestamps _) as [[ti te]|]; [|discriminate].
  cbn [bind].
  destruct (Number.leb ti (Int 0) || Number.leb te (Int 0)) eqn:Hpos; [discriminate|].
  destruct (Number.leb te ti) eqn:Hord; [discriminate|].
  destruct (isNaN _ || isNaN _) eqn:Hnan; [discriminate|].
  intros [= <- <-].
  apply orb_false_elim in Hnan as [Hn1 Hn2].
  apply orb_false_elim in Hpos as [Hp1 Hp2].
  unfold newDate, TimeClip in *. cbn [getTime] in *.
  destruct ti as [| |a]; try discriminate.
  destruct te as [| |b]; try discriminate.
  cbn [Number.mul Number.leb] in *.
  apply Z.leb_gt in Hp1, Hp2, Hord.
  destruct (toDouble (a * 1000)) as [| |i] eqn:Ei; try discriminate.
  destruct (toDouble (b * 1000)) as [| |e] eqn:Ee; try discriminate.
  destruct (Z.leb_spec (Z.abs i) maxTime); [|discriminate].
  destruct (Z.leb_spec (Z.abs e) maxTime); [|discriminate].
  unfold maxTime in *.
  apply toDouble_small_result in Ei;
    [|change (2 ^ 53) with 9007199254740992; lia].
  apply toDouble_small_result in Ee;
    [|change (2 ^ 53) with 9007199254740992; lia].
  exists i, e. repeat split; auto; lia.
Qed.

(** C2: a token that passes the signature stage (correctly signed) and the
    payload stage (structurally valid) has an expiry instant, and at any
    current time validation throws [EXPIRED] exactly when the current time
    has reached that instant; before it validation returns a result with
    [isValid = true], so no returned result ever has [isValid = false].
    In particular a key issued at [T] for one hour (with [T] from the first
    second of 1970 on) validates at [T] + 3599 s and is [EXPIRED] at
    [T] + 3600 s. *)
Theorem C2_expiry_boundary (hmac : Buffer -> Buffer -> Buffer) :
  (forall (v : LicenseValidator.t) (key : jsstring) (payload : Buffer)
          (issued expires : Date) (now : Z),
      verifySignature hmac v key = Return payload ->
      parsePayload payload = Return (issued, expires) ->
      Z.abs now <= maxTime ->
      exists expiry,
        getTime expires = Int expiry /\
        (thrownType (validateKeyAtTime hmac v key (newDate (Int now))) = Some EXPIRED
         <-> expiry <= now) /\
        (now < expiry ->
         exists info,
           validateKeyAtTime hmac v key (newDate (Int now)) = Return info /\
           isValid info = true /\ expiresAt info = expires) /\
        (forall info,
           validateKeyAtTime hmac v key (newDate (Int now)) = Return info ->
           isValid info = true))
  /\
  (forall (secret : jsstring) (g : LicenseGenerator.t) (v : LicenseValidator.t)
          (T : Z) (key : jsstring),
      LicenseGenerator.constructor secret = Return g ->
      LicenseValidator.constructor secret = Return v ->
      1000 <= T -> T + 3600000 <= maxTime ->
      LicenseGenerator.generateKeyWithTimestamp hmac g (DFin 1 0) (newDate (Int T))
      = Return key ->
      (exists info,
         validateKeyAtTime hmac v key (newDate (Int (T + 3599000))) = Return info /\
         isValid info = true)
      /\ thrownType (validateKeyAtTime hmac v key (newDate (Int (T + 3600000))))
         = Some EXPIRED).
Proof.
  assert (General :
    forall v key payload issued expires now,
      verifySignature hmac v key = Return payload ->
      parsePayload payload = Return (issued, expires) ->
      Z.abs now <= maxTime ->
      exists expiry,
        getTime expires = Int expiry /\
        (thrownType (validateKeyAtTime hmac v key (newDate (Int now))) = Some EXPIRED
         <-> expiry <= now) /\
        (now < expiry ->
         exists info,
           validateKeyAtTime hmac v key (newDate (Int now)) = Return info /\
           isValid info = true /\ expiresAt info = expires) /\
        (forall info,
           validateKeyAtTime hmac v key (newDate (Int now)) = Return info ->
           isValid info = true)).
  { intros v key payload issued expires now Hsig Hparse Hnow.
    destruct (parsePayload_dates _ Hparse) as (i & e & -> & -> & Hie & He).
    exists e. split; [reflexivity|].
    rewrite validateKeyAtTime_stages, Hsig. cbn [bind]. rewrite Hparse. cbn [bind].
    rewrite newDate_valid by exact Hnow.
    destruct (Z.lt_ge_cases now e) as [Hlt|Hge].
    - rewrite (checkExpiry_returns i Hlt). cbn [thrownType].
      repeat split.
      + discriminate.
      + lia.
      + intros _. eexists. repeat split.
      + now intros info [= <-].
    - rewrite (@checkExpiry_after (mkDate (Int i), mkDate (Int e)) e now eq_refl Hge).
      cbn [thrownType expired type]. repeat split; auto.
      + lia.
      + discriminate. }
  split; [exact General|].
  intros secret g v T key Hg Hv HT Hm Hgen.
  apply generator_secret in Hg. apply validator_secret in Hv.
  rewrite (@generateKeyWithTimestamp_canonical hmac g (DFin 1 0) T (T + 1 * 3600000))
    in Hgen by (try apply expiry_whole_hours; try reflexivity; unfold maxTime in *; lia).
  injection Hgen as <-.
  set (payload := utf8_encode (payloadText (T / 1000) ((T + 1 * 3600000) / 1000))).
  assert (Hsig : verifySignature hmac v
                   (signedToken hmac (LicenseGenerator.secretKey g) payload)
                 = Return payload).
  { rewrite Hg, <- Hv. apply verifySignature_signedToken.
    subst payload. rewrite utf8_encode_ascii by apply payloadText_ascii.
    apply payload_has_no_dot; [apply payloadText_ascii|apply payloadText_no_dot]. }
  unfold maxTime in Hm.
  assert (Hparse : parsePayload payload
                   = Return (mkDate (Int (T / 1000 * 1000)),
                             mkDate (Int ((T + 1 * 3600000) / 1000 * 1000)))).
  { subst payload. apply parsePayload_canonical; unfold maxTime; lia_div. }
  split.
  - destruct (General _ _ _ _ _ (T + 3599000) Hsig Hparse
                ltac:(unfold maxTime; lia))
      as (e & He & _ & Hbefore & _).
    cbn [getTime] in He. injection He as <-.
    destruct Hbefore as (info & Hinfo & Hvalid & _); [lia_div|].
    exists info. split; assumption.
  - destruct (General _ _ _ _ _ (T + 3600000) Hsig Hparse
                ltac:(unfold maxTime; lia))
      as (e & He & Hexp & _).
    cbn [getTime] in He. injection He as <-.
    apply Hexp. lia_div.
Qed.

Lemma C2_expiry_boundary_witness :
  (exists info,
     validateKeyAtTime hmacSha256 (LicenseValidator.mk (js "k"))
       (js "alvan-MTcwNDExMDQwMDoxNzA0MTE0MDAwLktKjQqceVq0Dw_2Nuv57X_ycYxHS4-U2O3-A3Quwwis")
       (newDate (Int (1704110400000 + 3599000))) = Return info /\
     isValid info = true)
  /\ thrownType
       (validateKeyAtTime hmacSha256 (LicenseValidator.mk (js "k"))
          (js "alvan-MTcwNDExMDQwMDoxNzA0MTE0MDAwLktKjQqceVq0Dw_2Nuv57X_ycYxHS4-U2O3-A3Quwwis")
          (newDate (Int (1704110400000 + 3600000))))
     = Some EXPIRED.
Proof.
  apply (proj2 (C2_expiry_boundary hmacSha256) (js "k")
           (LicenseGenerator.mk (js "k")) (LicenseValidator.mk (js "k"))
           1704110400000).
  - reflexivity.
  - reflexivity.
  - lia.
  - unfold maxTime. lia.
  - vm_compute. reflexivity.
Defined.

(** The signature gate on a token that reached it: operands of different
    length make [timingSafeEqual] throw its [RangeError], which nothing
    catches; operands of equal length and different content give
    [INVALID_SIGNATURE]. *)
Lemma signature_gate (hmac : Buffer -> Buffer -> Buffer) (v : LicenseValidator.t)
    (key : jsstring) (data : Buffer) (now : Date) :
  isEmpty key = false ->
  startsWith key (js LICENSE_PREFIX) = true ->
  fromBase64Url (slice_from key (List.length (js LICENSE_PREFIX))) = Return data ->
  indexOf data (utf8_encode (js ".")) <> -1 ->
  let separatorIndex := indexOf data (utf8_encode (js ".")) in
  let provided := sliceFrom data (separatorIndex + 1) in
  let expected := hmac (utf8_encode (LicenseValidator.secretKey v))
                       (slice data 0 separatorIndex) in
  (List.length provided <> List.length expected ->
   validateKeyAtTime hmac v key now
   = Throw (ARangeError "ERR_CRYPTO_TIMING_SAFE_EQUAL_LENGTH"))
  /\ (List.length provided = List.length expected -> provided <> expected ->
      validateKeyAtTime hmac v key now
      = Throw (ALicenseError
                 (invalidSignature "License signature verification failed"))).
Proof.
  intros Hne Hpre Hdec Hsep. cbv zeta.
  rewrite validateKeyAtTime_stages. unfold verifySignature.
  rewrite Hne, Hpre, Hdec. cbn [negb try_catch bind].
  destruct (Z.eqb_spec (indexOf data (utf8_encode (js "."))) (-1)); [contradiction|].
  unfold timingSafeEqual. split.
  - intros Hlen. apply Nat.eqb_neq in Hlen. now rewrite Hlen.
  - intros Hlen Hdiff. apply Nat.eqb_eq in Hlen. rewrite Hlen. cbn [bind].
    destruct (buffer_eqb _ _) eqn:E; [|reflexivity].
    apply buffer_eqb_eq in E. contradiction.
Qed.

(** C3 (the code departs from the specification): the key the integration test
    issues, with its last character cut off as in the test's "Truncate one
    character" case, decodes to a 31-byte signature; [timingSafeEqual]
    throws a [RangeError] on the length mismatch, so the failure is not an
    [INVALID_SIGNATURE] license error. *)
Theorem C3_truncated_key_throws_RangeError :
  LicenseGenerator.generateKeyWithTimestamp hmacSha256
    (LicenseGenerator.mk (js "integration-test-secret")) (DFin 24 0)
    (newDate (Int 1704110400000))
  = Return (js "alvan-MTcwNDExMDQwMDoxNzA0MTk2ODAwLlx6YktJcOPN8RkamhDIOMGqs3mYDP0_a5XWMhNEEV8N")
  /\ validateKeyAtTime hmacSha256
       (LicenseValidator.mk (js "integration-test-secret"))
       (js "alvan-MTcwNDExMDQwMDoxNzA0MTk2ODAwLlx6YktJcOPN8RkamhDIOMGqs3mYDP0_a5XWMhNEEV8")
       (newDate (Int 1704110400000))
     = Throw (ARangeError "ERR_CRYPTO_TIMING_SAFE_EQUAL_LENGTH").
Proof. splits; vm_compute; reflexivity. Qed.

(** [validateKeyAtTime] never throws a [BASE64_ERROR]: the decoder it
    relies on accepts every string. *)
Lemma no_base64_error (hmac : Buffer -> Buffer -> Buffer) (v : LicenseValidator.t)
    (key : jsstring) (now : Date) :
  thrownType (validateKeyAtTime hmac v key now) <> Some BASE64_ERROR.
Proof.
  destruct (validateKeyAtTime_cases hmac v key now)
    as [(e & H & ->)|[(payload & e & _ & H & ->)|(payload & dates & _ & _ & ->)]].
  - apply verifySignature_throws in H as [[msg ->]|[->| ->]]; discriminate.
  - apply parsePayload_throws in H as (msg & ty & -> & [->|[->| ->]]); discriminate.
  - destruct (checkExpiry dates now) as [info|e] eqn:E; [discriminate|].
    apply checkExpiry_throws in E as ->. discriminate.
Qed.

(** C4 (the code departs from the specification): a prefixed key whose remainder is
    no base64url text at all is decoded to the empty buffer and rejected
    for its missing separator, with [INVALID_FORMAT]; so is a remainder of
    invalid length. *)
Theorem C4_malformed_base64_is_a_format_error :
  validateKeyAtTime hmacSha256 (LicenseValidator.mk (js "k"))
    (js "alvan-!!!!") (newDate (Int 1704110400000))
  = Throw (ALicenseError (invalidFormat "Missing separator in license data"))
  /\ validateKeyAtTime hmacSha256 (LicenseValidator.mk (js "k"))
       (js "alvan-A") (newDate (Int 1704110400000))
     = Throw (ALicenseError (invalidFormat "Missing separator in license data")).
Proof. splits; vm_compute; reflexivity. Qed.

(** C5 (the code departs from the specification), first on the key of the
    integration test with its last character replaced by [!]: the decoder
    skips the character, the signature comes out one byte short and the
    failure is the [RangeError] of [timingSafeEqual]; then on a key issued
    ten seconds after the epoch, whose last character carries four unused
    bits: replacing [w] by [x] changes the string and not the decoded
    bytes, and the modified key validates. *)
Theorem C5_single_character_changes :
  validateKeyAtTime hmacSha256
    (LicenseValidator.mk (js "integration-test-secret"))
    (js "alvan-MTcwNDExMDQwMDoxNzA0MTk2ODAwLlx6YktJcOPN8RkamhDIOMGqs3mYDP0_a5XWMhNEEV8!")
    (newDate (Int 1704110400000))
  = Throw (ARangeError "ERR_CRYPTO_TIMING_SAFE_EQUAL_LENGTH")
  /\ LicenseGenerator.generateKeyWithTimestamp hmacSha256
       (LicenseGenerator.mk (js "k")) (DFin 1 0) (newDate (Int 10000))
     = Return (js "alvan-MTA6MzYxMC6KEGuT3SV-QoEgjHU39W7dCElrWhsOxTlrIeryCf8gXw")
  /\ validateKeyAtTime hmacSha256 (LicenseValidator.mk (js "k"))
       (js "alvan-MTA6MzYxMC6KEGuT3SV-QoEgjHU39W7dCElrWhsOxTlrIeryCf8gXx")
       (newDate (Int 10000))
     = Return (mkLicenseInfo true (newDate (Int 10000)) (newDate (Int 3610000))
                 (Quot (3600000 # 3600000))).
Proof. splits; vm_compute; reflexivity. Qed.

(** Signature verification comes first: a [TIME_ERROR], [INVALID_DATA] or
    [EXPIRED] failure is only reached by a key whose bytes after the first
    separator are the HMAC of the bytes before it. *)
Lemma signature_checked_first (hmac : Buffer -> Buffer -> Buffer)
    (v : LicenseValidator.t) (key : jsstring) (now : Date) (ty : LicenseErrorType) :
  thrownType (validateKeyAtTime hmac v key now) = Some ty ->
  ty = TIME_ERROR \/ ty = INVALID_DATA \/ ty = EXPIRED ->
  exists data,
    fromBase64Url (slice_from key (List.length (js LICENSE_PREFIX))) = Return data /\
    indexOf data (utf8_encode (js ".")) <> -1 /\
    sliceFrom data (indexOf data (utf8_encode (js ".")) + 1)
    = hmac (utf8_encode (LicenseValidator.secretKey v))
           (slice data 0 (indexOf data (utf8_encode (js ".")))).
Proof.
  intros Hty Hkind.
  assert (Hsig : exists payload, verifySignature hmac v key = Return payload).
  { destruct (validateKeyAtTime_cases hmac v key now)
      as [(e & H & E)|[(payload & e & H & _)|(payload & dates & H & _)]]; eauto.
    rewrite E in Hty.
    apply verifySignature_throws in H as [[msg ->]|[->| ->]];
      cbn in Hty; injection Hty as <- || discriminate Hty;
      destruct Hkind as [?|[?|?]]; discriminate. }
  destruct Hsig as [payload Hsig].
  apply verifySignature_returns in Hsig
    as (data & idx & Hdec & <- & Hsep & -> & Heq).
  exists data. auto.
Qed.

(** C6 (the code departs from the specification): the payload [1:2] followed by a
    separator and an empty signature, under any key, fails with the
    [RangeError] of [timingSafeEqual], which is neither a format, a decode
    nor a signature error. *)
Theorem C6_bad_signature_throws_RangeError :
  from_base64 (js "MToyLg") = Crypto.ascii_bytes "1:2."
  /\ validateKeyAtTime hmacSha256 (LicenseValidator.mk (js "k"))
       (js "alvan-MToyLg") (newDate (Int 1704110400000))
     = Throw (ARangeError "ERR_CRYPTO_TIMING_SAFE_EQUAL_LENGTH").
Proof. splits; vm_compute; reflexivity. Qed.

(** C7 (the code departs from the specification): for 2 400 000 000 hours from
    2024-01-01T12:00:00Z the expiry lies beyond the last representable
    [Date]; [expiresAt] is an Invalid Date and the payload that gets signed
    and encoded is the text [1704110400:NaN], not the two numbers of
    seconds.  No validator accepts the key. *)
Theorem C7_unrepresentable_expiry_prints_NaN :
  LicenseGenerator.generateKeyWithTimestamp hmacSha256
    (LicenseGenerator.mk (js "k")) (DFin 2400000000 0) (newDate (Int 1704110400000))
  = Return (signedToken hmacSha256 (js "k") (Crypto.ascii_bytes "1704110400:NaN"))
  /\ signedToken hmacSha256 (js "k") (Crypto.ascii_bytes "1704110400:NaN")
     = js "alvan-MTcwNDExMDQwMDpOYU4uba9ckmyoRpTGYWbmjcOZ7YuJ5sRHZ_I7sUSOzGStV5w"
  /\ validateKeyAtTime hmacSha256 (LicenseValidator.mk (js "k"))
       (js "alvan-MTcwNDExMDQwMDpOYU4uba9ckmyoRpTGYWbmjcOZ7YuJ5sRHZ_I7sUSOzGStV5w")
       (newDate (Int 1704110400000))
     = Throw (ALicenseError (timeError "Failed to parse timestamps")).
Proof. splits; vm_compute; reflexivity. Qed.

Lemma trimStart_whitespace (s : jsstring) :
  Forall (fun c => isWhiteSpace c = true) s -> trimStart s = [].
Proof.
  induction 1 as [|c s Hc _ IH]; [reflexivity|].
  cbn [trimStart]. now rewrite Hc.
Qed.

Lemma trim_whitespace (s : jsstring) :
  Forall (fun c => isWhiteSpace c = true) s -> trim s = [].
Proof.
  intros H. unfold trim. now rewrite (trimStart_whitespace H).
Qed.

(** C8: both constructors throw on a secret made of white space only (the
    empty secret included); [generateKeyWithTimestamp] throws on every
    [hours <= 0], whatever the secret, the issuance date and the MAC
    function, none of which it consults; [validateKeyAtTime] throws an
    [INVALID_FORMAT] license error on the empty string and on every string
    that does not start with [alvan-]. *)
Theorem C8_guards (hmac : Buffer -> Buffer -> Buffer) :
  (forall secret : jsstring,
      Forall (fun c => isWhiteSpace c = true) secret ->
      LicenseGenerator.constructor secret = Throw (AnError "Secret key cannot be empty")
      /\ LicenseValidator.constructor secret
         = Throw (AnError "Secret key cannot be empty"))
  /\ (forall (g : LicenseGenerator.t) (hours : double) (issued : Date),
         Double.leb hours (DFin 0 0) = true ->
         LicenseGenerator.generateKeyWithTimestamp hmac g hours issued
         = Throw (AnError "Hours must be greater than 0"))
  /\ (forall (v : LicenseValidator.t) (now : Date),
         thrownType (validateKeyAtTime hmac v [] now) = Some INVALID_FORMAT)
  /\ (forall (v : LicenseValidator.t) (key : jsstring) (now : Date),
         startsWith key (js LICENSE_PREFIX) = false ->
         thrownType (validateKeyAtTime hmac v key now) = Some INVALID_FORMAT).
Proof.
  split; [|split; [|split]].
  - intros secret H. split.
    + unfold LicenseGenerator.constructor.
      rewrite (trim_whitespace H). cbn [List.length Nat.eqb].
      now rewrite orb_true_r.
    + unfold LicenseValidator.constructor.
      rewrite (trim_whitespace H). cbn [List.length Nat.eqb].
      now rewrite orb_true_r.
  - intros g hours issued Hh. unfold LicenseGenerator.generateKeyWithTimestamp.
    now rewrite Hh.
  - intros v now. reflexivity.
  - intros v key now Hp. unfold validateKeyAtTime.
    destruct (isEmpty key); [reflexivity|]. now rewrite Hp.
Qed.

Lemma C8_guards_witness :
  (LicenseGenerator.constructor (js "   ") = Throw (AnError "Secret key cannot be empty")
   /\ LicenseValidator.constructor (js "   ")
      = Throw (AnError "Secret key cannot be empty"))
  /\ LicenseGenerator.generateKeyWithTimestamp hmacSha256
       (LicenseGenerator.mk (js "k")) (DFin (-1) 0) (newDate (Int 1704110400000))
     = Throw (AnError "Hours must be greater than 0")
  /\ thrownType (validateKeyAtTime hmacSha256 (LicenseValidator.mk (js "k"))
                   (js "not-alvan-prefixed") (newDate (Int 1704110400000)))
     = Some INVALID_FORMAT.
Proof.
  refine (conj _ (conj _ _)).
  - apply (proj1 (C8_guards hmacSha256) (js "   ")). repeat constructor.
  - apply (proj1 (proj2 (C8_guards hmacSha256))). reflexivity.
  - apply (proj2 (proj2 (proj2 (C8_guards hmacSha256)))). reflexivity.
Defined.

(** C9 (the code departs from the specification): a correctly signed payload whose
    second part is [1704196800abc] splits into exactly two parts, the second
    of which is not a base-10 integer; [parseInt] reads the leading digits
    and ignores the rest, and validation succeeds. *)
Theorem C9_trailing_garbage_is_accepted :
  signedToken hmacSha256 (js "k") (Crypto.ascii_bytes "1704110400:1704196800abc")
  = js "alvan-MTcwNDExMDQwMDoxNzA0MTk2ODAwYWJjLhziL8_9BsviVqyuVxa7bHRY1Ts4ig8skcJfrl6Ms7dY"
  /\ split 58 (toString_utf8 (Crypto.ascii_bytes "1704110400:1704196800abc"))
     = [js "1704110400"; js "1704196800abc"]
  /\ parseInt (js "1704196800abc") = Int 1704196800
  /\ validateKeyAtTime hmacSha256 (LicenseValidator.mk (js "k"))
       (js "alvan-MTcwNDExMDQwMDoxNzA0MTk2ODAwYWJjLhziL8_9BsviVqyuVxa7bHRY1Ts4ig8skcJfrl6Ms7dY")
       (newDate (Int 1704110400000))
     = Return (mkLicenseInfo true (newDate (Int 1704110400000))
                 (newDate (Int 1704196800000)) (Quot (86400000 # 3600000))).
Proof. splits; vm_compute; reflexivity. Qed.

(** C10: whatever [validateKeyAtTime] (hence [validateKey]) returns has
    [isValid = true]; its two dates are valid with
    [0 < issuedAt < expiresAt], the current time is a valid date strictly
    before [expiresAt], and [hoursRemaining] is the double difference
    [expiresAt - currentTime] over 3 600 000, a strictly positive number
    (the difference itself whenever it fits 53 bits).  The current time
    ranges over [newDate x], which is every [Date] there is. *)
Theorem C10_returned_info (hmac : Buffer -> Buffer -> Buffer)
    (v : LicenseValidator.t) (key : jsstring) (x : number) (info : LicenseInfo) :
  validateKeyAtTime hmac v key (newDate x) = Return info
  \/ validateKey hmac v key (newDate x) = Return info ->
  isValid info = true /\
  exists i e c d : Z,
    issuedAt info = mkDate (Int i) /\ expiresAt info = mkDate (Int e) /\
    newDate x = mkDate (Int c) /\
    0 < i /\ i < e /\ c < e /\
    Number.sub (getTime (expiresAt info)) (getTime (newDate x)) = Int d /\
    hoursRemaining info = Number.div (Int d) (1000 * 60 * 60) /\
    hoursRemaining info = Quot (d # 3600000) /\
    0 < d /\ (0 < d # 3600000)%Q /\
    (Z.abs (e - c) < 2 ^ 53 -> d = e - c).
Proof.
  intros H. assert (Hret : validateKeyAtTime hmac v key (newDate x) = Return info)
    by (destruct H as [H|H]; exact H).
  clear H.
  destruct (validateKeyAtTime_cases hmac v key (newDate x))
    as [(e & _ & E)|[(payload & e & _ & _ & E)|(payload & [di de] & _ & Hparse & E)]];
    rewrite E in Hret; try discriminate.
  destruct (parsePayload_dates _ Hparse) as (i & e & -> & -> & Hie & He).
  assert (Hclip : newDate x = mkDate NaN
                  \/ exists c, newDate x = mkDate (Int c) /\ Z.abs c <= maxTime).
  { unfold newDate, TimeClip. destruct x as [| |c]; auto.
    destruct (Z.leb_spec (Z.abs c) maxTime); eauto. }
  destruct Hclip as [Hc|(c & Hc & Hcm)]; rewrite Hc in *.
  - discriminate Hret.
  - destruct (Z.lt_ge_cases c e) as [Hlt|Hge].
    + rewrite (checkExpiry_returns i Hlt) in Hret. injection Hret as <-.
      cbn [isValid issuedAt expiresAt hoursRemaining getTime].
      destruct (@remaining_positive e c (1000 * 60 * 60)%positive Hlt)
        as (d & Hd & Hpos & Hq); [lia|lia|].
      split; [reflexivity|].
      exists i, e, c, d.
      change (1000 * 60 * 60)%positive with 3600000%positive in *.
      pose proof Hd as Hd'. unfold Number.sub, Number.opp, Number.add in Hd'.
      rewrite Hd'. cbn [Number.div max0]. rewrite Qmax_0_pos by exact Hpos.
      repeat match goal with |- _ /\ _ => split end; auto; try lia.
      { unfold Qlt. cbn [Qnum Qden]. lia. }
      intros Hsmall.
      rewrite toDouble_exact in Hd'
        by (replace (e + - c) with (e - c) by lia; exact Hsmall).
      injection Hd' as <-. lia.
    + rewrite (@checkExpiry_after (mkDate (Int i), mkDate (Int e)) e c eq_refl Hge)
        in Hret.
      discriminate.
Qed.

Lemma C10_returned_info_witness :
  isValid (mkLicenseInfo true (mkDate (Int 1704110400000))
             (mkDate (Int 1704196800000)) (Quot (64800000 # 3600000))) = true /\
  exists i e c d : Z,
    mkDate (Int 1704110400000) = mkDate (Int i) /\
    mkDate (Int 1704196800000) = mkDate (Int e) /\
    newDate (Int 1704132000000) = mkDate (Int c) /\
    0 < i /\ i < e /\ c < e /\
    Number.sub (Int 1704196800000) (getTime (newDate (Int 1704132000000))) = Int d /\
    Quot (64800000 # 3600000) = Number.div (Int d) (1000 * 60 * 60) /\
    Quot (64800000 # 3600000) = Quot (d # 3600000) /\
    0 < d /\ (0 < d # 3600000)%Q /\
    (Z.abs (e - c) < 2 ^ 53 -> d = e - c).
Proof.
  apply (@C10_returned_info hmacSha256
           (LicenseValidator.mk (js "integration-test-secret"))
           (js "alvan-MTcwNDExMDQwMDoxNzA0MTk2ODAwLlx6YktJcOPN8RkamhDIOMGqs3mYDP0_a5XWMhNEEV8N")
           (Int 1704132000000)
           (mkLicenseInfo true (mkDate (Int 1704110400000))
              (mkDate (Int 1704196800000)) (Quot (64800000 # 3600000)))).
  left. vm_compute. reflexivity.
Defined.

End Specification.

(* ================================================================== *)
(** * Further properties of the code *)

Section DigestLength.

Lemma round_length (st : list N) (kw : N * N) :
  List.length st = 8%nat -> List.length (Crypto.round st kw) = 8%nat.
Proof.
  destruct st as [|a [|b [|c [|d [|e [|f [|g [|h [|i st]]]]]]]]]; try discriminate.
  reflexivity.
Qed.

Lemma fold_round_length (kws : list (N * N)) (st : list N) :
  List.length st = 8%nat -> List.length (fold_left Crypto.round kws st) = 8%nat.
Proof.
  revert st. induction kws as [|kw kws IH]; intros st H; [exact H|].
  cbn [fold_left]. apply IH, round_length, H.
Qed.

Lemma compress_length (h block : list N) :
  List.length h = 8%nat -> List.length (Crypto.compress h block) = 8%nat.
Proof.
  intros H. unfold Crypto.compress.
  rewrite length_map, length_combine, fold_round_length by exact H.
  rewrite H. reflexivity.
Qed.

Lemma blocks_length (n : nat) (h bs : list N) :
  List.length h = 8%nat -> List.length (Crypto.blocks n h bs) = 8%nat.
Proof.
  revert h bs. induction n as [|n IH]; intros h bs H; [exact H|].
  cbn [Crypto.blocks]. apply IH, compress_length, H.
Qed.

Lemma flat_map_length4 (ws : list N) :
  List.length (flat_map (Crypto.be_bytes 4) ws) = (4 * List.length ws)%nat.
Proof.
  induction ws as [|w ws IH]; [reflexivity|].
  cbn [flat_map]. rewrite length_app, IH.
  unfold Crypto.be_bytes. rewrite length_map. cbn [seq rev app List.length]. lia.
Qed.

(** A SHA-256 digest, hence an HMAC-SHA256 tag, is 32 bytes long. *)
Lemma sha256_length (msg : Buffer) : List.length (Crypto.sha256 msg) = 32%nat.
Proof.
  unfold Crypto.sha256. rewrite length_map, flat_map_length4, blocks_length; reflexivity.
Qed.

Lemma hmacSha256_length (key msg : Buffer) :
  List.length (hmacSha256 key msg) = 32%nat.
Proof. unfold hmacSha256, Crypto.hmacSha256. apply sha256_length. Qed.

End DigestLength.

Section Codec.
Local Open Scope N_scope.

Lemma sextets_length (bs : Buffer) :
  List.length (sextets_of_bytes bs) = ((4 * List.length bs + 2) / 3)%nat.
Proof.
  induction bs as [|a|a b|a b c l IH] using list_ind3;
    cbn [sextets_of_bytes List.length]; try reflexivity.
  rewrite IH.
  replace (4 * S (S (S (List.length l))) + 2)%nat
    with (4 * 3 + (4 * List.length l + 2))%nat by lia.
  rewrite Nat.div_add_l by lia. lia.
Qed.

Lemma urlChar_class (v : N) : v < 64 -> utils.isBase64UrlChar (urlChar v) = true.
Proof.
  intros Hv.
  assert (H : forallb (fun w => utils.isBase64UrlChar (urlChar w))
                      (map N.of_nat (seq 0 64)) = true)
    by (vm_compute; reflexivity).
  rewrite forallb_forall in H. apply H.
  rewrite <- (N2Nat.id v). apply in_map, in_seq. lia.
Qed.

(** X1.  [fromBase64Url] undoes [toBase64Url] on every buffer: the text the
    generator emits for some bytes decodes, in the validator, to those
    bytes. *)
Theorem X1_base64url_round_trip (data : Buffer) :
  LicenseValidator.fromBase64Url (LicenseGenerator.toBase64Url data) = Return data.
Proof. apply fromBase64Url_toBase64Url. Qed.

Lemma toBase64Url_class (data : Buffer) :
  forallb utils.isBase64UrlChar (LicenseGenerator.toBase64Url data) = true.
Proof.
  rewrite toBase64Url_chars.
  pose proof (sextets_bound data) as Hb.
  induction Hb as [|v l Hv _ IH]; [reflexivity|].
  cbn [map forallb]. now rewrite (urlChar_class Hv), IH.
Qed.

Lemma toBase64Url_length (data : Buffer) :
  List.length (LicenseGenerator.toBase64Url data)
  = ((4 * List.length data + 2) / 3)%nat.
Proof. now rewrite toBase64Url_chars, length_map, sextets_length. Qed.

(** X2.  The text [toBase64Url] emits for [n] bytes consists of characters
    of the class [A-Za-z0-9_-] only (no [+], [/] or [=]) and is
    [ceil(4n/3)] characters long. *)
Theorem X2_toBase64Url_alphabet_and_length (data : Buffer) :
  forallb utils.isBase64UrlChar (LicenseGenerator.toBase64Url data) = true
  /\ List.length (LicenseGenerator.toBase64Url data)
     = ((4 * List.length data + 2) / 3)%nat.
Proof. split; [apply toBase64Url_class|apply toBase64Url_length]. Qed.

End Codec.

Section GeneratedKeys.
Variable hmac : Buffer -> Buffer -> Buffer.
Local Open Scope N_scope.

Import LicenseValidator.

(** Whatever the generator returns is the signed token of its payload. *)
Lemma generateKeyWithTimestamp_returns (g : LicenseGenerator.t) (hours : double)
    (issued : Date) (key : jsstring) :
  LicenseGenerator.generateKeyWithTimestamp hmac g hours issued = Return key ->
  key = signedToken hmac (LicenseGenerator.secretKey g)
          (utf8_encode (generatedPayload hours issued)).
Proof.
  unfold LicenseGenerator.generateKeyWithTimestamp.
  destruct (Double.leb _ _); [discriminate|].
  destruct (isNaN _); [discriminate|].
  now intros [= <-].
Qed.

Lemma digits_plain (n : N) : plain (digits n).
Proof.
  pose proof (digits_numeral n) as H. unfold numeral in H.
  eapply Forall_impl; [|exact H]. intros c Hc. cbv beta in *. lia.
Qed.

Lemma ToString_plain (x : number) : plain (ToString x).
Proof.
  assert (L : forall s : string,
             forallb (fun c => (c <? 128) && negb (c =? 46) && negb (c =? 58)) (js s)
             = true -> plain (js s)).
  { intros s H. unfold plain. rewrite Forall_forall. intros c Hc.
    rewrite forallb_forall in H. specialize (H c Hc).
    apply andb_prop in H as [H H3]. apply andb_prop in H as [H1 H2].
    rewrite negb_true_iff, N.eqb_neq in H2, H3. rewrite N.ltb_lt in H1. auto. }
  destruct x as [|[|]|z]; cbn [ToString]; try (apply L; reflexivity).
  destruct (z <? 0)%Z; [|apply digits_plain].
  apply Forall_app. split; [apply L; reflexivity|apply digits_plain].
Qed.

Lemma ToString_nonempty (x : number) : ToString x <> [].
Proof.
  destruct x as [|[|]|z]; cbn [ToString]; try discriminate.
  destruct (z <? 0)%Z; [discriminate|apply digits_nonempty].
Qed.

Lemma plain_ascii (s : jsstring) : plain s -> ascii_only s.
Proof. apply Forall_impl. intros c Hc. cbv beta in *. lia. Qed.

Lemma plain_not_in (s : jsstring) (c : N) : plain s -> c = 46 \/ c = 58 -> ~ In c s.
Proof.
  intros Hs Hc Hin. unfold plain in Hs. rewrite Forall_forall in Hs.
  specialize (Hs c Hin). cbv beta in Hs. lia.
Qed.

Lemma generatedPayload_ascii (hours : double) (issued : Date) :
  ascii_only (generatedPayload hours issued).
Proof.
  unfold generatedPayload. cbv zeta. repeat apply ascii_only_app.
  - apply plain_ascii, ToString_plain.
  - repeat constructor.
  - apply plain_ascii, ToString_plain.
Qed.

Lemma generatedPayload_no_dot (hours : double) (issued : Date) :
  ~ In "."%byte (utf8_encode (generatedPayload hours issued)).
Proof.
  rewrite utf8_encode_ascii by apply generatedPayload_ascii.
  apply payload_has_no_dot; [apply generatedPayload_ascii|].
  unfold generatedPayload. cbv zeta. intros H.
  apply in_app_or in H as [H|H]; [|apply in_app_or in H as [H|H]].
  - revert H. apply plain_not_in; [apply ToString_plain|auto].
  - cbn in H. destruct H as [H|[]]. discriminate.
  - revert H. apply plain_not_in; [apply ToString_plain|auto].
Qed.

(** A validator holding the generator's secret lets every generated key
    through its signature stage. *)
Lemma verifySignature_generated (g : LicenseGenerator.t) (v : LicenseValidator.t)
    (hours : double) (issued : Date) (key : jsstring) :
  LicenseValidator.secretKey v = LicenseGenerator.secretKey g ->
  LicenseGenerator.generateKeyWithTimestamp hmac g hours issued = Return key ->
  verifySignature hmac v key
  = Return (utf8_encode (generatedPayload hours issued)).
Proof.
  intros Hs Hgen. apply generateKeyWithTimestamp_returns in Hgen. subst key.
  rewrite <- Hs. apply verifySignature_signedToken, generatedPayload_no_dot.
Qed.

End GeneratedKeys.

Section GeneratedKeyProperties.
Local Open Scope Z_scope.

Import LicenseValidator.

(** The signature stage on a token signed under any secret. *)
Lemma verifySignature_any_secret (hmac : Buffer -> Buffer -> Buffer)
    (v : LicenseValidator.t) (secret : jsstring) (payload : Buffer) :
  ~ In "."%byte payload ->
  verifySignature hmac v (signedToken hmac secret payload)
  = (same <- timingSafeEqual (hmac (utf8_encode secret) payload)
               (hmac (utf8_encode (secretKey v)) payload) ;;
     if negb same
     then Throw (ALicenseError
                   (invalidSignature "License signature verification failed"))
     else Return payload).
Proof.
  intros Hdot. unfold verifySignature, signedToken.
  rewrite startsWith_app. unfold slice_from. rewrite skipn_app, skipn_all, Nat.sub_diag.
  cbn [negb skipn app].
  change (isEmpty (js LICENSE_PREFIX ++ _)) with false. cbv iota.
  rewrite fromBase64Url_toBase64Url. cbn [try_catch bind].
  change (utf8_encode (js ".")) with ["."%byte].
  cbn [app]. rewrite indexOf_separator by exact Hdot.
  destruct (Z.eqb_spec (Z.of_nat (List.length payload)) (-1)); [lia|].
  unfold slice, sliceFrom.
  replace (Z.to_nat (Z.of_nat (List.length payload) + 1))
    with (S (List.length payload)) by lia.
  rewrite Nat2Z.id. change (Z.to_nat 0) with 0%nat.
  rewrite Nat.sub_0_r. change (skipn 0 ?l) with l.
  rewrite firstn_app, firstn_all, Nat.sub_diag. cbn [firstn]. rewrite app_nil_r.
  rewrite skipn_separator. reflexivity.
Qed.

(** X3.  Every key [generateKeyWithTimestamp] returns starts with
    [alvan-], passes [hasValidLicenseFormat], and its text after the prefix
    decodes to the payload bytes, one dot and a 32-byte HMAC tag. *)
Theorem X3_generated_key_format (g : LicenseGenerator.t) (hours : double)
    (issued : Date) (key : jsstring) :
  LicenseGenerator.generateKeyWithTimestamp hmacSha256 g hours issued = Return key ->
  startsWith key (js LICENSE_PREFIX) = true
  /\ utils.hasValidLicenseFormat key = true
  /\ exists tag,
       fromBase64Url (slice_from key 6)
       = Return (utf8_encode (generatedPayload hours issued) ++ "."%byte :: tag)
       /\ tag = hmacSha256 (utf8_encode (LicenseGenerator.secretKey g))
                  (utf8_encode (generatedPayload hours issued))
       /\ List.length tag = 32%nat.
Proof.
  intros Hgen. apply generateKeyWithTimestamp_returns in Hgen. subst key.
  unfold signedToken.
  set (data := utf8_encode (generatedPayload hours issued)
               ++ utf8_encode (js ".") ++ _).
  assert (Hslice : slice_from (js LICENSE_PREFIX ++ LicenseGenerator.toBase64Url data) 6
                   = LicenseGenerator.toBase64Url data) by reflexivity.
  splits.
  - apply startsWith_app.
  - unfold utils.hasValidLicenseFormat.
    change (js "alvan-") with (js LICENSE_PREFIX).
    rewrite startsWith_app, Hslice.
    change (isEmpty (js LICENSE_PREFIX ++ _)) with false. cbn [negb].
    assert (Hlen : (44 <= List.length (LicenseGenerator.toBase64Url data))%nat).
    { rewrite toBase64Url_length. subst data.
      rewrite !length_app, hmacSha256_length.
      change (List.length (utf8_encode (js "."))) with 1%nat.
      change 44%nat with ((4 * 33 + 2) / 3)%nat at 1.
      apply Nat.Div0.div_le_mono. lia. }
    destruct (Nat.ltb_spec (List.length (LicenseGenerator.toBase64Url data)) 10);
      [lia|].
    unfold utils.base64urlPattern_test. rewrite toBase64Url_class.
    destruct (LicenseGenerator.toBase64Url data); [cbn in Hlen; lia|reflexivity].
  - eexists. rewrite Hslice, fromBase64Url_toBase64Url.
    subst data. change (utf8_encode (js ".")) with ["."%byte]. cbn [app].
    split; [reflexivity|]. split; [reflexivity|apply hmacSha256_length].
Qed.

Lemma X3_generated_key_format_witness :
  startsWith (js "alvan-MTcwNDExMDQwMDoxNzA0MTk2ODAwLlx6YktJcOPN8RkamhDIOMGqs3mYDP0_a5XWMhNEEV8N")
             (js LICENSE_PREFIX) = true
  /\ utils.hasValidLicenseFormat
       (js "alvan-MTcwNDExMDQwMDoxNzA0MTk2ODAwLlx6YktJcOPN8RkamhDIOMGqs3mYDP0_a5XWMhNEEV8N")
     = true
  /\ exists tag,
       fromBase64Url
         (slice_from
            (js "alvan-MTcwNDExMDQwMDoxNzA0MTk2ODAwLlx6YktJcOPN8RkamhDIOMGqs3mYDP0_a5XWMhNEEV8N")
            6)
       = Return (utf8_encode (generatedPayload (DFin 24 0) (newDate (Int 1704110400000)))
                 ++ "."%byte :: tag)
       /\ tag = hmacSha256
                  (utf8_encode
                     (LicenseGenerator.secretKey
                        (LicenseGenerator.mk (js "integration-test-secret"))))
                  (utf8_encode (generatedPayload (DFin 24 0)
                                  (newDate (Int 1704110400000))))
       /\ List.length tag = 32%nat.
Proof.
  apply (@X3_generated_key_format
           (LicenseGenerator.mk (js "integration-test-secret")) (DFin 24 0)
           (newDate (Int 1704110400000))).
  vm_compute. reflexivity.
Defined.

(** X4.  Key sensitivity: a key generated under one secret, presented to a
    validator whose secret yields a different HMAC tag for the key's
    payload, is rejected with [INVALID_SIGNATURE], at every time. *)
Theorem X4_wrong_secret_is_a_signature_error (g : LicenseGenerator.t)
    (v : LicenseValidator.t) (hours : double) (issued : Date)
    (key : jsstring) (now : Date) :
  LicenseGenerator.generateKeyWithTimestamp hmacSha256 g hours issued = Return key ->
  hmacSha256 (utf8_encode (secretKey v)) (utf8_encode (generatedPayload hours issued))
  <> hmacSha256 (utf8_encode (LicenseGenerator.secretKey g))
       (utf8_encode (generatedPayload hours issued)) ->
  validateKeyAtTime hmacSha256 v key now
  = Throw (ALicenseError (invalidSignature "License signature verification failed")).
Proof.
  intros Hgen Hdiff. apply generateKeyWithTimestamp_returns in Hgen. subst key.
  rewrite validateKeyAtTime_stages.
  rewrite verifySignature_any_secret by apply generatedPayload_no_dot.
  unfold timingSafeEqual. rewrite !hmacSha256_length. cbn [Nat.eqb bind].
  destruct (buffer_eqb _ _) eqn:E; [|reflexivity].
  apply buffer_eqb_eq in E. exfalso. apply Hdiff. now symmetry.
Qed.

Lemma X4_wrong_secret_is_a_signature_error_witness :
  validateKeyAtTime hmacSha256 (LicenseValidator.mk (js "secret-key-2"))
    (js "alvan-MTcwNDExMDQwMDoxNzA0MTk2ODAwLkoiOikxJvKViejGruDOX8pwusqqJWUnC7Y1EygTINT0")
    (newDate (Int 1704110400000))
  = Throw (ALicenseError (invalidSignature "License signature verification failed")).
Proof.
  apply (@X4_wrong_secret_is_a_signature_error
           (LicenseGenerator.mk (js "secret-key-1"))
           (LicenseValidator.mk (js "secret-key-2"))
           (DFin 24 0) (newDate (Int 1704110400000))).
  - vm_compute. reflexivity.
  - vm_compute. discriminate.
Defined.

End GeneratedKeyProperties.
(* ================================================================== *)
(** * Validating what the generator printed *)

Section PrintedPayloads.
Local Open Scope Z_scope.

Import LicenseValidator.

(** [parseInt] reads back every integer the generator prints. *)
Lemma parseInt_ToString (z : Z) : parseInt (ToString (Int z)) = toDouble z.
Proof.
  unfold ToString. destruct (Z.ltb_spec z 0) as [Hneg|Hpos].
  - unfold parseInt. change (js "-") with [45%N]. cbn [app trimStart].
    change (isWhiteSpace 45) with false. cbv iota.
    change (45 =? 45)%N with true. cbv iota.
    pose proof (digits_numeral (Z.to_N (- z))) as Hnum.
    pose proof (@digits_nonempty (Z.to_N (- z))) as Hne.
    pose proof (digitsValue_digits (Z.to_N (- z))) as Hval.
    rewrite (takeDigits_numeral Hnum).
    destruct (digits (Z.to_N (- z))) as [|c s]; [congruence|].
    cbn [map] in *. rewrite Hval. f_equal. lia.
  - rewrite parseInt_digits. f_equal. lia.
Qed.

(** The words the generator prints for a number that is no integer do not
    parse. *)
Lemma parseInt_ToString_other (x : number) :
  (forall z, x <> Int z) -> parseInt (ToString x) = NaN.
Proof.
  destruct x as [|[|]|z]; intros H; try reflexivity. now destruct (H z).
Qed.

(** The payload stage on a payload of two printed numbers. *)
Lemma parsePayload_printed (a b : number) :
  parsePayload (utf8_encode (ToString a ++ js ":" ++ ToString b))
  = (let issuedTimestamp := parseInt (ToString a) in
     let expiresTimestamp := parseInt (ToString b) in
     if isNaN issuedTimestamp || isNaN expiresTimestamp
     then Throw (ALicenseError (timeError "Failed to parse timestamps"))
     else if Number.leb issuedTimestamp (Int 0) || Number.leb expiresTimestamp (Int 0)
     then Throw (ALicenseError (invalidData "Timestamps must be positive"))
     else if Number.leb expiresTimestamp issuedTimestamp
     then Throw (ALicenseError
            (invalidData "Expiration time must be after issued time"))
     else
       let issuedAt := newDate (Number.mul issuedTimestamp (Int 1000)) in
       let expiresAt := newDate (Number.mul expiresTimestamp (Int 1000)) in
       if isNaN (getTime issuedAt) || isNaN (getTime expiresAt)
       then Throw (ALicenseError (timeError "Invalid timestamp values"))
       else Return (issuedAt, expiresAt)).
Proof.
  assert (Hascii : ascii_only (ToString a ++ js ":" ++ ToString b)).
  { repeat apply ascii_only_app; try (apply plain_ascii, ToString_plain).
    repeat constructor. }
  unfold parsePayload.
  rewrite utf8_encode_ascii, toString_utf8_ascii by exact Hascii.
  change (js ":") with [58%N]. cbn [app].
  rewrite split_two by (apply plain_not_in; [apply ToString_plain|auto]).
  cbn [List.length Nat.eqb negb]. unfold parseTimestamps. cbn [nth].
  pose proof (@ToString_nonempty a) as Ha. pose proof (@ToString_nonempty b) as Hb.
  destruct (ToString a) as [|ca sa]; [congruence|].
  destruct (ToString b) as [|cb sb]; [congruence|].
  cbn [isEmpty orb]. cbv zeta.
  destruct (isNaN _ || isNaN _); reflexivity.
Qed.

(** Whole seconds of a time value, in milliseconds, are a time value. *)
Lemma whole_seconds_bound (t : Z) :
  Z.abs t <= maxTime -> Z.abs (t / 1000 * 1000) <= maxTime.
Proof. unfold maxTime. intros H. lia_div. Qed.

(** The outcome of validating, under the generator's secret, any key the
    generator returned for an issuance date [new Date(x)]. *)
Lemma validate_generated (hmac : Buffer -> Buffer -> Buffer)
    (g : LicenseGenerator.t) (v : LicenseValidator.t) (hours : double)
    (x : number) (key : jsstring) (now : Date) :
  LicenseValidator.secretKey v = LicenseGenerator.secretKey g ->
  LicenseGenerator.generateKeyWithTimestamp hmac g hours (newDate x) = Return key ->
  exists t,
    newDate x = mkDate (Int t) /\ Z.abs t <= maxTime /\
    validateKeyAtTime hmac v key now
    = match Double.TimeClip
              (Double.add (DFin t 0)
                 (Double.mul (Double.mul (Double.mul hours (DFin 60 0)) (DFin 60 0))
                    (DFin 1000 0))) with
      | Int E =>
          if (t / 1000 <=? 0) || (E / 1000 <=? 0)
          then Throw (ALicenseError (invalidData "Timestamps must be positive"))
          else if E / 1000 <=? t / 1000
          then Throw (ALicenseError
                 (invalidData "Expiration time must be after issued time"))
          else checkExpiry (mkDate (Int (t / 1000 * 1000)),
                            mkDate (Int (E / 1000 * 1000))) now
      | _ => Throw (ALicenseError (timeError "Failed to parse timestamps"))
      end.
Proof.
  intros Hs Hgen.
  assert (Ht : exists t, newDate x = mkDate (Int t) /\ Z.abs t <= maxTime).
  { unfold LicenseGenerator.generateKeyWithTimestamp in Hgen.
    destruct (Double.leb _ _); [discriminate|].
    unfold newDate, TimeClip in *. cbn [getTime] in Hgen.
    destruct x as [| |t]; try discriminate.
    destruct (Z.leb_spec (Z.abs t) maxTime); [eauto|discriminate]. }
  destruct Ht as (t & Ex & Ht). exists t. split; [exact Ex|]. split; [exact Ht|].
  rewrite Ex in Hgen.
  rewrite validateKeyAtTime_stages, (@verifySignature_generated hmac g v _ _ _ Hs Hgen).
  cbn [bind]. unfold generatedPayload, Double.newDate. cbn [getTime Double.ofNumber floorDiv].
  rewrite parsePayload_printed. cbv zeta.
  destruct (Double.TimeClip _) as [|s|E] eqn:HE.
  - cbn [floorDiv]. rewrite (@parseInt_ToString_other NaN) by discriminate.
    cbn [isNaN]. now rewrite orb_true_r.
  - cbn [floorDiv]. rewrite (@parseInt_ToString_other (Infinity s)) by discriminate.
    cbn [isNaN]. now rewrite orb_true_r.
  - apply TimeClip_bound in HE. cbn [floorDiv]. rewrite !parseInt_ToString.
    unfold maxTime in *.
    rewrite !toDouble_exact
      by (change (2 ^ 53) with 9007199254740992; lia_div).
    cbn [isNaN orb bind Number.leb].
    destruct (_ || _); [reflexivity|].
    destruct (E / 1000 <=? t / 1000); [reflexivity|].
    unfold Number.mul.
    rewrite !toDouble_exact
      by (change (2 ^ 53) with 9007199254740992; lia_div).
    rewrite !newDate_valid by (apply whole_seconds_bound; unfold maxTime; lia).
    reflexivity.
Qed.

End PrintedPayloads.

(* ================================================================== *)
(** * What becomes of the keys the generator returns *)

Section GeneratedKeyOutcomes.
Local Open Scope Z_scope.

Import LicenseValidator.

(** The generator's two guards are its only ones. *)
Lemma generateKeyWithTimestamp_accepts (hmac : Buffer -> Buffer -> Buffer)
    (g : LicenseGenerator.t) (hours : double) (t : Z) :
  Double.leb hours (DFin 0 0) = false -> Z.abs t <= maxTime ->
  exists key,
    LicenseGenerator.generateKeyWithTimestamp hmac g hours (newDate (Int t))
    = Return key.
Proof.
  intros Hh Ht. unfold LicenseGenerator.generateKeyWithTimestamp.
  rewrite Hh, newDate_valid by exact Ht. cbn [getTime isNaN].
  eexists. reflexivity.
Qed.

(** The outcome of validating a generated key, for an issuance time [t]. *)
Lemma validate_generated_at (hmac : Buffer -> Buffer -> Buffer)
    (g : LicenseGenerator.t) (v : LicenseValidator.t) (hours : double)
    (t : Z) (key : jsstring) (now : Date) :
  LicenseValidator.secretKey v = LicenseGenerator.secretKey g ->
  Z.abs t <= maxTime ->
  LicenseGenerator.generateKeyWithTimestamp hmac g hours (newDate (Int t)) = Return key ->
  validateKeyAtTime hmac v key now
  = match Double.TimeClip
            (Double.add (DFin t 0)
               (Double.mul (Double.mul (Double.mul hours (DFin 60 0)) (DFin 60 0))
                  (DFin 1000 0))) with
    | Int E =>
        if (t / 1000 <=? 0) || (E / 1000 <=? 0)
        then Throw (ALicenseError (invalidData "Timestamps must be positive"))
        else if E / 1000 <=? t / 1000
        then Throw (ALicenseError
               (invalidData "Expiration time must be after issued time"))
        else checkExpiry (mkDate (Int (t / 1000 * 1000)),
                          mkDate (Int (E / 1000 * 1000))) now
    | _ => Throw (ALicenseError (timeError "Failed to parse timestamps"))
    end.
Proof.
  intros Hs Ht Hgen.
  destruct (@validate_generated hmac g v hours (Int t) key now Hs Hgen)
    as (t' & Ex & _ & ->).
  rewrite newDate_valid in Ex by exact Ht. now injection Ex as <-.
Qed.

(** X5.  Generating and then validating, composed: for every key the
    generator returns for an issuance date [new Date(x)], validation under
    the same secret at any current time is decided by the issuance time [t]
    and the expiry time [E] the generator computed.  An unrepresentable
    expiry gives [TIME_ERROR]; an issuance or expiry before the second
    second of 1970 gives [INVALID_DATA]; so does an expiry within the
    second of issuance; otherwise the outcome is that of the temporal gate
    on both instants floored to whole seconds. *)
Theorem X5_validation_of_generated_keys (hmac : Buffer -> Buffer -> Buffer)
    (g : LicenseGenerator.t) (v : LicenseValidator.t) (hours : double)
    (x : number) (key : jsstring) (now : Date) :
  LicenseValidator.secretKey v = LicenseGenerator.secretKey g ->
  LicenseGenerator.generateKeyWithTimestamp hmac g hours (newDate x) = Return key ->
  exists t,
    newDate x = mkDate (Int t) /\ Z.abs t <= maxTime /\
    validateKeyAtTime hmac v key now
    = match Double.TimeClip
              (Double.add (DFin t 0)
                 (Double.mul (Double.mul (Double.mul hours (DFin 60 0)) (DFin 60 0))
                    (DFin 1000 0))) with
      | Int E =>
          if (t / 1000 <=? 0) || (E / 1000 <=? 0)
          then Throw (ALicenseError (invalidData "Timestamps must be positive"))
          else if E / 1000 <=? t / 1000
          then Throw (ALicenseError
                 (invalidData "Expiration time must be after issued time"))
          else checkExpiry (mkDate (Int (t / 1000 * 1000)),
                            mkDate (Int (E / 1000 * 1000))) now
      | _ => Throw (ALicenseError (timeError "Failed to parse timestamps"))
      end.
Proof. apply validate_generated. Qed.

Lemma X5_validation_of_generated_keys_witness :
  exists t,
    newDate (Int 1704110400000) = mkDate (Int t) /\ Z.abs t <= maxTime /\
    validateKeyAtTime hmacSha256 (LicenseValidator.mk (js "k"))
      (js "alvan-MTcwNDExMDQwMDoxNzA0MTE0MDAwLktKjQqceVq0Dw_2Nuv57X_ycYxHS4-U2O3-A3Quwwis")
      (newDate (Int 1704112200000))
    = match Double.TimeClip
              (Double.add (DFin t 0)
                 (Double.mul (Double.mul (Double.mul (DFin 1 0) (DFin 60 0))
                                (DFin 60 0))
                    (DFin 1000 0))) with
      | Int E =>
          if (t / 1000 <=? 0) || (E / 1000 <=? 0)
          then Throw (ALicenseError (invalidData "Timestamps must be positive"))
          else if E / 1000 <=? t / 1000
          then Throw (ALicenseError
                 (invalidData "Expiration time must be after issued time"))
          else checkExpiry (mkDate (Int (t / 1000 * 1000)),
                            mkDate (Int (E / 1000 * 1000)))
                 (newDate (Int 1704112200000))
      | _ => Throw (ALicenseError (timeError "Failed to parse timestamps"))
      end.
Proof.
  apply (@X5_validation_of_generated_keys hmacSha256
           (LicenseGenerator.mk (js "k")) (LicenseValidator.mk (js "k"))
           (DFin 1 0) (Int 1704110400000)).
  - reflexivity.
  - vm_compute. reflexivity.
Defined.

(** X6.  The guard [hours <= 0] lets [NaN] and [Infinity] through, and a
    finite duration may reach beyond the last representable date.  In each
    case the generator still returns a key, whose expiry is printed as
    [NaN]; under the generator's secret that key fails validation with
    [TIME_ERROR] at every current time. *)
Theorem X6_unrepresentable_expiry_is_a_time_error
    (hmac : Buffer -> Buffer -> Buffer) (g : LicenseGenerator.t)
    (v : LicenseValidator.t) (hours : double) (t : Z) :
  LicenseValidator.secretKey v = LicenseGenerator.secretKey g ->
  Z.abs t <= maxTime ->
  hours = DNaN \/ hours = DInfinity false
  \/ (Double.leb hours (DFin 0 0) = false /\
      Double.TimeClip
        (Double.add (DFin t 0)
           (Double.mul (Double.mul (Double.mul hours (DFin 60 0)) (DFin 60 0))
              (DFin 1000 0)))
      = NaN) ->
  exists key,
    LicenseGenerator.generateKeyWithTimestamp hmac g hours (newDate (Int t))
    = Return key /\
    forall now : Date,
      validateKeyAtTime hmac v key now
      = Throw (ALicenseError (timeError "Failed to parse timestamps")).
Proof.
  intros Hs Ht Hh.
  assert (H : Double.leb hours (DFin 0 0) = false /\
              Double.TimeClip
                (Double.add (DFin t 0)
                   (Double.mul (Double.mul (Double.mul hours (DFin 60 0)) (DFin 60 0))
                      (DFin 1000 0)))
              = NaN).
  { destruct Hh as [->|[->|H]]; [split; reflexivity|split; reflexivity|exact H]. }
  destruct H as [Hpos Hnan].
  destruct (@generateKeyWithTimestamp_accepts hmac g hours t Hpos Ht) as [key Hgen].
  exists key. split; [exact Hgen|]. intros now.
  rewrite (@validate_generated_at hmac g v hours t key now Hs Ht Hgen), Hnan.
  reflexivity.
Qed.

Lemma X6_unrepresentable_expiry_is_a_time_error_witness :
  exists key,
    LicenseGenerator.generateKeyWithTimestamp hmacSha256
      (LicenseGenerator.mk (js "k")) DNaN (newDate (Int 1704110400000))
    = Return key /\
    forall now : Date,
      validateKeyAtTime hmacSha256 (LicenseValidator.mk (js "k")) key now
      = Throw (ALicenseError (timeError "Failed to parse timestamps")).
Proof.
  apply (@X6_unrepresentable_expiry_is_a_time_error hmacSha256
           (LicenseGenerator.mk (js "k")) (LicenseValidator.mk (js "k"))
           DNaN 1704110400000).
  - reflexivity.
  - unfold maxTime. lia.
  - left. reflexivity.
Defined.

(** X7.  The generator accepts issuance dates before 1970-01-01T00:00:01Z
    and durations that end within the second of issuance, but the keys it
    returns for them never validate: under the generator's secret, at
    every current time, validation throws [INVALID_DATA], for
    non-positive timestamps in the first case and for an expiry not after
    the issuance in the second. *)
Theorem X7_generated_keys_that_never_validate
    (hmac : Buffer -> Buffer -> Buffer) (g : LicenseGenerator.t)
    (v : LicenseValidator.t) (hours : double) (t E : Z) :
  LicenseValidator.secretKey v = LicenseGenerator.secretKey g ->
  Z.abs t <= maxTime ->
  Double.leb hours (DFin 0 0) = false ->
  Double.TimeClip
    (Double.add (DFin t 0)
       (Double.mul (Double.mul (Double.mul hours (DFin 60 0)) (DFin 60 0))
          (DFin 1000 0)))
  = Int E ->
  t < 1000 \/ E / 1000 <= t / 1000 ->
  exists key,
    LicenseGenerator.generateKeyWithTimestamp hmac g hours (newDate (Int t))
    = Return key /\
    forall now : Date,
      validateKeyAtTime hmac v key now
      = Throw (ALicenseError
                 (invalidData
                    (if (t <? 1000) || (E <? 1000)
                     then "Timestamps must be positive"
                     else "Expiration time must be after issued time"))).
Proof.
  intros Hs Ht Hpos HE Hbad.
  destruct (@generateKeyWithTimestamp_accepts hmac g hours t Hpos Ht) as [key Hgen].
  exists key. split; [exact Hgen|]. intros now.
  rewrite (@validate_generated_at hmac g v hours t key now Hs Ht Hgen), HE.
  assert (H1 : (t / 1000 <=? 0) = (t <? 1000)).
  { destruct (Z.leb_spec (t / 1000) 0), (Z.ltb_spec t 1000); try reflexivity; lia_div. }
  assert (H2 : (E / 1000 <=? 0) = (E <? 1000)).
  { destruct (Z.leb_spec (E / 1000) 0), (Z.ltb_spec E 1000); try reflexivity; lia_div. }
  rewrite H1, H2.
  destruct ((t <? 1000) || (E <? 1000)) eqn:Hp; [reflexivity|].
  apply orb_false_elim in Hp as [Hp _]. apply Z.ltb_ge in Hp.
  destruct (Z.leb_spec (E / 1000) (t / 1000)); [reflexivity|lia].
Qed.

Lemma X7_generated_keys_that_never_validate_witness :
  exists key,
    LicenseGenerator.generateKeyWithTimestamp hmacSha256
      (LicenseGenerator.mk (js "k")) (DFin 1 0) (newDate (Int (-5000)))
    = Return key /\
    forall now : Date,
      validateKeyAtTime hmacSha256 (LicenseValidator.mk (js "k")) key now
      = Throw (ALicenseError
                 (invalidData
                    (if (-5000 <? 1000) || (3595000 <? 1000)
                     then "Timestamps must be positive"
                     else "Expiration time must be after issued time"))).
Proof.
  apply (@X7_generated_keys_that_never_validate hmacSha256
           (LicenseGenerator.mk (js "k")) (LicenseValidator.mk (js "k"))
           (DFin 1 0) (-5000) 3595000).
  - reflexivity.
  - unfold maxTime. lia.
  - reflexivity.
  - vm_compute. reflexivity.
  - left. lia.
Defined.

End GeneratedKeyOutcomes.

(* ================================================================== *)
(** * The decoder, and the texts of one key *)

Section Decoder.
Local Open Scope N_scope.

Import LicenseValidator.

(** Node's table reads [-] as [+] and [_] as [/] already. *)
Lemma unbase64_stdChar (c : N) :
  unbase64 (stdChar c mod 256) = unbase64 (c mod 256)
  /\ (stdChar c mod 256 =? 61) = (c mod 256 =? 61).
Proof.
  unfold stdChar. cbv beta.
  destruct (N.eqb_spec c 45) as [->|H1]; [split; reflexivity|].
  destruct (N.eqb_spec c 95) as [->|H2]; split; reflexivity.
Qed.

Lemma base64_sextets_stdChar (s : jsstring) :
  base64_sextets (map stdChar s) = base64_sextets s.
Proof.
  induction s as [|c s IH]; [reflexivity|].
  cbn [map base64_sextets].
  destruct (unbase64_stdChar c) as [-> ->]. now rewrite IH.
Qed.

(** The decoder stops at the first [=]. *)
Lemma base64_sextets_stop (s junk : jsstring) :
  base64_sextets (s ++ 61 :: junk) = base64_sextets s.
Proof.
  induction s as [|c s IH]; [reflexivity|].
  cbn [app base64_sextets]. now rewrite IH.
Qed.

(** The decoder skips what is neither in its table nor [=]. *)
Lemma base64_sextets_skip (a b : jsstring) (c : N) :
  unbase64 (c mod 256) = None -> c mod 256 <> 61 ->
  base64_sextets (a ++ c :: b) = base64_sextets (a ++ b).
Proof.
  intros Hc Hp. induction a as [|d a IH].
  - cbn [app base64_sextets]. rewrite Hc.
    destruct (N.eqb_spec (c mod 256) 61); [contradiction|reflexivity].
  - cbn [app base64_sextets]. now rewrite IH.
Qed.

(** [fromBase64Url] is Node's decoder: the padding it adds and the
    characters it replaces change nothing in what the decoder reads. *)
Lemma fromBase64Url_from_base64 (str : jsstring) :
  fromBase64Url str = Return (from_base64 str).
Proof.
  unfold fromBase64Url, try_catch, from_base64.
  assert (E : forall s, replaceAll 95 47 (replaceAll 45 43 s) = map stdChar s).
  { intros s. unfold replaceAll. now rewrite map_map. }
  rewrite E, base64_sextets_stdChar.
  destruct (negb _); [|reflexivity].
  now rewrite base64_sextets_padding.
Qed.

(** The validator reads a key only through the bytes its text after the
    prefix decodes to. *)
Lemma validate_by_decoded (hmac : Buffer -> Buffer -> Buffer)
    (v : LicenseValidator.t) (enc1 enc2 : jsstring) (now : Date) :
  from_base64 enc1 = from_base64 enc2 ->
  validateKeyAtTime hmac v (js LICENSE_PREFIX ++ enc1) now
  = validateKeyAtTime hmac v (js LICENSE_PREFIX ++ enc2) now.
Proof.
  intros H. rewrite !validateKeyAtTime_stages. f_equal.
  unfold verifySignature. rewrite !startsWith_app.
  change (isEmpty (js LICENSE_PREFIX ++ enc1)) with false.
  change (isEmpty (js LICENSE_PREFIX ++ enc2)) with false.
  change (slice_from (js LICENSE_PREFIX ++ enc1) (List.length (js LICENSE_PREFIX)))
    with enc1.
  change (slice_from (js LICENSE_PREFIX ++ enc2) (List.length (js LICENSE_PREFIX)))
    with enc2.
  cbv zeta. now rewrite !fromBase64Url_from_base64, H.
Qed.

(** X8.  [fromBase64Url] never throws and returns exactly what
    [Buffer.from(str, 'base64')] returns on the unchanged argument: adding
    [=] padding and replacing [-] and [_] make no difference to Node's
    decoder. *)
Theorem X8_fromBase64Url_is_the_platform_decoder (str : jsstring) :
  fromBase64Url str = Return (from_base64 str).
Proof. apply fromBase64Url_from_base64. Qed.

(** X9.  The text of a key is not unique.  Whatever follows a [=] in a key
    is ignored by [validateKeyAtTime], and so is the choice between the
    URL-safe and the standard alphabet; yet [hasValidLicenseFormat] rejects
    every key that holds a [=]. *)
Theorem X9_padding_and_alphabet_are_ignored (hmac : Buffer -> Buffer -> Buffer)
    (v : LicenseValidator.t) (enc junk : jsstring) (now : Date) :
  validateKeyAtTime hmac v (js LICENSE_PREFIX ++ enc ++ 61 :: junk) now
  = validateKeyAtTime hmac v (js LICENSE_PREFIX ++ enc) now
  /\ validateKeyAtTime hmac v
       (js LICENSE_PREFIX ++ replaceAll 95 47 (replaceAll 45 43 enc)) now
     = validateKeyAtTime hmac v (js LICENSE_PREFIX ++ enc) now
  /\ utils.hasValidLicenseFormat (js LICENSE_PREFIX ++ enc ++ 61 :: junk) = false.
Proof.
  splits.
  - apply validate_by_decoded. unfold from_base64.
    now rewrite base64_sextets_stop.
  - apply validate_by_decoded. unfold from_base64, replaceAll.
    rewrite map_map.
    change (map _ enc) with (map stdChar enc).
    now rewrite base64_sextets_stdChar.
  - unfold utils.hasValidLicenseFormat.
    change (js "alvan-") with (js LICENSE_PREFIX). rewrite startsWith_app.
    change (isEmpty (js LICENSE_PREFIX ++ _)) with false.
    change (slice_from (js LICENSE_PREFIX ++ enc ++ 61 :: junk) 6)
      with (enc ++ 61 :: junk).
    cbn [negb]. destruct (Nat.ltb _ 10); [reflexivity|].
    unfold utils.base64urlPattern_test. rewrite forallb_app. cbn [forallb].
    change (utils.isBase64UrlChar 61) with false.
    now rewrite andb_false_r, andb_false_r.
Qed.

(** X10.  A character that is neither in the decoder's table nor [=]
    (white space, punctuation, any letter outside ASCII whose low byte is
    such a character) may be inserted anywhere after the prefix of a key
    without changing the outcome of [validateKeyAtTime]. *)
Theorem X10_foreign_characters_are_skipped (hmac : Buffer -> Buffer -> Buffer)
    (v : LicenseValidator.t) (a b : jsstring) (c : N) (now : Date) :
  unbase64 (c mod 256) = None -> c mod 256 <> 61 ->
  validateKeyAtTime hmac v (js LICENSE_PREFIX ++ a ++ c :: b) now
  = validateKeyAtTime hmac v (js LICENSE_PREFIX ++ a ++ b) now.
Proof.
  intros Hc Hp. apply validate_by_decoded. unfold from_base64.
  now rewrite (@base64_sextets_skip a b c Hc Hp).
Qed.

Lemma X10_foreign_characters_are_skipped_witness :
  validateKeyAtTime hmacSha256 (LicenseValidator.mk (js "k"))
    (js LICENSE_PREFIX ++ js "MTcwNDExMDQwMDox" ++ 32 :: js "NzA0MTE0MDAw")
    (newDate (Int 1704110400000))
  = validateKeyAtTime hmacSha256 (LicenseValidator.mk (js "k"))
      (js LICENSE_PREFIX ++ js "MTcwNDExMDQwMDox" ++ js "NzA0MTE0MDAw")
      (newDate (Int 1704110400000)).
Proof.
  apply (@X10_foreign_characters_are_skipped hmacSha256
           (LicenseValidator.mk (js "k")) (js "MTcwNDExMDQwMDox")
           (js "NzA0MTE0MDAw") 32 (newDate (Int 1704110400000))).
  - reflexivity.
  - discriminate.
Defined.

End Decoder.

(* ================================================================== *)
(** * Every outcome of a validation *)

Section Outcomes.
Local Open Scope Z_scope.

Import LicenseValidator.

(** The payload stage returns two dates on whole seconds. *)
Lemma parsePayload_whole_seconds (payload : Buffer) (issued expires : Date) :
  parsePayload payload = Return (issued, expires) ->
  exists a b, issued = mkDate (Int (a * 1000)) /\ expires = mkDate (Int (b * 1000)) /\
              0 < a < b /\ b * 1000 <= maxTime.
Proof.
  unfold parsePayload.
  destruct (negb _); [discriminate|].
  destruct (parseTimestamps _) as [[ti te]|]; [|discriminate].
  cbn [bind].
  destruct (Number.leb ti (Int 0) || Number.leb te (Int 0)) eqn:Hpos; [discriminate|].
  destruct (Number.leb te ti) eqn:Hord; [discriminate|].
  destruct (isNaN _ || isNaN _) eqn:Hnan; [discriminate|].
  intros [= <- <-].
  apply orb_false_elim in Hnan as [Hn1 Hn2].
  apply orb_false_elim in Hpos as [Hp1 Hp2].
  unfold newDate, TimeClip in *. cbn [getTime] in *.
  destruct ti as [| |a]; try discriminate.
  destruct te as [| |b]; try discriminate.
  cbn [Number.mul Number.leb] in *.
  apply Z.leb_gt in Hp1, Hp2, Hord.
  destruct (toDouble (a * 1000)) as [| |i] eqn:Ei; try discriminate.
  destruct (toDouble (b * 1000)) as [| |e] eqn:Ee; try discriminate.
  destruct (Z.leb_spec (Z.abs i) maxTime); [|discriminate].
  destruct (Z.leb_spec (Z.abs e) maxTime); [|discriminate].
  unfold maxTime in *.
  apply toDouble_small_result in Ei;
    [|change (2 ^ 53) with 9007199254740992; lia].
  apply toDouble_small_result in Ee;
    [|change (2 ^ 53) with 9007199254740992; lia].
  subst i e. exists a, b. splits; auto; lia.
Qed.

(** The payload and temporal stages throw license errors only. *)
Lemma later_stages_throw_license_errors (payload : Buffer) (now : Date) (e : Exception) :
  (dates <- parsePayload payload ;; checkExpiry dates now) = Throw e ->
  exists msg ty, e = ALicenseError (mkLicenseError msg ty) /\
                 (ty = INVALID_FORMAT \/ ty = TIME_ERROR \/ ty = INVALID_DATA
                  \/ ty = EXPIRED).
Proof.
  destruct (parsePayload payload) as [dates|e'] eqn:E; cbn [bind].
  - intros H. apply checkExpiry_throws in H as ->.
    do 2 eexists. split; [reflexivity|auto].
  - intros [= <-].
    apply parsePayload_throws in E as (msg & ty & -> & [->|[->| ->]]);
      do 2 eexists; (split; [reflexivity|auto]).
Qed.

(** X11.  With HMAC-SHA256, [validateKeyAtTime] throws the [RangeError]
    of [timingSafeEqual] exactly on the keys that start with the prefix,
    hold a separator in their decoded bytes and carry other than 32 bytes
    after the first separator.  Whatever else it throws is a [LicenseError]
    whose type is not [BASE64_ERROR]. *)
Theorem X11_what_validation_throws (v : LicenseValidator.t) (key : jsstring)
    (now : Date) :
  let data := from_base64 (slice_from key 6) in
  let separatorIndex := indexOf data (utf8_encode (js ".")) in
  (validateKeyAtTime hmacSha256 v key now
   = Throw (ARangeError "ERR_CRYPTO_TIMING_SAFE_EQUAL_LENGTH")
   <-> startsWith key (js LICENSE_PREFIX) = true /\ separatorIndex <> -1 /\
       List.length (sliceFrom data (separatorIndex + 1)) <> 32%nat)
  /\ (forall e : Exception,
         validateKeyAtTime hmacSha256 v key now = Throw e ->
         e = ARangeError "ERR_CRYPTO_TIMING_SAFE_EQUAL_LENGTH"
         \/ exists msg ty, e = ALicenseError (mkLicenseError msg ty) /\
                           ty <> BASE64_ERROR).
Proof.
  cbv zeta. split.
  - rewrite validateKeyAtTime_stages. unfold verifySignature.
    destruct (startsWith key (js LICENSE_PREFIX)) eqn:Hp.
    + destruct key as [|c key]; [discriminate Hp|]. cbn [isEmpty negb].
      change (List.length (js LICENSE_PREFIX)) with 6%nat. cbv zeta.
      rewrite fromBase64Url_from_base64. cbn [try_catch bind].
      set (data := from_base64 (slice_from (c :: key) 6)).
      destruct (Z.eqb_spec (indexOf data (utf8_encode (js "."))) (-1)) as [Hi|Hi].
      * cbn [bind]. split; [discriminate|]. intros (_ & H & _). contradiction.
      * unfold timingSafeEqual. rewrite hmacSha256_length.
        destruct (Nat.eqb_spec
                    (List.length
                       (sliceFrom data (indexOf data (utf8_encode (js ".")) + 1)))
                    32) as [Hl|Hl]; cbn [bind].
        -- split; [|intros (_ & _ & H); contradiction].
           destruct (negb _); cbn [bind]; [discriminate|].
           intros H. apply later_stages_throw_license_errors in H
             as (msg & ty & H & _). discriminate H.
        -- split; [auto|reflexivity].
    + split; [|intros (H & _); discriminate H].
      destruct (isEmpty key); cbn [negb bind]; discriminate.
  - intros e He.
    destruct (validateKeyAtTime_cases hmacSha256 v key now)
      as [(e' & H & E)|[(payload & e' & _ & H & E)|(payload & dates & _ & _ & E)]];
      rewrite E in He.
    + injection He as <-.
      apply verifySignature_throws in H as [[msg ->]|[->| ->]]; auto;
        right; do 2 eexists; (split; [reflexivity|discriminate]).
    + injection He as <-.
      apply parsePayload_throws in H as (msg & ty & -> & [->|[->| ->]]);
        right; do 2 eexists; (split; [reflexivity|discriminate]).
    + apply checkExpiry_throws in He as ->.
      right. do 2 eexists. split; [reflexivity|discriminate].
Qed.

Lemma X11_what_validation_throws_witness :
  validateKeyAtTime hmacSha256 (LicenseValidator.mk (js "k")) (js "alvan-MToyLg")
    (newDate (Int 1704110400000))
  = Throw (ARangeError "ERR_CRYPTO_TIMING_SAFE_EQUAL_LENGTH").
Proof.
  apply (proj1 (@X11_what_validation_throws (LicenseValidator.mk (js "k"))
                  (js "alvan-MToyLg") (newDate (Int 1704110400000)))).
  splits; [reflexivity|discriminate|discriminate].
Defined.

(** X12.  A failure other than [EXPIRED] does not depend on the clock:
    a key that fails so at one current time fails the same way at every
    other. *)
Theorem X12_only_expiry_depends_on_the_clock (hmac : Buffer -> Buffer -> Buffer)
    (v : LicenseValidator.t) (key : jsstring) (now1 now2 : Date) (e : Exception) :
  validateKeyAtTime hmac v key now1 = Throw e ->
  e <> ALicenseError (expired "License has expired") ->
  validateKeyAtTime hmac v key now2 = Throw e.
Proof.
  intros H1 He.
  destruct (validateKeyAtTime_cases hmac v key now1)
    as [(e' & H & E)|[(payload & e' & Hs & H & E)|(payload & dates & _ & _ & E)]];
    rewrite E in H1.
  - injection H1 as <-. rewrite validateKeyAtTime_stages, H. reflexivity.
  - injection H1 as <-. rewrite validateKeyAtTime_stages, Hs. cbn [bind].
    rewrite H. reflexivity.
  - apply checkExpiry_throws in H1. contradiction.
Qed.

Lemma X12_only_expiry_depends_on_the_clock_witness :
  validateKeyAtTime hmacSha256 (LicenseValidator.mk (js "k")) (js "alvan-MToy")
    (newDate (Int 1704110400000))
  = Throw (ALicenseError (invalidFormat "Missing separator in license data")).
Proof.
  apply (@X12_only_expiry_depends_on_the_clock hmacSha256
           (LicenseValidator.mk (js "k")) (js "alvan-MToy") (newDate (Int 0))).
  - vm_compute. reflexivity.
  - discriminate.
Defined.

(** The temporal gate on two valid dates and a valid current time. *)
Lemma checkExpiry_decided (i e c : Z) :
  checkExpiry (mkDate (Int i), mkDate (Int e)) (mkDate (Int c))
  = if c <? e
    then Return (mkLicenseInfo true (mkDate (Int i)) (mkDate (Int e))
                   (max0 (Number.div (Number.sub (Int e) (Int c)) (1000 * 60 * 60))))
    else Throw (ALicenseError (expired "License has expired")).
Proof.
  unfold checkExpiry. cbn [getTime Number.ltb]. destruct (c <? e); reflexivity.
Qed.

(** X13.  Validity only ends: a key that validates at a current time [c2]
    validates at every earlier valid time [c1], with the same two dates;
    and a key that is [EXPIRED] at a valid time [c1] is [EXPIRED] at every
    later time. *)
Theorem X13_validity_only_ends (hmac : Buffer -> Buffer -> Buffer)
    (v : LicenseValidator.t) (key : jsstring) (c1 c2 : Z) :
  Z.abs c1 <= maxTime -> c1 <= c2 ->
  (forall info : LicenseInfo,
      validateKeyAtTime hmac v key (newDate (Int c2)) = Return info ->
      exists info1,
        validateKeyAtTime hmac v key (newDate (Int c1)) = Return info1 /\
        isValid info1 = true /\
        issuedAt info1 = issuedAt info /\ expiresAt info1 = expiresAt info)
  /\ (validateKeyAtTime hmac v key (newDate (Int c1))
      = Throw (ALicenseError (expired "License has expired")) ->
      validateKeyAtTime hmac v key (newDate (Int c2))
      = Throw (ALicenseError (expired "License has expired"))).
Proof.
  intros Hc1 Hle.
  rewrite (@newDate_valid c1 Hc1).
  assert (Hc2 : newDate (Int c2) = mkDate (Int c2) \/ newDate (Int c2) = mkDate NaN).
  { unfold newDate, TimeClip. destruct (Z.abs c2 <=? maxTime); auto. }
  rewrite !validateKeyAtTime_stages.
  destruct (verifySignature hmac v key) as [payload|e]; cbn [bind];
    [|split; [discriminate|auto]].
  destruct (parsePayload payload) as [[di de]|e] eqn:Hparse; cbn [bind];
    [|split; [discriminate|auto]].
  destruct (parsePayload_dates _ Hparse) as (i & e & -> & -> & _ & _).
  rewrite checkExpiry_decided.
  destruct Hc2 as [-> | ->].
  - rewrite checkExpiry_decided. split.
    + intros info. destruct (Z.ltb_spec c2 e); [|discriminate].
      intros [= <-]. destruct (Z.ltb_spec c1 e); [|lia].
      eexists. split; [reflexivity|]. cbn. auto.
    + destruct (Z.ltb_spec c1 e); [discriminate|]. intros _.
      destruct (Z.ltb_spec c2 e); [lia|reflexivity].
  - split; [discriminate|reflexivity].
Qed.

Lemma X13_validity_only_ends_witness :
  (forall info : LicenseInfo,
      validateKeyAtTime hmacSha256 (LicenseValidator.mk (js "k")) (js "alvan-MTcwNDExMDQwMDoxNzA0MTE0MDAwLktKjQqceVq0Dw_2Nuv57X_ycYxHS4-U2O3-A3Quwwis")
        (newDate (Int 1704113000000)) = Return info ->
      exists info1,
        validateKeyAtTime hmacSha256 (LicenseValidator.mk (js "k")) (js "alvan-MTcwNDExMDQwMDoxNzA0MTE0MDAwLktKjQqceVq0Dw_2Nuv57X_ycYxHS4-U2O3-A3Quwwis")
          (newDate (Int 1704110400000)) = Return info1 /\
        isValid info1 = true /\
        issuedAt info1 = issuedAt info /\ expiresAt info1 = expiresAt info)
  /\ (validateKeyAtTime hmacSha256 (LicenseValidator.mk (js "k")) (js "alvan-MTcwNDExMDQwMDoxNzA0MTE0MDAwLktKjQqceVq0Dw_2Nuv57X_ycYxHS4-U2O3-A3Quwwis")
        (newDate (Int 1704110400000))
      = Throw (ALicenseError (expired "License has expired")) ->
      validateKeyAtTime hmacSha256 (LicenseValidator.mk (js "k")) (js "alvan-MTcwNDExMDQwMDoxNzA0MTE0MDAwLktKjQqceVq0Dw_2Nuv57X_ycYxHS4-U2O3-A3Quwwis")
        (newDate (Int 1704113000000))
      = Throw (ALicenseError (expired "License has expired"))).
Proof.
  apply (@X13_validity_only_ends hmacSha256 (LicenseValidator.mk (js "k"))
           (js "alvan-MTcwNDExMDQwMDoxNzA0MTE0MDAwLktKjQqceVq0Dw_2Nuv57X_ycYxHS4-U2O3-A3Quwwis") 1704110400000 1704113000000).
  - unfold maxTime. lia.
  - lia.
Defined.

(** X14.  The dates of every returned [LicenseInfo] lie on whole seconds:
    [issuedAt] and [expiresAt] are [a] and [b] thousand milliseconds with
    [0 < a < b], so a returned license runs for at least one second. *)
Theorem X14_returned_dates_are_whole_seconds (hmac : Buffer -> Buffer -> Buffer)
    (v : LicenseValidator.t) (key : jsstring) (now : Date) (info : LicenseInfo) :
  validateKeyAtTime hmac v key now = Return info ->
  exists a b : Z,
    issuedAt info = mkDate (Int (a * 1000)) /\
    expiresAt info = mkDate (Int (b * 1000)) /\
    0 < a < b /\ b * 1000 <= maxTime.
Proof.
  intros Hret.
  destruct (validateKeyAtTime_cases hmac v key now)
    as [(e & _ & E)|[(payload & e & _ & _ & E)|(payload & [di de] & _ & Hparse & E)]];
    rewrite E in Hret; try discriminate.
  destruct (parsePayload_whole_seconds _ Hparse) as (a & b & -> & -> & Hab & Hb).
  unfold checkExpiry in Hret. destruct (negb _); [discriminate|].
  injection Hret as <-. exists a, b. cbn. auto.
Qed.

Lemma X14_returned_dates_are_whole_seconds_witness :
  exists a b : Z,
    issuedAt (mkLicenseInfo true (mkDate (Int 1704110400000))
                (mkDate (Int 1704114000000)) (Quot (1800000 # 3600000)))
    = mkDate (Int (a * 1000)) /\
    expiresAt (mkLicenseInfo true (mkDate (Int 1704110400000))
                 (mkDate (Int 1704114000000)) (Quot (1800000 # 3600000)))
    = mkDate (Int (b * 1000)) /\
    0 < a < b /\ b * 1000 <= maxTime.
Proof.
  apply (@X14_returned_dates_are_whole_seconds hmacSha256
           (LicenseValidator.mk (js "k")) (js "alvan-MTcwNDExMDQwMDoxNzA0MTE0MDAwLktKjQqceVq0Dw_2Nuv57X_ycYxHS4-U2O3-A3Quwwis")
           (newDate (Int 1704112200000))).
  vm_compute. reflexivity.
Defined.

End Outcomes.

(* ================================================================== *)
(** * Secrets, factories and presets *)

Section Secrets.
Local Open Scope Z_scope.

Import LicenseValidator.

Lemma trimStart_all_space (s : jsstring) :
  trimStart s = [] -> forallb isWhiteSpace s = true.
Proof.
  induction s as [|c s IH]; [reflexivity|].
  cbn [trimStart forallb]. destruct (isWhiteSpace c); [exact IH|discriminate].
Qed.

Lemma trimStart_head (s r : jsstring) (c : N) :
  trimStart s = c :: r -> isWhiteSpace c = false /\ forallb isWhiteSpace s = false.
Proof.
  induction s as [|d s IH]; [discriminate|].
  cbn [trimStart forallb]. destruct (isWhiteSpace d) eqn:E.
  - intros H. destruct (IH H) as [H1 H2]. now rewrite H2.
  - intros [= <- <-]. auto.
Qed.

Lemma forallb_Forall_space (s : jsstring) :
  forallb isWhiteSpace s = true -> Forall (fun c => isWhiteSpace c = true) s.
Proof. intros H. now apply Forall_forall, forallb_forall. Qed.

(** [s.trim().length === 0] exactly when [s] is white space throughout. *)
Lemma trim_length_0 (s : jsstring) :
  Nat.eqb (List.length (trim s)) 0 = forallb isWhiteSpace s.
Proof.
  destruct (forallb isWhiteSpace s) eqn:E.
  - now rewrite (trim_whitespace (forallb_Forall_space s E)).
  - unfold trim. rewrite length_rev.
    destruct (trimStart s) as [|c r] eqn:Hs.
    + apply trimStart_all_space in Hs. congruence.
    + apply trimStart_head in Hs as [Hc _].
      destruct (trimStart (rev (c :: r))) as [|d r'] eqn:Hr; [|reflexivity].
      apply trimStart_all_space in Hr. cbn [rev] in Hr.
      rewrite forallb_app in Hr. cbn [forallb] in Hr.
      rewrite Hc, andb_false_r in Hr. discriminate.
Qed.

Lemma generator_constructor_decided (secret : jsstring) :
  LicenseGenerator.constructor secret
  = if forallb isWhiteSpace secret
    then Throw (AnError "Secret key cannot be empty")
    else Return (LicenseGenerator.mk secret).
Proof.
  unfold LicenseGenerator.constructor. rewrite trim_length_0.
  destruct secret as [|c s]; [reflexivity|]. reflexivity.
Qed.

Lemma validator_constructor_decided (secret : jsstring) :
  LicenseValidator.constructor secret
  = if forallb isWhiteSpace secret
    then Throw (AnError "Secret key cannot be empty")
    else Return (LicenseValidator.mk secret).
Proof.
  unfold LicenseValidator.constructor. rewrite trim_length_0.
  destruct secret as [|c s]; [reflexivity|]. reflexivity.
Qed.

(** X15.  Both constructors throw exactly on the secrets made of white
    space only (the empty one included); every other secret is accepted
    and stored as given, untrimmed. *)
Theorem X15_constructors_decided (secret : jsstring) :
  LicenseGenerator.constructor secret
  = (if forallb isWhiteSpace secret
     then Throw (AnError "Secret key cannot be empty")
     else Return (LicenseGenerator.mk secret))
  /\ LicenseValidator.constructor secret
     = (if forallb isWhiteSpace secret
        then Throw (AnError "Secret key cannot be empty")
        else Return (LicenseValidator.mk secret)).
Proof.
  split; [apply generator_constructor_decided|apply validator_constructor_decided].
Qed.

(** X16.  The factories of [utils.ts]: an absent or empty secret gives an
    instance keyed with [DEFAULT_SECRET_KEY]; a non-empty secret of white
    space only is not replaced by the default and makes both factories
    throw; and a generator and a validator made from the same argument
    hold the same secret. *)
Theorem X16_factories_and_the_default_secret :
  utils.createLicenseGenerator None
  = Return (LicenseGenerator.mk (js DEFAULT_SECRET_KEY))
  /\ utils.createLicenseGenerator (Some [])
     = Return (LicenseGenerator.mk (js DEFAULT_SECRET_KEY))
  /\ utils.createLicenseValidator None
     = Return (LicenseValidator.mk (js DEFAULT_SECRET_KEY))
  /\ utils.createLicenseValidator (Some [])
     = Return (LicenseValidator.mk (js DEFAULT_SECRET_KEY))
  /\ (forall (c : N) (s : jsstring),
         utils.createLicenseGenerator (Some (c :: s))
         = LicenseGenerator.constructor (c :: s)
         /\ utils.createLicenseValidator (Some (c :: s))
            = LicenseValidator.constructor (c :: s)
         /\ (forallb isWhiteSpace (c :: s) = true ->
             utils.createLicenseGenerator (Some (c :: s))
             = Throw (AnError "Secret key cannot be empty")
             /\ utils.createLicenseValidator (Some (c :: s))
                = Throw (AnError "Secret key cannot be empty")))
  /\ (forall (secretKey : option jsstring) (g : LicenseGenerator.t)
             (v : LicenseValidator.t),
         utils.createLicenseGenerator secretKey = Return g ->
         utils.createLicenseValidator secretKey = Return v ->
         LicenseValidator.secretKey v = LicenseGenerator.secretKey g).
Proof.
  splits; try reflexivity.
  - intros c s. splits; try reflexivity.
    intros H. unfold utils.createLicenseGenerator, utils.createLicenseValidator.
    cbn [utils.orDefault].
    rewrite generator_constructor_decided, validator_constructor_decided, H.
    split; reflexivity.
  - intros o g v Hg Hv.
    apply generator_secret in Hg. apply validator_secret in Hv. congruence.
Qed.

Lemma X16_factories_and_the_default_secret_witness :
  utils.createLicenseGenerator (Some (js " "))
  = Throw (AnError "Secret key cannot be empty")
  /\ utils.createLicenseValidator (Some (js " "))
     = Throw (AnError "Secret key cannot be empty").
Proof.
  apply (proj2 (proj2 (proj1 (proj2 (proj2 (proj2 (proj2
           X16_factories_and_the_default_secret)))) 32%N []))).
  reflexivity.
Defined.

End Secrets.

Section Presets.
Local Open Scope Z_scope.

Import LicenseValidator.

(** A key issued at [t] for [h] whole hours, validated at [c]. *)
Lemma whole_hours_key (hmac : Buffer -> Buffer -> Buffer)
    (g : LicenseGenerator.t) (v : LicenseValidator.t) (h t c : Z) :
  LicenseValidator.secretKey v = LicenseGenerator.secretKey g ->
  0 < h -> 1000 <= t -> t + h * 3600000 <= maxTime -> Z.abs c <= maxTime ->
  exists key,
    LicenseGenerator.generateKeyWithTimestamp hmac g (DFin h 0) (newDate (Int t))
    = Return key /\
    validateKeyAtTime hmac v key (newDate (Int c))
    = let issued := t / 1000 * 1000 in
      let expires := (t + h * 3600000) / 1000 * 1000 in
      if c <? expires
      then Return (mkLicenseInfo true (mkDate (Int issued)) (mkDate (Int expires))
                     (max0 (Number.div (Number.sub (Int expires) (Int c))
                                       (1000 * 60 * 60))))
      else Throw (ALicenseError (expired "License has expired")).
Proof.
  intros Hs Hh Ht Hm Hc. unfold maxTime in *.
  assert (Hpos : Double.leb (DFin h 0) (DFin 0 0) = false).
  { unfold Double.leb. change (Z.min 0 0) with 0. change (0 - 0) with 0.
    change (2 ^ 0) with 1. apply Z.leb_gt. lia. }
  assert (Htm : Z.abs t <= maxTime) by (unfold maxTime; lia).
  destruct (@generateKeyWithTimestamp_accepts hmac g (DFin h 0) t Hpos Htm)
    as [key Hgen].
  exists key. split; [exact Hgen|].
  rewrite (@validate_generated_at hmac g v (DFin h 0) t key _ Hs Htm Hgen).
  rewrite expiry_whole_hours by (unfold maxTime; lia).
  destruct (Z.leb_spec (t / 1000) 0); [lia_div|].
  destruct (Z.leb_spec ((t + h * 3600000) / 1000) 0); [lia_div|].
  destruct (Z.leb_spec ((t + h * 3600000) / 1000) (t / 1000)); [lia_div|].
  cbn [orb]. rewrite (@newDate_valid c) by (unfold maxTime; lia).
  apply checkExpiry_decided.
Qed.

(** X17.  The five presets of [QuickLicense]: at a clock reading [t]
    from the first second of 1970 on, with the year that follows
    representable, each preset returns a key that a validator with the
    same secret accepts at every valid current time before [t] plus 1, 24,
    168, 720 and 8760 hours (floored to the second) and finds [EXPIRED]
    from then on; the returned dates are [t] and that expiry, floored. *)
Theorem X17_quick_license_presets (hmac : Buffer -> Buffer -> Buffer)
    (secret : jsstring) (q : utils.QuickLicense)
    (v : LicenseValidator.t) (t c : Z) :
  utils.createQuickLicense secret = Return q ->
  LicenseValidator.constructor secret = Return v ->
  1000 <= t -> t + 8760 * 3600000 <= maxTime -> Z.abs c <= maxTime ->
  Forall (fun preset : (utils.QuickLicense -> Date -> Completion jsstring) * Z =>
            exists key,
              fst preset q (newDate (Int t)) = Return key /\
              validateKeyAtTime hmac v key (newDate (Int c))
              = let issued := t / 1000 * 1000 in
                let expires := (t + snd preset * 3600000) / 1000 * 1000 in
                if c <? expires
                then Return (mkLicenseInfo true (mkDate (Int issued))
                               (mkDate (Int expires))
                               (max0 (Number.div (Number.sub (Int expires) (Int c))
                                                 (1000 * 60 * 60))))
                else Throw (ALicenseError (expired "License has expired")))
         [(utils.oneHour hmac, 1); (utils.oneDay hmac, 24); (utils.oneWeek hmac, 168);
          (utils.oneMonth hmac, 720); (utils.oneYear hmac, 8760)].
Proof.
  intros Hq Hv Ht Hm Hc.
  unfold utils.createQuickLicense, utils.QuickLicense_constructor in Hq.
  destruct (LicenseGenerator.constructor secret) as [g|e] eqn:Hg; [|discriminate].
  cbn [bind] in Hq. injection Hq as <-.
  apply generator_secret in Hg. apply validator_secret in Hv.
  assert (Hs : LicenseValidator.secretKey v = LicenseGenerator.secretKey g)
    by congruence.
  unfold maxTime in *.
  repeat constructor; cbn [fst snd utils.generator];
    unfold utils.oneHour, utils.oneDay, utils.oneWeek, utils.oneMonth, utils.oneYear,
      LicenseGenerator.generateKey;
    cbn [utils.generator];
    apply whole_hours_key; auto; unfold maxTime; lia.
Qed.

Lemma X17_quick_license_presets_witness :
  Forall (fun preset : (utils.QuickLicense -> Date -> Completion jsstring) * Z =>
            exists key,
              fst preset (utils.mkQuickLicense (LicenseGenerator.mk (js "k")))
                (newDate (Int 1704110400000)) = Return key /\
              validateKeyAtTime hmacSha256 (LicenseValidator.mk (js "k")) key
                (newDate (Int 1704112200000))
              = let issued := 1704110400000 / 1000 * 1000 in
                let expires := (1704110400000 + snd preset * 3600000) / 1000 * 1000 in
                if 1704112200000 <? expires
                then Return (mkLicenseInfo true (mkDate (Int issued))
                               (mkDate (Int expires))
                               (max0 (Number.div
                                        (Number.sub (Int expires) (Int 1704112200000))
                                        (1000 * 60 * 60))))
                else Throw (ALicenseError (expired "License has expired")))
         [(utils.oneHour hmacSha256, 1); (utils.oneDay hmacSha256, 24);
          (utils.oneWeek hmacSha256, 168); (utils.oneMonth hmacSha256, 720);
          (utils.oneYear hmacSha256, 8760)].
Proof.
  apply (@X17_quick_license_presets hmacSha256 (js "k")
           (utils.mkQuickLicense (LicenseGenerator.mk (js "k")))
           (LicenseValidator.mk (js "k")) 1704110400000 1704112200000).
  - reflexivity.
  - reflexivity.
  - lia.
  - unfold maxTime. lia.
  - unfold maxTime. lia.
Defined.

(** The map over the durations: the first duration the generator refuses
    ends it; with none refused every duration gets its key. *)
Lemma mapGenerateKey_decided (hmac : Buffer -> Buffer -> Buffer)
    (g : LicenseGenerator.t) (clock : nat -> Date) :
  (forall n, isNaN (getTime (clock n)) = false) ->
  forall (durations : list double) (tick : nat),
    if existsb (fun d => Double.leb d (DFin 0 0)) durations
    then utils.mapGenerateKey hmac g durations clock tick
         = Throw (AnError "Hours must be greater than 0")
    else exists keys,
        utils.mapGenerateKey hmac g durations clock tick = Return keys /\
        List.length keys = List.length durations /\
        forall (n : nat) (d : double),
          nth_error durations n = Some d ->
          exists key,
            nth_error keys n = Some key /\
            LicenseGenerator.generateKey hmac g d (clock (tick + n)%nat) = Return key.
Proof.
  intros Hclock. induction durations as [|d rest IH]; intros tick.
  - cbn [existsb utils.mapGenerateKey]. exists []. splits; try reflexivity.
    intros [|n] d H; discriminate H.
  - cbn [existsb utils.mapGenerateKey].
    destruct (Double.leb d (DFin 0 0)) eqn:Hd; cbn [orb].
    + unfold LicenseGenerator.generateKey, LicenseGenerator.generateKeyWithTimestamp.
      now rewrite Hd.
    + assert (Hk : exists key,
                 LicenseGenerator.generateKey hmac g d (clock tick) = Return key).
      { unfold LicenseGenerator.generateKey, LicenseGenerator.generateKeyWithTimestamp.
        rewrite Hd, Hclock. eexists. reflexivity. }
      destruct Hk as [key Hk]. rewrite Hk. cbn [bind].
      specialize (IH (S tick)). destruct (existsb _ rest).
      * now rewrite IH.
      * destruct IH as (keys & E & Hl & Hn). rewrite E. cbn [bind].
        exists (key :: keys). splits; [reflexivity|cbn [List.length]; lia|].
        intros [|n] d' H; cbn [nth_error] in *.
        -- injection H as <-. exists key. rewrite Nat.add_0_r. auto.
        -- destruct (Hn n d' H) as (k & H1 & H2). exists k. split; [exact H1|].
           replace (tick + S n)%nat with (S tick + n)%nat by lia. exact H2.
Qed.

(** X18.  [generateMultipleLicenses] is all or nothing.  With a clock
    that reads valid dates, it throws on a secret of white space only, it
    throws as soon as one duration is refused by the generator
    ([duration <= 0]), returning no key at all, and otherwise it returns
    one key for each duration, in order: the key [generateKey] returns for
    that duration at the clock reading of its turn. *)
Theorem X18_generateMultipleLicenses_all_or_nothing
    (hmac : Buffer -> Buffer -> Buffer) (secret : jsstring)
    (durations : list double) (clock : nat -> Date) :
  (forall n, isNaN (getTime (clock n)) = false) ->
  if forallb isWhiteSpace secret
  then utils.generateMultipleLicenses hmac secret durations clock
       = Throw (AnError "Secret key cannot be empty")
  else if existsb (fun d => Double.leb d (DFin 0 0)) durations
  then utils.generateMultipleLicenses hmac secret durations clock
       = Throw (AnError "Hours must be greater than 0")
  else exists keys,
      utils.generateMultipleLicenses hmac secret durations clock = Return keys /\
      List.length keys = List.length durations /\
      forall (n : nat) (d : double),
        nth_error durations n = Some d ->
        exists key,
          nth_error keys n = Some key /\
          LicenseGenerator.generateKey hmac (LicenseGenerator.mk secret) d (clock n)
          = Return key.
Proof.
  intros Hclock. unfold utils.generateMultipleLicenses.
  rewrite generator_constructor_decided.
  destruct (forallb isWhiteSpace secret); [reflexivity|]. cbn [bind].
  exact (@mapGenerateKey_decided hmac (LicenseGenerator.mk secret) clock Hclock
           durations 0%nat).
Qed.

Lemma X18_generateMultipleLicenses_all_or_nothing_witness :
  utils.generateMultipleLicenses hmacSha256 (js "k")
    [DFin 1 0; DFin 0 0; DFin 24 0] (fun _ => newDate (Int 1704110400000))
  = Throw (AnError "Hours must be greater than 0").
Proof.
  apply (@X18_generateMultipleLicenses_all_or_nothing hmacSha256 (js "k")
           [DFin 1 0; DFin 0 0; DFin 24 0] (fun _ => newDate (Int 1704110400000))).
  intros n. reflexivity.
Defined.

End Presets.

(* ================================================================== *)
(** * The interactive prompts *)

Section Prompts.
Local Open Scope Z_scope.

(** A trimmed string that is not empty is no white space. *)
Lemma trim_not_space (s : jsstring) :
  isEmpty (trim s) = false -> forallb isWhiteSpace (trim s) = false.
Proof.
  unfold trim. intros H.
  destruct (trimStart (rev (trimStart s))) as [|c r] eqn:E; [discriminate H|].
  apply trimStart_head in E as [Hc _].
  cbn [rev]. rewrite forallb_app. cbn [forallb].
  now rewrite Hc, andb_false_r.
Qed.

Lemma getSecretKeyInteractive_not_space (input : cli.Input) (pos : nat) :
  forallb isWhiteSpace (fst (cli.getSecretKeyInteractive input pos)) = false.
Proof.
  unfold cli.getSecretKeyInteractive. cbv zeta.
  destruct (cli.strictEq _ (js "1")); [reflexivity|].
  destruct (cli.strictEq _ (js "2")); [|reflexivity].
  destruct (isEmpty (trim (input (S pos)))) eqn:E; [reflexivity|].
  destruct (Nat.ltb _ 8); cbn [fst]; now apply trim_not_space.
Qed.

(** The duration prompt returns what the generator's guard lets through. *)
Lemma getHoursInputInteractive_positive (fuel : nat) (input : cli.Input)
    (pos pos' : nat) (hours : number) :
  cli.getHoursInputInteractive fuel input pos = Some (hours, pos') ->
  isNaN hours = false /\ Number.leb hours (Int 0) = false /\
  Double.leb (Double.ofNumber hours) (DFin 0 0) = false.
Proof.
  revert pos. induction fuel as [|fuel IH]; intros pos; [discriminate|].
  cbn [cli.getHoursInputInteractive]. cbv zeta.
  repeat match goal with
         | |- context [cli.strictEq ?a (js ?b)] =>
             destruct (cli.strictEq a (js b));
             [intros [= <- <-]; splits; reflexivity|]
         end.
  destruct (cli.strictEq _ (js "6")); [|apply IH].
  destruct (isNaN _ || Number.leb _ _) eqn:E; [apply IH|].
  intros [= <- <-]. apply orb_false_elim in E as [E1 E2].
  splits; auto.
  destruct (parseInt _) as [|s|z]; [discriminate E1|exact E2|].
  cbn [Double.ofNumber Number.leb] in *. unfold Double.leb.
  change (Z.min 0 0) with 0. change (0 - 0) with 0. change (2 ^ 0) with 1.
  rewrite Z.mul_1_r. exact E2.
Qed.

(** X19.  Whatever is typed at its prompts, [getSecretKeyInteractive]
    returns a secret that both constructors accept: the default secret, or
    a trimmed custom secret that is not empty.  It reads one line, or two
    when the first one is the choice [2]. *)
Theorem X19_prompted_secret_is_accepted (input : cli.Input) (pos : nat) :
  let secretKey := fst (cli.getSecretKeyInteractive input pos) in
  LicenseGenerator.constructor secretKey = Return (LicenseGenerator.mk secretKey)
  /\ LicenseValidator.constructor secretKey = Return (LicenseValidator.mk secretKey)
  /\ (secretKey = js DEFAULT_SECRET_KEY \/ secretKey = trim (input (S pos)))
  /\ snd (cli.getSecretKeyInteractive input pos)
     = (if cli.strictEq (trim (input pos)) (js "2") then S (S pos) else S pos).
Proof.
  cbv zeta. splits.
  - rewrite generator_constructor_decided.
    now rewrite getSecretKeyInteractive_not_space.
  - rewrite validator_constructor_decided.
    now rewrite getSecretKeyInteractive_not_space.
  - unfold cli.getSecretKeyInteractive. cbv zeta.
    destruct (cli.strictEq _ (js "1")); [auto|].
    destruct (cli.strictEq _ (js "2")); [|auto].
    destruct (isEmpty _); [auto|]. destruct (Nat.ltb _ 8); auto.
  - unfold cli.getSecretKeyInteractive, cli.strictEq. cbv zeta.
    destruct (list_eq_dec N.eq_dec (trim (input pos)) (js "1")) as [E|_].
    + rewrite E. reflexivity.
    + destruct (list_eq_dec N.eq_dec (trim (input pos)) (js "2")); [|reflexivity].
      destruct (isEmpty _); [reflexivity|]. destruct (Nat.ltb _ 8); reflexivity.
Qed.

(** X20.  The duration prompt never returns a duration the generator
    refuses: what [getHoursInputInteractive] returns is not [NaN] and is
    greater than 0, so with the secret of the prompt before it neither
    guard of the library fires in [generateKeyInteractive], which obtains
    a key at every valid clock reading.  A first line that is one of the
    choices [1] to [5] ends the prompt at once with 1, 24, 168, 720 or
    8760 hours. *)
Theorem X20_prompted_duration_is_accepted (hmac : Buffer -> Buffer -> Buffer)
    (fuel : nat) (input : cli.Input) (pos : nat) :
  (forall (hours : number) (pos' : nat),
      cli.getHoursInputInteractive fuel input pos = Some (hours, pos') ->
      isNaN hours = false /\ Number.leb hours (Int 0) = false)
  /\ (forall (t : Z) (outcome : Completion jsstring),
         Z.abs t <= maxTime ->
         cli.generateKeyInteractive hmac fuel input pos (newDate (Int t))
         = Some outcome ->
         exists key, outcome = Return key)
  /\ Forall (fun choice : string * Z =>
               trim (input pos) = js (fst choice) ->
               cli.getHoursInputInteractive (S fuel) input pos
               = Some (Int (snd choice), S pos))
            [("1", 1); ("2", 24); ("3", 168); ("4", 720); ("5", 8760)]%string.
Proof.
  splits.
  - intros hours pos' H.
    apply getHoursInputInteractive_positive in H as (H1 & H2 & _). auto.
  - intros t outcome Ht. unfold cli.generateKeyInteractive.
    pose proof (getSecretKeyInteractive_not_space input pos) as Hsecret.
    destruct (cli.getSecretKeyInteractive input pos) as [secretKey pos1].
    cbn [fst] in Hsecret.
    destruct (cli.getHoursInputInteractive fuel input pos1) as [[hours pos2]|] eqn:E;
      [|discriminate].
    intros [= <-].
    apply getHoursInputInteractive_positive in E as (_ & _ & E).
    rewrite generator_constructor_decided, Hsecret. cbn [bind].
    apply generateKeyWithTimestamp_accepts; assumption.
  - repeat constructor; cbn [fst snd]; intros H;
      cbn [cli.getHoursInputInteractive]; cbv zeta; rewrite H; reflexivity.
Qed.

Lemma X20_prompted_duration_is_accepted_witness :
  isNaN (Int 48) = false /\ Number.leb (Int 48) (Int 0) = false.
Proof.
  apply (proj1 (@X20_prompted_duration_is_accepted hmacSha256 1
                  (fun n => match n with O => js "6" | _ => js " 48 hours" end) 0)
           (Int 48) 2%nat).
  reflexivity.
Defined.

End Prompts.

(* ================================================================== *)
(** * Lenient readings *)

Section Lenient.
Local Open Scope Z_scope.

(** [parseInt] stops reading at the first character that is no digit. *)
Lemma takeDigits_app (a junk : jsstring) :
  numeral a ->
  match junk with [] => True | c :: _ => isDigit c = false end ->
  takeDigits (a ++ junk) = map (fun c => (c - 48)%N) a.
Proof.
  intros Ha Hj. induction Ha as [|c a Hc _ IH].
  - destruct junk as [|d junk]; [reflexivity|].
    cbn [app takeDigits map]. now rewrite Hj.
  - cbn [app takeDigits map]. unfold isDigit.
    destruct (N.leb_spec 48 c); [|lia]. destruct (N.leb_spec c 57); [|lia].
    cbn [andb]. now rewrite IH.
Qed.

Lemma parseInt_prefix (n : N) (junk : jsstring) :
  match junk with [] => True | c :: _ => isDigit c = false end ->
  parseInt (digits n ++ junk) = toDouble (Z.of_N n).
Proof.
  intros Hj. unfold parseInt.
  pose proof (digits_numeral n) as Hnum.
  pose proof (@digits_nonempty n) as Hne.
  pose proof (digitsValue_digits n) as Hval.
  pose proof (takeDigits_app junk Hnum Hj) as Htake.
  destruct (digits n) as [|c s]; [congruence|].
  inversion Hnum as [|? ? Hc Hs]; subst.
  cbn [app trimStart]. rewrite (digit_not_space Hc).
  destruct (N.eqb_spec c 45); [lia|]. destruct (N.eqb_spec c 43); [lia|].
  cbn [app] in Htake. rewrite Htake.
  cbn [map] in *. rewrite Hval. f_equal. lia.
Qed.

(** X21.  The custom duration of the interactive prompt is read
    leniently: when the trimmed line starts with the decimal numeral of
    [n > 0] (below 2^53) and goes on with anything that does not start
    with a digit, as in [1.5] or [24abc], [getHoursInputInteractive]
    returns [n] hours without complaint. *)
Theorem X21_custom_duration_is_read_leniently (fuel : nat) (input : cli.Input)
    (pos : nat) (n : N) (junk : jsstring) :
  trim (input pos) = js "6" ->
  trim (input (S pos)) = digits n ++ junk ->
  match junk with [] => True | c :: _ => isDigit c = false end ->
  (0 < n)%N -> Z.of_N n < 2 ^ 53 ->
  cli.getHoursInputInteractive (S fuel) input pos = Some (Int (Z.of_N n), S (S pos)).
Proof.
  intros Hchoice Hline Hjunk Hpos Hsmall.
  cbn [cli.getHoursInputInteractive]. cbv zeta. rewrite Hchoice, Hline.
  change (cli.strictEq (js "6") (js "1")) with false.
  change (cli.strictEq (js "6") (js "2")) with false.
  change (cli.strictEq (js "6") (js "3")) with false.
  change (cli.strictEq (js "6") (js "4")) with false.
  change (cli.strictEq (js "6") (js "5")) with false.
  change (cli.strictEq (js "6") (js "6")) with true. cbv iota.
  rewrite (parseInt_prefix n junk Hjunk), toDouble_exact by lia.
  cbn [isNaN Number.leb orb].
  destruct (Z.leb_spec (Z.of_N n) 0); [lia|reflexivity].
Qed.

Lemma X21_custom_duration_is_read_leniently_witness :
  cli.getHoursInputInteractive 1
    (fun k => match k with O => js " 6" | _ => js "1.5 " end) 0
  = Some (Int (Z.of_N 1), 2%nat).
Proof.
  apply (@X21_custom_duration_is_read_leniently 0
           (fun k => match k with O => js " 6" | _ => js "1.5 " end) 0 1 (js ".5")).
  - reflexivity.
  - reflexivity.
  - reflexivity.
  - reflexivity.
  - reflexivity.
Defined.

(** X22.  Keys carry nothing but the two whole seconds: for a whole
    number of hours, two issuance times within the same second give the
    same key, character for character. *)
Theorem X22_same_second_same_key (hmac : Buffer -> Buffer -> Buffer)
    (g : LicenseGenerator.t) (h t1 t2 : Z) :
  0 < h -> 0 <= t1 -> 0 <= t2 -> t1 / 1000 = t2 / 1000 ->
  t1 + h * 3600000 <= maxTime -> t2 + h * 3600000 <= maxTime ->
  LicenseGenerator.generateKeyWithTimestamp hmac g (DFin h 0) (newDate (Int t1))
  = LicenseGenerator.generateKeyWithTimestamp hmac g (DFin h 0) (newDate (Int t2))
  /\ exists key,
       LicenseGenerator.generateKeyWithTimestamp hmac g (DFin h 0) (newDate (Int t1))
       = Return key.
Proof.
  intros Hh H1 H2 Hsec Hm1 Hm2. unfold maxTime in *.
  assert (Hpos : Double.leb (DFin h 0) (DFin 0 0) = false).
  { unfold Double.leb. change (Z.min 0 0) with 0. change (0 - 0) with 0.
    change (2 ^ 0) with 1. apply Z.leb_gt. lia. }
  assert (E : forall t, 0 <= t -> t + h * 3600000 <= maxTime ->
              LicenseGenerator.generateKeyWithTimestamp hmac g (DFin h 0)
                (newDate (Int t))
              = Return (signedToken hmac (LicenseGenerator.secretKey g)
                          (utf8_encode
                             (payloadText (t / 1000) (t / 1000 + h * 3600))))).
  { intros t Ht Hm. unfold maxTime in Hm.
    rewrite (@generateKeyWithTimestamp_canonical hmac g (DFin h 0) t
               (t + h * 3600000));
      [|exact Hpos|exact Ht|unfold maxTime; lia
       |apply expiry_whole_hours; unfold maxTime; lia|lia].
    do 4 f_equal. lia_div. }
  rewrite (E t1), (E t2), Hsec by (unfold maxTime; lia).
  split; [reflexivity|eauto].
Qed.

Lemma X22_same_second_same_key_witness :
  LicenseGenerator.generateKeyWithTimestamp hmacSha256
    (LicenseGenerator.mk (js "k")) (DFin 24 0) (newDate (Int 1704110400000))
  = LicenseGenerator.generateKeyWithTimestamp hmacSha256
      (LicenseGenerator.mk (js "k")) (DFin 24 0) (newDate (Int 1704110400999))
  /\ exists key,
       LicenseGenerator.generateKeyWithTimestamp hmacSha256
         (LicenseGenerator.mk (js "k")) (DFin 24 0) (newDate (Int 1704110400000))
       = Return key.
Proof.
  apply (@X22_same_second_same_key hmacSha256 (LicenseGenerator.mk (js "k"))
           24 1704110400000 1704110400999).
  - lia.
  - lia.
  - lia.
  - reflexivity.
  - unfold maxTime. lia.
  - unfold maxTime. lia.
Defined.

End Lenient.
